(** * ProductMockService: the in-memory product directory engine

    A shallow embedding of [ProductMockService] (product-mock.service.ts),
    of the entity model (product.model.ts, api-response.model.ts), and of
    the error paths of the listing and form components that consume it;
    then of the two services that talk to the backend over HTTP
    (product-api.service.ts, product.service.ts), of the loading counter
    and the interceptor (http-request.interceptor.ts), and of the filter
    form, the pager and the product form of the views.

    Conventions of the embedding:
    - a JavaScript string is the list of its UTF-16 code units, so that
      [length] is the [.length] of the source;
    - page numbers, page sizes, ids and array lengths are integers ([Z]);
      prices are rationals ([Q]); NaN and the infinities are not modelled;
    - a [Date] is its number of milliseconds since the epoch;
    - a property typed [T | undefined] is an [option T], [None] standing
      for an absent property;
    - an operation is one call of the service method followed by one
      subscription that is left to run to completion: it maps the state of
      the service to a notification ([Next] or [Error]) and a new state.
      The state carries the wall clock read by [new Date()];
      [delay(API_DELAY)] advances it by [API_DELAY] milliseconds, and
      the synchronous part of a call takes no time, so that the reads of
      the clock within one call return the same instant. *)

From Stdlib Require Import ZArith QArith String Ascii List Lia Bool DecimalString.
From stdpp Require Import base list option.
From stdpp Require gmap strings fin_maps.
Import ListNotations.
Open Scope Z_scope.

(** ** JavaScript strings and arrays *)

Abbreviation jsstring := (list N) (only parsing).

(** A source literal made of ASCII characters only. *)
Definition lit (s : string) : jsstring :=
  map N_of_ascii (list_ascii_of_string s).
Arguments lit : simpl never.

(** [String(n)] for an integer [n]. *)
Definition number_toString (n : Z) : jsstring :=
  lit (NilZero.string_of_int (Z.to_int n)).

(** [s.length] *)
Definition strlen (s : jsstring) : Z := Z.of_nat (length s).

(** WhiteSpace and LineTerminator code units of ECMAScript, the ones
    [String.prototype.trim] strips. *)
Definition isWhiteSpace (c : N) : bool :=
  ((9 <=? c) && (c <=? 13) || (c =? 32) || (c =? 160) || (c =? 5760)
   || (8192 <=? c) && (c <=? 8202) || (c =? 8232) || (c =? 8233)
   || (c =? 8239) || (c =? 8287) || (c =? 12288) || (c =? 65279))%N.

Fixpoint dropWhile {A} (f : A -> bool) (l : list A) : list A :=
  match l with
  | [] => []
  | x :: l' => if f x then dropWhile f l' else l
  end.

(** [s.trim()] *)
Definition trim (s : jsstring) : jsstring :=
  rev (dropWhile isWhiteSpace (rev (dropWhile isWhiteSpace s))).

Fixpoint startsWith (s sub : jsstring) : bool :=
  match sub, s with
  | [], _ => true
  | _ :: _, [] => false
  | a :: sub', b :: s' => (a =? b)%N && startsWith s' sub'
  end.

(** [s.includes(sub)] *)
Fixpoint includes (s sub : jsstring) : bool :=
  startsWith s sub ||
  match s with
  | [] => false
  | _ :: s' => includes s' sub
  end.

Definition jsstring_eqb (a b : jsstring) : bool :=
  bool_decide (a = b).

(** [arr.includes(x)] on an array of strings *)
Definition array_includes (arr : list jsstring) (x : jsstring) : bool :=
  existsb (jsstring_eqb x) arr.

(** [arr.join(sep)] *)
Fixpoint join (sep : jsstring) (arr : list jsstring) : jsstring :=
  match arr with
  | [] => []
  | [x] => x
  | x :: rest => x ++ sep ++ join sep rest
  end.

(** [arr.slice(start, stop)] for integer arguments *)
Definition slice {A} (arr : list A) (start stop : Z) : list A :=
  let len := Z.of_nat (length arr) in
  let k := if start <? 0 then Z.max (len + start) 0 else Z.min start len in
  let final := if stop <? 0 then Z.max (len + stop) 0 else Z.min stop len in
  take (Z.to_nat (final - k)) (drop (Z.to_nat k) arr).

(** [arr.findIndex(f)]: the first index whose element satisfies [f],
    [-1] when there is none. *)
Fixpoint findIndex {A} (f : A -> bool) (arr : list A) : Z :=
  match arr with
  | [] => -1
  | x :: rest =>
      if f x then 0
      else let i := findIndex f rest in if i <? 0 then -1 else i + 1
  end.

(** [Math.ceil(a / b)] on integers. The quotient of two integers below
    2^53 is never rounded across an integer, so the floating-point
    computation of the source agrees with the exact one. *)
Definition ceil_div (a b : Z) : Z := - ((- a) / b).

(** [x || d] on a number that may be absent: [undefined] and [0] are
    falsy. *)
Definition or_default (x : option Z) (d : Z) : Z :=
  match x with
  | Some v => if v =? 0 then d else v
  | None => d
  end.

Definition Qltb (a b : Q) : bool := negb (Qle_bool b a).

(** [Date.UTC(y, m, d, hh, mm)] with [m] counted from 1: milliseconds
    since 1970-01-01T00:00:00Z of a proleptic Gregorian date. *)
Definition days_from_civil (y m d : Z) : Z :=
  let y' := if m <=? 2 then y - 1 else y in
  let era := y' / 400 in
  let yoe := y' - era * 400 in
  let doy := (153 * (if 2 <? m then m - 3 else m + 9) + 2) / 5 + d - 1 in
  let doe := yoe * 365 + yoe / 4 - yoe / 100 + doy in
  era * 146097 + doe - 719468.

Definition utc (y m d hh mm : Z) : Z :=
  ((days_from_civil y m d * 24 + hh) * 60 + mm) * 60000.

(** ** Entity model (product.model.ts, api-response.model.ts) *)

Module Product.
Record t := mk {
  id : Z;
  name : jsstring;
  description : option jsstring;
  price : Q;
  category : jsstring;
  imageUrl : option jsstring;
  active : bool;
  createdAt : Z;
  updatedAt : Z
}.
End Product.

(** [CreateProduct | UpdateProduct], the payload type of
    [validateProductData]. [CreateProduct] declares [name], [price],
    [category] and [active] as required, but the validator and
    [createProduct] test them against [undefined], so the payload is
    modelled with every property optional. A property that is present
    with the value [undefined], which the object spread of
    [updateProduct] would copy over the stored value, is outside the
    model. *)
Module ProductData.
Record t := mk {
  name : option jsstring;
  description : option jsstring;
  price : option Q;
  category : option jsstring;
  imageUrl : option jsstring;
  active : option bool
}.
(** the object literal [{}] *)
Definition empty : t := mk None None None None None None.
End ProductData.

Abbreviation CreateProduct := ProductData.t (only parsing).
Abbreviation UpdateProduct := ProductData.t (only parsing).

Module ProductFilter.
Record t := mk {
  category : option jsstring;
  minPrice : option Q;
  maxPrice : option Q;
  active : option bool;
  search : option jsstring
}.
Definition empty : t := mk None None None None None.
End ProductFilter.

Module PaginationParams.
Record t := mk {
  page : option Z;
  pageSize : option Z
}.
End PaginationParams.

Module PaginatedResponse.
Record t := mk {
  data : list Product.t;
  currentPage : Z;
  pageSize : Z;
  totalItems : Z;
  totalPages : Z;
  hasNext : bool;
  hasPrevious : bool
}.
End PaginatedResponse.

Module ApiError.
Record t := mk {
  statusCode : Z;
  message : jsstring;
  details : option jsstring;
  timestamp : Z;
  path : jsstring
}.
End ApiError.

(** What travels on the error channel of an observable: a structured
    [ApiError] object, or a JavaScript [Error] with its [name] and
    [message] ([new Error(m)] has the name [Error]; the [timeout]
    operator of rxjs raises one named [TimeoutError]). *)
Inductive Failure :=
| Api (e : ApiError.t)
| JsError (name message : jsstring).

(** The outcome of a subscription: the emitted value or the error. *)
Inductive Notification (A : Type) :=
| Next (a : A)
| Error (f : Failure).
Arguments Next {A} a.
Arguments Error {A} f.

Definition failed {A} (n : Notification A) : bool :=
  match n with Next _ => false | Error _ => true end.

(** [error.message], defined on both kinds of failures *)
Definition error_message (f : Failure) : jsstring :=
  match f with
  | Api e => ApiError.message e
  | JsError _ m => m
  end.

(** [error.name]; an [ApiError] object has no such property *)
Definition error_name (f : Failure) : option jsstring :=
  match f with
  | Api _ => None
  | JsError n _ => Some n
  end.

(** The error taxonomy of the engine, read off the status code and the
    message of a structured error. A bare [Error] belongs to no kind. *)
Inductive ErrorKind := InvalidArgument | ValidationFailed | NotFound.

Definition error_kind (f : Failure) : option ErrorKind :=
  match f with
  | Api e =>
      if (ApiError.statusCode e =? 400)
         && jsstring_eqb (ApiError.message e) (lit "Bad Request")
      then Some InvalidArgument
      else if (ApiError.statusCode e =? 400)
         && jsstring_eqb (ApiError.message e) (lit "Validation Failed")
      then Some ValidationFailed
      else if ApiError.statusCode e =? 404 then Some NotFound
      else None
  | JsError _ _ => None
  end.

(** ** The service and its state *)

(** The mutable members of [ProductMockService]. [productsSubject] and
    [loadingSubject] hold the current value of the two [BehaviorSubject]s
    (the change notification bus); [now] is the wall clock. The subject
    is created over the very array [mockProducts], but every mutation of
    that array is followed, in the same [tap], by [next] of a fresh copy,
    and no failure path mutates it, so the two are kept as two values. *)
Record ServiceState := mkState {
  mockProducts : list Product.t;
  productsSubject : list Product.t;
  loadingSubject : bool;
  nextId : Z;
  now : Z
}.

Definition API_DELAY : Z := 300.

Definition seedProducts : list Product.t :=
  [ Product.mk 1 (lit "Notebook Dell Inspiron 15")
      (Some (lit "Notebook com processador Intel Core i5, 8GB RAM, 256GB SSD"))
      3499.90 (lit "ELETRONICOS")
      (Some (lit "https://i.dell.com/is/image/DellContent/content/dam/ss2/product-images/dell-client-products/notebooks/inspiron-notebooks/15-3520/pdp/laptop-inspiron-15-3520-pdp-gallery-504x350-bk.psd?fmt=png-alpha&wid=570&hei=400"))
      true (utc 2024 1 15 10 30) (utc 2024 10 20 14 45);
    Product.mk 2 (lit "Mouse Logitech MX Master 3")
      (Some (lit "Mouse sem fio ergon" ++ [244%N] ++ lit "mico com sensor de alta precis"
             ++ [227%N] ++ lit "o"))
      449.90 (lit "ELETRONICOS")
      (Some (lit "https://m.media-amazon.com/images/I/61+OT7FPABL.jpg"))
      true (utc 2024 2 10 9 15) (utc 2024 10 18 16 20);
    Product.mk 3 (lit "Teclado Mec" ++ [226%N] ++ lit "nico Keychron K2")
      (Some (lit "Teclado mec" ++ [226%N] ++ lit "nico sem fio com switches Red, RGB"))
      659.90 (lit "ELETRONICOS")
      (Some (lit "https://carrefourbr.vtexassets.com/arquivos/ids/198365397/image-0.jpg"))
      true (utc 2024 3 5 11 0) (utc 2024 10 15 13 30);
    Product.mk 4 (lit "Monitor LG UltraWide 29" ++ [34%N])
      (Some (lit "Monitor IPS 29 polegadas, resolu" ++ [231%N; 227%N]
             ++ lit "o 2560x1080, 75Hz"))
      1299.90 (lit "ELETRONICOS")
      (Some (lit "https://m.media-amazon.com/images/I/51mHapX90SL._AC_UF894,1000_QL80_.jpg"))
      true (utc 2024 4 12 8 45) (utc 2024 10 10 10 15);
    Product.mk 5 (lit "Camiseta Nike Dry-Fit")
      (Some (lit "Camiseta esportiva com tecnologia de secagem r" ++ [225%N] ++ lit "pida"))
      129.90 (lit "ROUPAS")
      (Some (lit "https://cdn.awsli.com.br/2500x2500/1714/1714539/produto/301464319/e557ac303ce1294613d160a2305c4a7e-badvelksjs.jpeg"))
      true (utc 2024 5 20 15 30) (utc 2024 10 5 17 0);
    Product.mk 6 (lit "Livro: Clean Code")
      (Some (lit "Guia essencial sobre boas pr" ++ [225%N] ++ lit "ticas de programa"
             ++ [231%N; 227%N] ++ lit "o por Robert C. Martin"))
      89.90 (lit "LIVROS")
      (Some (lit "https://media.licdn.com/dms/image/v2/C4D12AQElMcNEch38WQ/article-cover_image-shrink_720_1280/article-cover_image-shrink_720_1280/0/1645152091261?e=2147483647&v=beta&t=rHdnB7tb0gw7fc-RNB1gFelNo8sdOXdg-bx0Cu0WHnk"))
      true (utc 2024 6 8 12 0) (utc 2024 9 30 9 30);
    Product.mk 7 (lit "Sof" ++ [225%N] ++ lit " Retr" ++ [225%N] ++ lit "til 3 Lugares")
      (Some (lit "Sof" ++ [225%N] ++ lit " confort" ++ [225%N]
             ++ lit "vel com tecido suede, cor cinza"))
      2499.90 (lit "CASA")
      (Some (lit "https://www.camainbox.com.br/media/catalog/product/cache/0a0c65509d6052414e566f979b0217be/1/_/1_sofa_retratil_reclinavel_big_fresh_ambiente_azul_6.jpg"))
      true (utc 2024 7 15 14 20) (utc 2024 9 25 11 45);
    Product.mk 8 (lit "Bola de Futebol Adidas")
      (Some (lit "Bola oficial para campo, tamanho padr" ++ [227%N] ++ lit "o"))
      199.90 (lit "ESPORTES")
      (Some (lit "https://images.tcdn.com.br/img/img_prod/734952/bola_adidas_starlancer_unissex_vermelho_e_preto_9431_1_aa90e7bcd7ea97320c54071d8cffec5a.jpeg"))
      false (utc 2024 8 1 10 0) (utc 2024 9 20 16 30) ].

(** The service as constructed when the clock reads [t0]. *)
Definition initialState (t0 : Z) : ServiceState :=
  {| mockProducts := seedProducts;
     productsSubject := seedProducts;
     loadingSubject := false;
     nextId := 9;
     now := t0 |}.

(** A service constructed on 2025-01-01T00:00:00Z, used in the examples. *)
Definition bootState : ServiceState := initialState (utc 2025 1 1 0 0).

Definition setLoading (loading : bool) (s : ServiceState) : ServiceState :=
  {| mockProducts := mockProducts s;
     productsSubject := productsSubject s;
     loadingSubject := loading;
     nextId := nextId s;
     now := now s |}.

(** [this.productsSubject.next(v)] *)
Definition productsSubject_next (v : list Product.t) (s : ServiceState)
  : ServiceState :=
  {| mockProducts := mockProducts s;
     productsSubject := v;
     loadingSubject := loadingSubject s;
     nextId := nextId s;
     now := now s |}.

Definition set_mockProducts (v : list Product.t) (s : ServiceState)
  : ServiceState :=
  {| mockProducts := v;
     productsSubject := productsSubject s;
     loadingSubject := loadingSubject s;
     nextId := nextId s;
     now := now s |}.

(** [this.nextId++], the state part *)
Definition incr_nextId (s : ServiceState) : ServiceState :=
  {| mockProducts := mockProducts s;
     productsSubject := productsSubject s;
     loadingSubject := loadingSubject s;
     nextId := nextId s + 1;
     now := now s |}.

(** [delay(ms)]: the subscription resumes [ms] milliseconds later. *)
Definition delay (ms : Z) (s : ServiceState) : ServiceState :=
  {| mockProducts := mockProducts s;
     productsSubject := productsSubject s;
     loadingSubject := loadingSubject s;
     nextId := nextId s;
     now := now s + ms |}.

Definition createApiError (statusCode : Z) (message : jsstring)
    (details : option jsstring) (s : ServiceState) : ApiError.t :=
  {| ApiError.statusCode := statusCode;
     ApiError.message := message;
     ApiError.details := details;
     ApiError.timestamp := now s;
     ApiError.path := lit "/api/products" |}.

Definition throwApiError {A} (statusCode : Z) (message : jsstring)
    (details : option jsstring) (s : ServiceState)
  : Notification A * ServiceState :=
  let s := setLoading false s in
  let error := createApiError statusCode message details s in
  (Error (Api error), s).

(** *** Validation *)

Definition validCategories : list jsstring :=
  [lit "ELETRONICOS"; lit "ROUPAS"; lit "LIVROS"; lit "CASA"; lit "ESPORTES";
   lit "OUTROS"].

(** [validateProductData(data, isUpdate)]. A string property is falsy
    when it is absent or empty. *)
Definition validateProductData (data : ProductData.t) (isUpdate : bool)
  : list jsstring :=
  let errors : list jsstring := [] in
  let shouldValidateName := negb isUpdate || bool_decide (is_Some (ProductData.name data)) in
  let errors :=
    if shouldValidateName then
      match ProductData.name data with
      | Some n =>
          if (strlen n =? 0) || (strlen (trim n) =? 0)
          then errors ++ [lit "Name is required"]
          else if strlen n <? 3
          then errors ++ [lit "Name must be at least 3 characters"]
          else if 200 <? strlen n
          then errors ++ [lit "Name must not exceed 200 characters"]
          else errors
      | None => errors ++ [lit "Name is required"]
      end
    else errors in
  let shouldValidatePrice := negb isUpdate || bool_decide (is_Some (ProductData.price data)) in
  let errors :=
    if shouldValidatePrice then
      match ProductData.price data with
      | None => errors ++ [lit "Price is required"]
      | Some p =>
          if Qltb p 0
          then errors ++ [lit "Price must be greater than or equal to 0"]
          else if Qltb 999999.99 p
          then errors ++ [lit "Price must not exceed 999999.99"]
          else errors
      end
    else errors in
  let shouldValidateCategory := negb isUpdate || bool_decide (is_Some (ProductData.category data)) in
  let errors :=
    if shouldValidateCategory then
      match ProductData.category data with
      | Some c =>
          if strlen c =? 0
          then errors ++ [lit "Category is required"]
          else if negb (array_includes validCategories c)
          then errors ++ [lit "Category must be one of: "
                            ++ join (lit ", ") validCategories]
          else errors
      | None => errors ++ [lit "Category is required"]
      end
    else errors in
  let errors :=
    match ProductData.description data with
    | Some d =>
        if negb (strlen d =? 0) && (1000 <? strlen d)
        then errors ++ [lit "Description must not exceed 1000 characters"]
        else errors
    | None => errors
    end in
  errors.

(** *** GET api/products *)

Section Listing.

(** [String.prototype.toLowerCase], the Unicode lower-casing of the
    host. The results below hold whatever it computes. *)
Variable toLowerCase : jsstring -> jsstring.

(** The array [filterFunctions] built by [getProducts]: one entry per
    filter that is set, in the order of the source. *)
Definition filterFunctions (filters : option ProductFilter.t)
  : list (list Product.t -> list Product.t) :=
  let fns : list (list Product.t -> list Product.t) := [] in
  let fns :=
    match filters ≫= ProductFilter.category with
    | Some c =>
        if negb (strlen c =? 0)
        then fns ++ [fun prods =>
               List.filter (fun p => jsstring_eqb (Product.category p) c) prods]
        else fns
    | None => fns
    end in
  let fns :=
    match filters ≫= ProductFilter.minPrice with
    | Some m =>
        fns ++ [fun prods =>
          List.filter (fun p => Qle_bool m (Product.price p)) prods]
    | None => fns
    end in
  let fns :=
    match filters ≫= ProductFilter.maxPrice with
    | Some m =>
        fns ++ [fun prods =>
          List.filter (fun p => Qle_bool (Product.price p) m) prods]
    | None => fns
    end in
  let fns :=
    match filters ≫= ProductFilter.active with
    | Some a =>
        fns ++ [fun prods =>
          List.filter (fun p => Bool.eqb (Product.active p) a) prods]
    | None => fns
    end in
  let fns :=
    match filters ≫= ProductFilter.search with
    | Some q =>
        if negb (strlen q =? 0)
        then
          let searchLower := toLowerCase q in
          fns ++ [fun prods =>
            List.filter (fun p =>
              includes (toLowerCase (Product.name p)) searchLower
              || match Product.description p with
                 | Some d =>
                     negb (strlen d =? 0)
                     && includes (toLowerCase d) searchLower
                 | None => false
                 end) prods]
        else fns
    | None => fns
    end in
  fns.

(** [filterFunctions.reduce((prods, filterFn) => filterFn(prods), filtered)],
    [filtered] being a copy of the dataset. *)
Definition applyFilters (filters : option ProductFilter.t)
    (products : list Product.t) : list Product.t :=
  fold_left (fun prods filterFn => filterFn prods) (filterFunctions filters)
    products.

(** [getProducts(filters, pagination)]. The guard on a missing database
    context, here and in the other methods, cannot fire: [mockProducts]
    is an array from construction on and is never reassigned. *)
Definition getProducts (filters : option ProductFilter.t)
    (pagination : option PaginationParams.t) (s : ServiceState)
  : Notification PaginatedResponse.t * ServiceState :=
  let s := setLoading true s in
  let products := mockProducts s in
  let s := delay API_DELAY s in
  let filtered := applyFilters filters products in
  let page := or_default (pagination ≫= PaginationParams.page) 1 in
  let pageSize := or_default (pagination ≫= PaginationParams.pageSize) 10 in
  let totalItems := Z.of_nat (length filtered) in
  let totalPages := ceil_div totalItems pageSize in
  if page <? 1 then
    (Error (JsError (lit "Error") (lit "Page must be greater than 0")), s)
  else
    let startIndex := (page - 1) * pageSize in
    let endIndex := startIndex + pageSize in
    let paginatedData := slice filtered startIndex endIndex in
    let response :=
      {| PaginatedResponse.data := paginatedData;
         PaginatedResponse.currentPage := page;
         PaginatedResponse.pageSize := pageSize;
         PaginatedResponse.totalItems := totalItems;
         PaginatedResponse.totalPages := totalPages;
         PaginatedResponse.hasNext := endIndex <? totalItems;
         PaginatedResponse.hasPrevious := 1 <? page |} in
    let s := productsSubject_next paginatedData s in
    let s := setLoading false s in
    (Next response, s).

End Listing.

(** *** GET api/products/{id} *)

(** [!id || id < 1] *)
Definition invalid_id (id : Z) : bool := (id =? 0) || (id <? 1).

Definition getProductById (id : Z) (s : ServiceState)
  : Notification Product.t * ServiceState :=
  let s := setLoading true s in
  if invalid_id id then
    throwApiError 400 (lit "Bad Request") (Some (lit "Invalid product ID")) s
  else
    let product := List.find (fun p => Product.id p =? id) (mockProducts s) in
    let s := delay API_DELAY s in
    let s := setLoading false s in
    match product with
    | None =>
        (Error (Api (createApiError 404 (lit "Not Found")
           (Some (lit "Product with ID " ++ number_toString id ++ lit " not found"))
           s)), s)
    | Some prod => (Next prod, s)
    end.

(** *** POST api/products *)

(** [createProduct(productData)]. The entity is built, and the counter
    advanced, when the method is called; the array and the bus are
    written when the delay has passed. A payload that passed validation
    holds a name, a price and a category, so the defaults written for
    them below are never used. *)
Definition createProduct (productData : CreateProduct) (s : ServiceState)
  : Notification Product.t * ServiceState :=
  let s := setLoading true s in
  let validationErrors := validateProductData productData false in
  if 0 <? Z.of_nat (length validationErrors) then
    throwApiError 400 (lit "Validation Failed")
      (Some (join (lit "; ") validationErrors)) s
  else
    let newProduct :=
      {| Product.id := nextId s;
         Product.name := default [] (ProductData.name productData);
         Product.description := ProductData.description productData;
         Product.price := default 0%Q (ProductData.price productData);
         Product.category := default [] (ProductData.category productData);
         Product.imageUrl := ProductData.imageUrl productData;
         Product.active := default true (ProductData.active productData);
         Product.createdAt := now s;
         Product.updatedAt := now s |} in
    let s := incr_nextId s in
    let s := delay API_DELAY s in
    let s := set_mockProducts (mockProducts s ++ [newProduct]) s in
    let s := productsSubject_next (mockProducts s) s in
    let s := setLoading false s in
    (Next newProduct, s).

(** *** PUT api/products/{id} *)

(** [{...stored, ...productData, id, createdAt: stored.createdAt,
      updatedAt: new Date()}] *)
Definition mergeProduct (stored : Product.t) (productData : UpdateProduct)
    (id : Z) (date : Z) : Product.t :=
  {| Product.id := id;
     Product.name := default (Product.name stored) (ProductData.name productData);
     Product.description :=
       match ProductData.description productData with
       | Some d => Some d
       | None => Product.description stored
       end;
     Product.price := default (Product.price stored) (ProductData.price productData);
     Product.category :=
       default (Product.category stored) (ProductData.category productData);
     Product.imageUrl :=
       match ProductData.imageUrl productData with
       | Some u => Some u
       | None => Product.imageUrl stored
       end;
     Product.active := default (Product.active stored) (ProductData.active productData);
     Product.createdAt := Product.createdAt stored;
     Product.updatedAt := date |}.

(** [updateProduct(id, productData)]. The index that [findIndex] returns
    is an index of the array ([findIndex_found] below), so the branch on
    an undefined [this.mockProducts[index]] is never taken. *)
Definition updateProduct (id : Z) (productData : UpdateProduct)
    (s : ServiceState) : Notification Product.t * ServiceState :=
  let s := setLoading true s in
  if invalid_id id then
    throwApiError 400 (lit "Bad Request") (Some (lit "Invalid product ID")) s
  else
    let validationErrors := validateProductData productData true in
    if 0 <? Z.of_nat (length validationErrors) then
      throwApiError 400 (lit "Validation Failed")
        (Some (join (lit "; ") validationErrors)) s
    else
      let index := findIndex (fun p => Product.id p =? id) (mockProducts s) in
      if index =? -1 then
        throwApiError 404 (lit "Not Found")
          (Some (lit "Product with ID " ++ number_toString id ++ lit " not found")) s
      else
        match mockProducts s !! Z.to_nat index with
        | None => (Error (JsError (lit "TypeError") []), s)
        | Some stored =>
            let updatedProduct := mergeProduct stored productData id (now s) in
            let s := delay API_DELAY s in
            let s :=
              set_mockProducts (<[Z.to_nat index := updatedProduct]> (mockProducts s)) s in
            let s := productsSubject_next (mockProducts s) s in
            let s := setLoading false s in
            (Next updatedProduct, s)
        end.

(** *** DELETE api/products/{id} *)

Definition deleteProduct (id : Z) (s : ServiceState)
  : Notification unit * ServiceState :=
  let s := setLoading true s in
  if invalid_id id then
    throwApiError 400 (lit "Bad Request") (Some (lit "Invalid product ID")) s
  else
    let index := findIndex (fun p => Product.id p =? id) (mockProducts s) in
    if index =? -1 then
      throwApiError 404 (lit "Not Found")
        (Some (lit "Product with ID " ++ number_toString id ++ lit " not found")) s
    else
      let s := delay API_DELAY s in
      let s := set_mockProducts (delete (Z.to_nat index) (mockProducts s)) s in
      let s := productsSubject_next (mockProducts s) s in
      let s := setLoading false s in
      (Next tt, s).

(** *** The five operations as requests *)

Inductive Request :=
| List (filters : option ProductFilter.t) (pagination : option PaginationParams.t)
| Get (id : Z)
| Create (productData : CreateProduct)
| Update (id : Z) (productData : UpdateProduct)
| Delete (id : Z).

Inductive Reply :=
| Page (r : PaginatedResponse.t)
| One (p : Product.t)
| Done.

Definition reply {A} (wrap : A -> Reply) (r : Notification A * ServiceState)
  : Notification Reply * ServiceState :=
  match r with
  | (Next a, s) => (Next (wrap a), s)
  | (Error f, s) => (Error f, s)
  end.

Definition run (toLowerCase : jsstring -> jsstring) (req : Request)
    (s : ServiceState) : Notification Reply * ServiceState :=
  match req with
  | List filters pagination => reply Page (getProducts toLowerCase filters pagination s)
  | Get id => reply One (getProductById id s)
  | Create productData => reply One (createProduct productData s)
  | Update id productData => reply One (updateProduct id productData s)
  | Delete id => reply (fun _ => Done) (deleteProduct id s)
  end.

(** ** The views (product-list.component.ts, product-form.component.ts) *)

(** A toast of [PoNotificationService]. *)
Inductive Toast :=
| ToastSuccess (text : jsstring)
| ToastWarning (text : jsstring)
| ToastError (text : jsstring).

(** A row of the table: [{...product, active: product.active.toString()}],
    the product with its [active] flag overwritten by its text. *)
Record ProductRow := mkRow {
  rowProduct : Product.t;
  rowActive : jsstring
}.

(** [b.toString()] *)
Definition boolean_toString (b : bool) : jsstring :=
  if b then lit "true" else lit "false".

Definition toRow (product : Product.t) : ProductRow :=
  {| rowProduct := product; rowActive := boolean_toString (Product.active product) |}.

(** The members of [ProductListComponent] that its methods write, and
    the toasts it has shown, oldest first. *)
Record ListComponent := mkList {
  products : list ProductRow;
  loading : bool;
  currentPage : Z;
  totalItems : Z;
  listToasts : list Toast
}.

Definition list_setLoading (b : bool) (c : ListComponent) : ListComponent :=
  {| products := products c; loading := b; currentPage := currentPage c;
     totalItems := totalItems c; listToasts := listToasts c |}.

Definition list_notify (t : Toast) (c : ListComponent) : ListComponent :=
  {| products := products c; loading := loading c; currentPage := currentPage c;
     totalItems := totalItems c; listToasts := listToasts c ++ [t] |}.

Definition list_setPage (rows : list ProductRow) (total : Z) (c : ListComponent)
  : ListComponent :=
  {| products := rows; loading := loading c; currentPage := currentPage c;
     totalItems := total; listToasts := listToasts c |}.

(** The error that the [timeout] operator of rxjs raises. *)
Definition TimeoutError : Failure :=
  JsError (lit "TimeoutError") (lit "Timeout has occurred").

(** [timeout(due)] over a source whose only notification arrives after
    [elapsed] milliseconds. *)
Definition timeout {A} (due elapsed : Z) (source : Notification A)
  : Notification A :=
  if due <? elapsed then Error TimeoutError else source.

(** The page that the [catchError] of [loadProducts] substitutes. *)
Definition emptyPage : PaginatedResponse.t :=
  {| PaginatedResponse.data := [];
     PaginatedResponse.currentPage := 1;
     PaginatedResponse.pageSize := 10;
     PaginatedResponse.totalItems := 0;
     PaginatedResponse.totalPages := 0;
     PaginatedResponse.hasNext := false;
     PaginatedResponse.hasPrevious := false |}.

(** The handler given to [catchError] in [loadProducts]. *)
Definition loadProducts_catchError (error : Failure) (c : ListComponent)
  : Notification PaginatedResponse.t * ListComponent :=
  let c := list_setLoading false c in
  let c :=
    if bool_decide (error_name error = Some (lit "TimeoutError"))
    then list_notify (ToastError (lit "Tempo limite excedido ao carregar produtos")) c
    else list_notify
           (ToastError (lit "Erro ao carregar produtos: " ++ error_message error)) c in
  (Next emptyPage, c).

(** [getProducts(...).pipe(timeout(5000), catchError(...))]: what reaches
    the subscriber of [loadProducts], [fetched] being what the service
    produced after [elapsed] milliseconds. *)
Definition loadProducts_pipe (elapsed : Z) (fetched : Notification PaginatedResponse.t)
    (c : ListComponent) : Notification PaginatedResponse.t * ListComponent :=
  match timeout 5000 elapsed fetched with
  | Next response => (Next response, c)
  | Error error => loadProducts_catchError error c
  end.

(** [loadProducts()], run until its subscription completes. *)
Definition loadProducts (elapsed : Z) (fetched : Notification PaginatedResponse.t)
    (c : ListComponent) : ListComponent :=
  let c := list_setLoading true c in
  match loadProducts_pipe elapsed fetched c with
  | (Next response, c) =>
      let c := list_setPage (map toRow (PaginatedResponse.data response))
                 (PaginatedResponse.totalItems response) c in
      let c := list_setLoading false c in
      list_setLoading false c
  | (Error error, c) =>
      let c := list_notify
                 (ToastError (lit "Erro ao carregar produtos: " ++ error_message error))
                 c in
      list_setLoading false c
  end.

(** [deleteProduct(productId)] of the list view: [deleted] is what the
    service produced, [reload] the [loadProducts()] of the success path. *)
Definition list_deleteProduct (deleted : Notification unit)
    (reload : ListComponent -> ListComponent) (c : ListComponent) : ListComponent :=
  let c := list_setLoading true c in
  match deleted with
  | Next _ =>
      let c := list_notify
                 (ToastSuccess (lit "Produto exclu" ++ [237%N] ++ lit "do com sucesso!"))
                 c in
      reload c
  | Error error =>
      let c := list_notify
                 (ToastError (lit "Erro ao excluir produto: " ++ error_message error))
                 c in
      list_setLoading false c
  end.

(** The members of [ProductFormComponent] that [createProduct] and
    [updateProduct] write: the loading flag, the toasts, and the ids of
    the products the router was sent to. *)
Record FormComponent := mkForm {
  formLoading : bool;
  formToasts : list Toast;
  navigated : list Z
}.

(** [createProduct()] of the form, from the answer of the service on. *)
Definition form_createProduct (created : Notification Product.t)
    (c : FormComponent) : FormComponent :=
  match created with
  | Next product =>
      {| formLoading := formLoading c;
         formToasts := formToasts c ++ [ToastSuccess (lit "Produto criado com sucesso!")];
         navigated := navigated c ++ [Product.id product] |}
  | Error error =>
      {| formLoading := false;
         formToasts := formToasts c
           ++ [ToastError (lit "Erro ao criar produto: " ++ error_message error)];
         navigated := navigated c |}
  end.

(** [updateProduct()] of the form, from the answer of the service on. *)
Definition form_updateProduct (updated : Notification Product.t)
    (c : FormComponent) : FormComponent :=
  match updated with
  | Next product =>
      {| formLoading := formLoading c;
         formToasts := formToasts c
           ++ [ToastSuccess (lit "Produto atualizado com sucesso!")];
         navigated := navigated c ++ [Product.id product] |}
  | Error error =>
      {| formLoading := false;
         formToasts := formToasts c
           ++ [ToastError (lit "Erro ao atualizar produto: " ++ error_message error)];
         navigated := navigated c |}
  end.

(** ** The filter form and the pager of the list view
       (product-list.component.ts) *)

(** [this.filterForm.value]: [None] is [null]. The status select holds
    the text of a boolean. *)
Module FilterForm.
Record t := mk {
  search : option jsstring;
  category : option jsstring;
  minPrice : option Q;
  maxPrice : option Q;
  active : option jsstring
}.
(** the value that [clearFilters] resets the form to *)
Definition cleared : t := mk (Some []) (Some []) None None (Some []).
End FilterForm.

(** [buildFilters()] *)
Definition buildFilters (formValue : FilterForm.t) : ProductFilter.t :=
  {| ProductFilter.search :=
       match FilterForm.search formValue with
       | Some s => if negb (strlen (trim s) =? 0) then Some (trim s) else None
       | None => None
       end;
     ProductFilter.category :=
       match FilterForm.category formValue with
       | Some c => if negb (strlen c =? 0) then Some c else None
       | None => None
       end;
     ProductFilter.minPrice :=
       match FilterForm.minPrice formValue with
       | Some m => if Qle_bool 0 m then Some m else None
       | None => None
       end;
     ProductFilter.maxPrice :=
       match FilterForm.maxPrice formValue with
       | Some m => if Qle_bool 0 m then Some m else None
       | None => None
       end;
     ProductFilter.active :=
       match FilterForm.active formValue with
       | Some a =>
           if negb (strlen a =? 0) then Some (jsstring_eqb a (lit "true")) else None
       | None => None
       end |}.

(** [readonly pageSize = 10] of the list view *)
Definition list_pageSize : Z := 10.

(** [this.currentPage = page] *)
Definition list_setCurrentPage (page : Z) (c : ListComponent) : ListComponent :=
  {| products := products c; loading := loading c; currentPage := page;
     totalItems := totalItems c; listToasts := listToasts c |}.

(** [loadProducts()] of a list view wired to the mock engine, as the
    development environment wires it ([useMockData: true]): the filters
    and the pagination it builds, the call of the engine, which answers
    after [API_DELAY], and the subscription. *)
Definition list_loadProducts (toLowerCase : jsstring -> jsstring)
    (formValue : FilterForm.t) (c : ListComponent) (s : ServiceState)
  : ListComponent * ServiceState :=
  let filters := buildFilters formValue in
  let pagination :=
    PaginationParams.mk (Some (currentPage c)) (Some list_pageSize) in
  let (fetched, s) := getProducts toLowerCase (Some filters) (Some pagination) s in
  (loadProducts API_DELAY fetched c, s).

(** [onPageChange(page)] of that view *)
Definition onPageChange (toLowerCase : jsstring -> jsstring)
    (formValue : FilterForm.t) (page : Z) (c : ListComponent) (s : ServiceState)
  : ListComponent * ServiceState :=
  list_loadProducts toLowerCase formValue (list_setCurrentPage page c) s.

(** [getTotalPages()]: [Math.ceil(this.totalItems / this.pageSize) || 1] *)
Definition getTotalPages (c : ListComponent) : Z :=
  let pages := ceil_div (totalItems c) list_pageSize in
  if pages =? 0 then 1 else pages.

(** The list view as constructed. *)
Definition newListComponent : ListComponent :=
  {| products := []; loading := false; currentPage := 1; totalItems := 0;
     listToasts := [] |}.

(** A form with a padded search text, no category, a lower price bound
    and the status [Ativos]. *)
Definition sampleForm : FilterForm.t :=
  FilterForm.mk (Some (lit "  Dell ")) (Some []) (Some 100%Q) None
    (Some (lit "true")).

(** ** The HTTP client, as the services and the interceptor see it *)

(** A source literal that holds letters outside ASCII, decoded from the
    UTF-8 of this file into UTF-16 code units. The literals of the
    sources stay within the Basic Multilingual Plane. *)
Fixpoint utf8_decode (bytes : list N) : jsstring :=
  match bytes with
  | [] => []
  | b :: rest =>
      if (b <? 192)%N then b :: utf8_decode rest
      else
        match rest with
        | [] => [b]
        | c :: rest1 =>
            if (b <? 224)%N
            then ((b - 192) * 64 + (c - 128))%N :: utf8_decode rest1
            else
              match rest1 with
              | [] => [b; c]
              | d :: rest2 =>
                  (((b - 224) * 64 + (c - 128)) * 64 + (d - 128))%N
                    :: utf8_decode rest2
              end
        end
  end.

Definition text (s : string) : jsstring := utf8_decode (lit s).
Arguments text : simpl never.

(** [error.error] of an [HttpErrorResponse]: an [ErrorEvent] when the
    request failed on the client or in the network, otherwise the body
    that the server sent. The handlers read the [message] property of the
    body only: it is [None] when the body is absent, is no object, or has
    no such property. *)
Inductive HttpErrorBody :=
| ErrorEvent (message : jsstring)
| ServerBody (message : option jsstring).

Module HttpErrorResponse.
Record t := mk {
  status : Z;
  statusText : jsstring;
  message : jsstring;
  error : HttpErrorBody
}.
End HttpErrorResponse.

(** What the error channel of a pipe over an HTTP call carries: the
    [HttpErrorResponse] of the client, or a JavaScript error raised by an
    operator, which has a [name] and a [message] and neither [status] nor
    [error]. *)
Inductive HttpFault :=
| HttpFailure (e : HttpErrorResponse.t)
| Thrown (name message : jsstring).

Inductive Outcome (A : Type) :=
| Emitted (a : A)
| Raised (f : HttpFault).
Arguments Emitted {A} a.
Arguments Raised {A} f.

(** One subscription to an observable that emits once or fails: how it
    ends, and how many milliseconds after the subscription. *)
Record Signal (A : Type) := mkSignal {
  at_ms : Z;
  what : Outcome A
}.
Arguments mkSignal {A} at_ms what.
Arguments at_ms {A} _.
Arguments what {A} _.

(** One request as [HttpClient] answers it: with a response body or an
    [HttpErrorResponse], after [elapsed] milliseconds. *)
Record Exchange (A : Type) := mkExchange {
  elapsed_ms : Z;
  answer : A + HttpErrorResponse.t
}.
Arguments mkExchange {A} elapsed_ms answer.
Arguments elapsed_ms {A} _.
Arguments answer {A} _.

(** The observable that [this.http.get], [post], [put] or [delete]
    returns, subscribed to once. *)
Definition request {A} (x : Exchange A) : Signal A :=
  mkSignal (elapsed_ms x)
    match answer x with
    | inl body => Emitted body
    | inr error => Raised (HttpFailure error)
    end.

Module Rx.

Definition TimeoutError : HttpFault :=
  Thrown (lit "TimeoutError") (lit "Timeout has occurred").

(** [source.pipe(timeout(due))] *)
Definition timeout {A} (due : Z) (source : Signal A) : Signal A :=
  if due <? at_ms source then mkSignal due (Raised TimeoutError) else source.

(** [source.pipe(retry(count))], [source k] being the subscription
    number [k] to the source: the outcome, the time it took from the
    first subscription on, and the number of subscriptions made when it
    ends. A failed subscription is followed by the next one at once. *)
Fixpoint retry {A} (count : nat) (source : nat -> Signal A) (k : nat)
  : Signal A * nat :=
  match what (source k), count with
  | Raised _, S count' =>
      let (rest, n) := retry count' source (S k) in
      (mkSignal (at_ms (source k) + at_ms rest) (what rest), n)
  | _, _ => (source k, S k)
  end.

End Rx.

(** environment.ts and environment.prod.ts agree on [apiTimeout]. *)
Module environment.
Definition apiTimeout : Z := 30000.
End environment.

(** [HttpParams]: the query parameters by name. *)
Abbreviation HttpParams := (gmap.gmap string jsstring) (only parsing).

(** [params.set(name, value)] under a guard: [value] is [None] where the
    guard of the source does not hold, and the parameters stay as they
    are. *)
Definition set_param (name : string) (value : option jsstring)
    (params : HttpParams) : HttpParams :=
  match value with
  | Some v => <[name := v]> params
  | None => params
  end.

(** A string that may be absent, where it is truthy: [undefined] and the
    empty string are not. *)
Definition truthy (x : option jsstring) : option jsstring :=
  match x with
  | Some v => if negb (strlen v =? 0) then Some v else None
  | None => None
  end.

(** [x || d] on a string that may be absent: [undefined] and the empty
    string are falsy. *)
Definition or_text (x : option jsstring) (d : jsstring) : jsstring :=
  match x with
  | Some v => if strlen v =? 0 then d else v
  | None => d
  end.

(** *** ProductApiService (product-api.service.ts) *)

Module ProductApiService.

(** [PaginationParams] of this service: both fields are required. *)
Module PaginationParams.
Record t := mk {
  page : Z;
  pageSize : Z
}.
End PaginationParams.

Record t := mk {
  productsSubject : list Product.t
}.

(** the service as constructed *)
Definition create : t := mk [].

Section Params.

(** [Number.prototype.toString] on a price *)
Variable price_toString : Q -> jsstring.

(** The query parameters that [getProducts] sends. *)
Definition getProducts_params (filters : option ProductFilter.t)
    (pagination : option PaginationParams.t) : HttpParams :=
  let params : HttpParams := ∅ in
  let params :=
    match pagination with
    | Some pagination =>
        let params :=
          set_param "page"
            (Some (number_toString (PaginationParams.page pagination))) params in
        set_param "pageSize"
          (Some (number_toString (PaginationParams.pageSize pagination))) params
    | None => params
    end in
  match filters with
  | Some filters =>
      let params :=
        set_param "search"
          (truthy (option_map trim (ProductFilter.search filters))) params in
      let params :=
        set_param "category" (truthy (ProductFilter.category filters)) params in
      let params :=
        set_param "minPrice"
          (option_map price_toString (ProductFilter.minPrice filters)) params in
      let params :=
        set_param "maxPrice"
          (option_map price_toString (ProductFilter.maxPrice filters)) params in
      let params :=
        set_param "active"
          (option_map boolean_toString (ProductFilter.active filters)) params in
      params
  | None => params
  end.

End Params.

(** [handleError(error)]: the error that it throws. *)
Definition handleError (error : HttpFault) : Failure :=
  let errorMessage :=
    match error with
    | HttpFailure e =>
        match HttpErrorResponse.error e with
        | ErrorEvent m => text "Erro de rede: " ++ m
        | ServerBody m =>
            let status := HttpErrorResponse.status e in
            if status =? 0 then
              text "Não foi possível conectar ao servidor. Verifique sua conexão."
            else if status =? 400 then
              or_text m (text "Dados inválidos. Verifique as informações.")
            else if status =? 401 then
              text "Não autorizado. Faça login novamente."
            else if status =? 403 then
              text "Você não tem permissão para realizar esta ação."
            else if status =? 404 then
              text "Recurso não encontrado."
            else if status =? 409 then
              text "Conflito. O recurso já existe."
            else if status =? 422 then
              or_text m (text "Dados inválidos para processamento.")
            else if status =? 500 then
              text "Erro interno do servidor. Tente novamente mais tarde."
            else if status =? 503 then
              text "Serviço temporariamente indisponível. Tente novamente."
            else
              text "Erro " ++ number_toString status ++ text ": "
                ++ HttpErrorResponse.message e
        end
    | Thrown _ m => text "Erro undefined: " ++ m
    end in
  JsError (lit "Error") errorMessage.

(** [this.http.get(...).pipe(timeout(environment.apiTimeout), retry(count))],
    [answers k] being what the client answers the subscription number
    [k] with. The mutations have no [retry], which is [retry(0)]. *)
Definition http {A} (count : nat) (answers : nat -> Exchange A) : Signal A * nat :=
  Rx.retry count (fun k => Rx.timeout environment.apiTimeout (request (answers k))) 0.

(** [getProducts(filters, pagination)], from the request on *)
Definition getProducts (answers : nat -> Exchange PaginatedResponse.t) (s : t)
  : Notification PaginatedResponse.t * t :=
  match what (fst (http 2 answers)) with
  | Emitted response => (Next response, mk (PaginatedResponse.data response))
  | Raised error => (Error (handleError error), s)
  end.

(** [getProductById(id)] *)
Definition getProductById (answers : nat -> Exchange Product.t) (s : t)
  : Notification Product.t * t :=
  match what (fst (http 1 answers)) with
  | Emitted product => (Next product, s)
  | Raised error => (Error (handleError error), s)
  end.

(** [createProduct(product)] *)
Definition createProduct (answers : nat -> Exchange Product.t) (s : t)
  : Notification Product.t * t :=
  match what (fst (http 0 answers)) with
  | Emitted newProduct =>
      let currentProducts := productsSubject s in
      (Next newProduct, mk (currentProducts ++ [newProduct]))
  | Raised error => (Error (handleError error), s)
  end.

(** [updateProduct(id, product)]. The assignment
    [currentProducts[index] = updatedProduct] writes into the array that
    the subject holds before a copy of it is published; the subject is
    modelled by its value, which is the same in both. *)
Definition updateProduct (id : Z) (answers : nat -> Exchange Product.t) (s : t)
  : Notification Product.t * t :=
  match what (fst (http 0 answers)) with
  | Emitted updatedProduct =>
      let currentProducts := productsSubject s in
      let index := findIndex (fun p => Product.id p =? id) currentProducts in
      if negb (index =? -1)
      then (Next updatedProduct,
            mk (<[Z.to_nat index := updatedProduct]> currentProducts))
      else (Next updatedProduct, s)
  | Raised error => (Error (handleError error), s)
  end.

(** [deleteProduct(id)] *)
Definition deleteProduct (id : Z) (answers : nat -> Exchange unit) (s : t)
  : Notification unit * t :=
  match what (fst (http 0 answers)) with
  | Emitted _ =>
      let currentProducts := productsSubject s in
      (Next tt, mk (List.filter (fun p => negb (Product.id p =? id)) currentProducts))
  | Raised error => (Error (handleError error), s)
  end.

(** [clearCache()] *)
Definition clearCache (s : t) : t := mk [].

End ProductApiService.

(** *** ProductService (product.service.ts) *)

(** [ApiResponse<T>] *)
Module ApiResponse.
Record t (A : Type) := mk {
  data : A;
  message : jsstring;
  success : bool;
  timestamp : Z
}.
Arguments mk {A} data message success timestamp.
Arguments data {A} _.
End ApiResponse.

Module ProductService.

Record t := mk {
  productsSubject : list Product.t;
  loadingSubject : bool
}.

Definition create : t := mk [] false.

Definition setLoading (loading : bool) (s : t) : t :=
  mk (productsSubject s) loading.

Definition productsSubject_next (products : list Product.t) (s : t) : t :=
  mk products (loadingSubject s).

Section Params.

Variable price_toString : Q -> jsstring.

(** A number that may be absent, where it is truthy: [undefined] and 0
    are not. *)
Definition truthy_number {N : Type} (isZero : N -> bool) (x : option N) : option N :=
  match x with
  | Some v => if negb (isZero v) then Some v else None
  | None => None
  end.

(** The query parameters that [getProducts] sends. *)
Definition getProducts_params (filters : option ProductFilter.t)
    (pagination : option PaginationParams.t) : HttpParams :=
  let params : HttpParams := ∅ in
  let params :=
    set_param "category" (truthy (filters ≫= ProductFilter.category)) params in
  let params :=
    set_param "minPrice"
      (option_map price_toString
         (truthy_number (fun m => Qeq_bool m 0) (filters ≫= ProductFilter.minPrice)))
      params in
  let params :=
    set_param "maxPrice"
      (option_map price_toString
         (truthy_number (fun m => Qeq_bool m 0) (filters ≫= ProductFilter.maxPrice)))
      params in
  let params :=
    set_param "active"
      (option_map boolean_toString (filters ≫= ProductFilter.active)) params in
  let params :=
    set_param "search" (truthy (filters ≫= ProductFilter.search)) params in
  let params :=
    set_param "page"
      (option_map number_toString
         (truthy_number (fun n => n =? 0) (pagination ≫= PaginationParams.page)))
      params in
  let params :=
    set_param "pageSize"
      (option_map number_toString
         (truthy_number (fun n => n =? 0) (pagination ≫= PaginationParams.pageSize)))
      params in
  params.

End Params.

(** [handleError(error)]: it lowers the loading flag and throws. *)
Definition handleError (error : HttpFault) (s : t) : Failure * t :=
  let s := setLoading false s in
  let errorMessage :=
    match error with
    | HttpFailure e =>
        match HttpErrorResponse.error e with
        | ErrorEvent m => text "Erro: " ++ m
        | ServerBody _ =>
            let status := HttpErrorResponse.status e in
            if status =? 400 then text "Dados inválidos fornecidos"
            else if status =? 404 then text "Produto não encontrado"
            else if status =? 500 then text "Erro interno do servidor"
            else text "Código do erro: " ++ number_toString status
        end
    | Thrown _ _ => text "Código do erro: undefined"
    end in
  (JsError (lit "Error") errorMessage, s).

(** [catchError(this.handleError)] *)
Definition catchError {A} (error : HttpFault) (s : t) : Notification A * t :=
  let (thrown, s) := handleError error s in (Error thrown, s).

(** [getProducts(filters, pagination)], from the request on: [answer] is
    what the client answers with. *)
Definition getProducts (answer : PaginatedResponse.t + HttpErrorResponse.t) (s : t)
  : Notification PaginatedResponse.t * t :=
  let s := setLoading true s in
  match answer with
  | inl response =>
      let s := productsSubject_next (PaginatedResponse.data response) s in
      let s := setLoading false s in
      (Next response, s)
  | inr error => catchError (HttpFailure error) s
  end.

(** [getProductById(id)] *)
Definition getProductById (answer : ApiResponse.t Product.t + HttpErrorResponse.t) (s : t)
  : Notification Product.t * t :=
  let s := setLoading true s in
  match answer with
  | inl response =>
      let s := setLoading false s in
      (Next (ApiResponse.data response), s)
  | inr error => catchError (HttpFailure error) s
  end.

(** [createProduct(product)] *)
Definition createProduct (answer : ApiResponse.t Product.t + HttpErrorResponse.t) (s : t)
  : Notification Product.t * t :=
  let s := setLoading true s in
  match answer with
  | inl response =>
      let newProduct := ApiResponse.data response in
      let currentProducts := productsSubject s in
      let s := productsSubject_next (currentProducts ++ [newProduct]) s in
      let s := setLoading false s in
      (Next newProduct, s)
  | inr error => catchError (HttpFailure error) s
  end.

(** [updateProduct(id, product)] *)
Definition updateProduct (id : Z) (answer : ApiResponse.t Product.t + HttpErrorResponse.t)
    (s : t) : Notification Product.t * t :=
  let s := setLoading true s in
  match answer with
  | inl response =>
      let updatedProduct := ApiResponse.data response in
      let currentProducts := productsSubject s in
      let index := findIndex (fun p => Product.id p =? id) currentProducts in
      let s :=
        if negb (index =? -1)
        then productsSubject_next
               (<[Z.to_nat index := updatedProduct]> currentProducts) s
        else s in
      let s := setLoading false s in
      (Next updatedProduct, s)
  | inr error => catchError (HttpFailure error) s
  end.

(** [deleteProduct(id)] *)
Definition deleteProduct (id : Z) (answer : unit + HttpErrorResponse.t) (s : t)
  : Notification unit * t :=
  let s := setLoading true s in
  match answer with
  | inl _ =>
      let currentProducts := productsSubject s in
      let filteredProducts :=
        List.filter (fun p => negb (Product.id p =? id)) currentProducts in
      let s := productsSubject_next filteredProducts s in
      let s := setLoading false s in
      (Next tt, s)
  | inr error => catchError (HttpFailure error) s
  end.

(** [loadProducts()] *)
Definition loadProducts (answer : PaginatedResponse.t + HttpErrorResponse.t) (s : t) : t :=
  match getProducts answer s with
  | (Next _, s) => s
  | (Error _, s) => productsSubject_next [] s
  end.

End ProductService.

(** ** The loading counter and the interceptor (http-request.interceptor.ts) *)

Module LoadingService.

Record t := mk {
  requestCount : Z;
  isLoadingSubject : bool
}.

Definition create : t := mk 0 false.

Definition updateLoadingState (l : t) : t :=
  mk (requestCount l) (0 <? requestCount l).

Definition startLoading (l : t) : t :=
  updateLoadingState (mk (requestCount l + 1) (isLoadingSubject l)).

Definition stopLoading (l : t) : t :=
  updateLoadingState (mk (Z.max 0 (requestCount l - 1)) (isLoadingSubject l)).

Definition reset (l : t) : t := mk 0 false.

(** The calls that the service takes. *)
Inductive Call := Start | Stop | Reset.

Definition call (l : t) (c : Call) : t :=
  match c with
  | Start => startLoading l
  | Stop => stopLoading l
  | Reset => reset l
  end.

End LoadingService.

Module HttpRequestInterceptor.

(** The function given to [mergeMap] inside [retryWhen]: for the error
    number [index] of the source, the delay after which the source is
    subscribed to again, or [None] where the error is thrown on. *)
Definition retryDelay (error : HttpErrorResponse.t) (index : Z) : option Z :=
  if (400 <=? HttpErrorResponse.status error)
     && (HttpErrorResponse.status error <? 500)
     || (2 <=? index)
  then None
  else Some (2 ^ index * 1000).

(** [next.handle(modifiedReq).pipe(retryWhen(...))], [handle k] being
    what the subscription number [k] to the handler ends with: the
    outcome, the number of subscriptions made and the delays waited
    between them. Every failed subscription sends one error to the
    notifier, so the error of subscription [k] has the index [k]. *)
Fixpoint retryWhen {A} (fuel : nat) (handle : nat -> A + HttpErrorResponse.t)
    (index : nat) (waits : list Z)
  : option ((A + HttpErrorResponse.t) * nat * list Z) :=
  match fuel with
  | O => None
  | S fuel' =>
      match handle index with
      | inl event => Some (inl event, S index, waits)
      | inr error =>
          match retryDelay error (Z.of_nat index) with
          | None => Some (inr error, S index, waits)
          | Some delayTime =>
              retryWhen fuel' handle (S index) (waits ++ [delayTime])
          end
      end
  end.

(** [friendlyMessage] of the error that [catchError] throws *)
Definition friendlyMessage (error : HttpErrorResponse.t) : jsstring :=
  match HttpErrorResponse.error error with
  | ErrorEvent _ => text "Erro de conexão. Verifique sua internet."
  | ServerBody m =>
      let status := HttpErrorResponse.status error in
      if status =? 0 then
        text "Servidor indisponível. Verifique sua conexão com a internet."
      else if status =? 400 then
        or_text m (text "Dados inválidos enviados ao servidor.")
      else if status =? 401 then
        text "Acesso não autorizado. Faça login novamente."
      else if status =? 403 then
        text "Acesso proibido. Você não tem permissão para esta operação."
      else if status =? 404 then
        text "Recurso não encontrado."
      else if status =? 409 then
        or_text m (text "Conflito. O recurso já existe.")
      else if status =? 422 then
        or_text m (text "Dados não processáveis. Verifique as informações enviadas.")
      else if status =? 429 then
        text "Muitas requisições. Aguarde um momento e tente novamente."
      else if status =? 500 then
        text "Erro interno do servidor. Tente novamente mais tarde."
      else if status =? 502 then
        text "Servidor temporariamente indisponível (Bad Gateway)."
      else if status =? 503 then
        text "Serviço temporariamente indisponível. Tente novamente em alguns minutos."
      else if status =? 504 then
        text "Tempo limite excedido. O servidor demorou muito para responder."
      else
        text "Erro " ++ number_toString status ++ text ": "
          ++ or_text (Some (HttpErrorResponse.statusText error))
               (text "Erro desconhecido")
  end.

(** The error that [catchError] throws: the properties of the original
    error and [friendlyMessage]. Its [technicalMessage], [errorDetails]
    and [timestamp], which serialise the body and read the clock, are
    left out. *)
Record EnrichedError := mkEnriched {
  original : HttpErrorResponse.t;
  friendly : jsstring
}.

Record Intercepted (A : Type) := mkIntercepted {
  event : A + EnrichedError;
  attempts : nat;
  waits : list Z;
  loadingService : LoadingService.t
}.
Arguments mkIntercepted {A} event attempts waits loadingService.
Arguments event {A} _.
Arguments attempts {A} _.
Arguments waits {A} _.
Arguments loadingService {A} _.

(** [intercept(req, next)], run until the subscription ends: the loading
    counter is raised, the handler is subscribed to under [retryWhen],
    a failure is enriched, and [finalize] lowers the counter. The
    headers that it sets on the request do not enter. *)
Definition intercept {A} (fuel : nat) (handle : nat -> A + HttpErrorResponse.t)
    (l : LoadingService.t) : option (Intercepted A) :=
  let l := LoadingService.startLoading l in
  match retryWhen fuel handle 0 [] with
  | Some (outcome, n, delays) =>
      let event :=
        match outcome with
        | inl e => inl e
        | inr error => inr (mkEnriched error (friendlyMessage error))
        end in
      Some (mkIntercepted event n delays (LoadingService.stopLoading l))
  | None => None
  end.

End HttpRequestInterceptor.

(** ** The product form (product-form.component.ts) *)

(** [this.productForm.value]: [None] is [null]. The price control holds
    a number once a price has been entered, and the empty string or
    [null] before, which is [None]. *)
Module ProductForm.
Record t := mk {
  name : option jsstring;
  description : option jsstring;
  price : option Q;
  category : option jsstring;
  imageUrl : option jsstring;
  active : bool
}.
End ProductForm.

(** The validators of Angular that the form uses; [true] is valid. All
    but [required] accept an empty value. *)
Module Validators.

(** An empty input value: [null], [undefined] or the empty string. *)
Definition isEmptyInputValue (value : option jsstring) : bool :=
  match value with
  | Some v => strlen v =? 0
  | None => true
  end.

Definition required (value : option jsstring) : bool :=
  negb (isEmptyInputValue value).

Definition minLength (n : Z) (value : option jsstring) : bool :=
  match value with
  | Some v => (strlen v =? 0) || (n <=? strlen v)
  | None => true
  end.

Definition maxLength (n : Z) (value : option jsstring) : bool :=
  match value with
  | Some v => strlen v <=? n
  | None => true
  end.

Definition pattern (test : jsstring -> bool) (value : option jsstring) : bool :=
  match value with
  | Some v => (strlen v =? 0) || test v
  | None => true
  end.

(** [required], [min] and [max] on the price control *)
Definition requiredNumber (value : option Q) : bool :=
  match value with
  | Some _ => true
  | None => false
  end.

Definition min (m : Q) (value : option Q) : bool :=
  match value with
  | Some v => Qle_bool m v
  | None => true
  end.

Definition max (m : Q) (value : option Q) : bool :=
  match value with
  | Some v => Qle_bool v m
  | None => true
  end.

End Validators.

(** Case folding of a regular expression with the flag [i] and without
    the flag [u], on what it changes for a pattern of ASCII characters:
    the upper-case ASCII letters. *)
Definition asciiLower (c : N) : N :=
  if ((65 <=? c) && (c <=? 90))%N then (c + 32)%N else c.

(** The code units that [.] does not match. *)
Definition isLineTerminator (c : N) : bool :=
  ((c =? 10) || (c =? 13) || (c =? 8232) || (c =? 8233))%N.

(** [s.endsWith(suffix)] *)
Definition endsWith (s suffix : jsstring) : bool :=
  startsWith (rev s) (rev suffix).

(** [/^https?:\/\/.*\.(jpg|jpeg|png|gif|webp)$/i.test(s)] *)
Definition imageUrlPattern (s : jsstring) : bool :=
  let folded := map asciiLower s in
  let rest :=
    if startsWith folded (lit "http://") then Some (drop 7 folded)
    else if startsWith folded (lit "https://") then Some (drop 8 folded)
    else None in
  match rest with
  | Some r =>
      forallb (fun c => negb (isLineTerminator c)) r
      && existsb (fun extension => endsWith r (lit "." ++ extension))
           [lit "jpg"; lit "jpeg"; lit "png"; lit "gif"; lit "webp"]
  | None => false
  end.

(** [this.productForm.valid], by the validators of [initializeForm] *)
Definition productForm_valid (formValue : ProductForm.t) : bool :=
  Validators.required (ProductForm.name formValue)
  && Validators.minLength 2 (ProductForm.name formValue)
  && Validators.maxLength 100 (ProductForm.name formValue)
  && Validators.maxLength 500 (ProductForm.description formValue)
  && Validators.requiredNumber (ProductForm.price formValue)
  && Validators.min 0.01 (ProductForm.price formValue)
  && Validators.max 999999.99 (ProductForm.price formValue)
  && Validators.required (ProductForm.category formValue)
  && Validators.pattern imageUrlPattern (ProductForm.imageUrl formValue).

(** [buildProductData()]. It is called on a valid form only, whose name
    is a string; [+formValue.price] is 0 on an empty price. A
    description or image URL that is blank is [undefined] in the payload,
    which a creation reads like an absent one. *)
Definition buildProductData (formValue : ProductForm.t) : ProductData.t :=
  {| ProductData.name := option_map trim (ProductForm.name formValue);
     ProductData.description :=
       truthy (option_map trim (ProductForm.description formValue));
     ProductData.price := Some (default 0%Q (ProductForm.price formValue));
     ProductData.category := ProductForm.category formValue;
     ProductData.imageUrl :=
       truthy (option_map trim (ProductForm.imageUrl formValue));
     ProductData.active := Some (ProductForm.active formValue) |}.

(** [saveProduct()] of a form in creation mode, wired to the mock engine
    and run until the subscription ends. That an invalid form has its
    controls marked as touched is not part of the state modelled. *)
Definition saveProduct (formValue : ProductForm.t) (c : FormComponent)
    (s : ServiceState) : FormComponent * ServiceState :=
  if negb (productForm_valid formValue) then
    ({| formLoading := formLoading c;
        formToasts := formToasts c
          ++ [ToastWarning (text "Por favor, corrija os erros no formulário.")];
        navigated := navigated c |}, s)
  else
    let c := {| formLoading := true; formToasts := formToasts c;
                navigated := navigated c |} in
    let (created, s) := createProduct (buildProductData formValue) s in
    (form_createProduct created c, s).

(** The form as constructed, before anything is entered. *)
Definition newFormComponent : FormComponent :=
  {| formLoading := false; formToasts := []; navigated := [] |}.

(** A form that holds a name of two letters. *)
Definition twoLetterName : ProductForm.t :=
  ProductForm.mk (Some (lit "ab")) (Some []) (Some 10%Q) (Some (lit "LIVROS"))
    (Some []) true.

(** * Vocabulary of the properties *)

(** ** Requests *)

(** The pagination request [{page, pageSize}]. *)
Definition paging (page pageSize : Z) : option PaginationParams.t :=
  Some (PaginationParams.mk (Some page) (Some pageSize)).

(** ** The filter as one predicate *)

(** The conjunction of the predicates of a filter, as the data model
    words it: category equality, inclusive price bounds, active equality
    and case-insensitive search over name and description; an absent (or
    empty-string) field imposes no constraint. *)
Definition matchesFilter (toLowerCase : jsstring -> jsstring)
    (filters : option ProductFilter.t) (p : Product.t) : bool :=
  match filters ≫= ProductFilter.category with
  | Some c => (strlen c =? 0) || jsstring_eqb (Product.category p) c
  | None => true
  end
  && match filters ≫= ProductFilter.minPrice with
     | Some m => Qle_bool m (Product.price p)
     | None => true
     end
  && match filters ≫= ProductFilter.maxPrice with
     | Some m => Qle_bool (Product.price p) m
     | None => true
     end
  && match filters ≫= ProductFilter.active with
     | Some a => Bool.eqb (Product.active p) a
     | None => true
     end
  && match filters ≫= ProductFilter.search with
     | Some q =>
         (strlen q =? 0)
         || includes (toLowerCase (Product.name p)) (toLowerCase q)
         || match Product.description p with
            | Some d => negb (strlen d =? 0)
                        && includes (toLowerCase d) (toLowerCase q)
            | None => false
            end
     | None => true
     end.

(** The filters [{active: true}] and
    [{category: 'ELETRONICOS', active: true}]. *)
Definition activeOnly : option ProductFilter.t :=
  Some (ProductFilter.mk None None None (Some true) None).

Definition activeElectronics : option ProductFilter.t :=
  Some (ProductFilter.mk (Some (lit "ELETRONICOS")) None None (Some true) None).

(** ** Field rules *)

(** The four field rules of the payload. *)
Inductive FieldRule := NameRule | PriceRule | CategoryRule | DescriptionRule.

Definition allRules : list FieldRule :=
  [NameRule; PriceRule; CategoryRule; DescriptionRule].

(** Whether a payload violates a field rule, stated on the field alone.
    On creation ([isUpdate = false]) name, price and category are
    required; on update an absent field is not checked. *)
Definition violates (isUpdate : bool) (rule : FieldRule) (data : ProductData.t)
  : bool :=
  match rule with
  | NameRule =>
      match ProductData.name data with
      | None => negb isUpdate
      | Some n => (strlen (trim n) =? 0) || (strlen n <? 3) || (200 <? strlen n)
      end
  | PriceRule =>
      match ProductData.price data with
      | None => negb isUpdate
      | Some p => Qltb p 0 || Qltb 999999.99 p
      end
  | CategoryRule =>
      match ProductData.category data with
      | None => negb isUpdate
      | Some c => negb (array_includes validCategories c)
      end
  | DescriptionRule =>
      match ProductData.description data with
      | None => false
      | Some d => 1000 <? strlen d
      end
  end.

(** The messages by which a violation of each rule is reported. *)
Definition ruleMessages (rule : FieldRule) : list jsstring :=
  match rule with
  | NameRule =>
      [lit "Name is required"; lit "Name must be at least 3 characters";
       lit "Name must not exceed 200 characters"]
  | PriceRule =>
      [lit "Price is required"; lit "Price must be greater than or equal to 0";
       lit "Price must not exceed 999999.99"]
  | CategoryRule =>
      [lit "Category is required";
       lit "Category must be one of: ELETRONICOS, ROUPAS, LIVROS, CASA, ESPORTES, OUTROS"]
  | DescriptionRule =>
      [lit "Description must not exceed 1000 characters"]
  end.

(** The messages that the block of [validateProductData] for one field
    pushes: none or one. *)
Definition fieldErrors (isUpdate : bool) (rule : FieldRule) (data : ProductData.t)
  : list jsstring :=
  match rule with
  | NameRule =>
      match ProductData.name data with
      | None => if isUpdate then [] else [lit "Name is required"]
      | Some n =>
          if (strlen n =? 0) || (strlen (trim n) =? 0) then [lit "Name is required"]
          else if strlen n <? 3 then [lit "Name must be at least 3 characters"]
          else if 200 <? strlen n then [lit "Name must not exceed 200 characters"]
          else []
      end
  | PriceRule =>
      match ProductData.price data with
      | None => if isUpdate then [] else [lit "Price is required"]
      | Some p =>
          if Qltb p 0 then [lit "Price must be greater than or equal to 0"]
          else if Qltb 999999.99 p then [lit "Price must not exceed 999999.99"]
          else []
      end
  | CategoryRule =>
      match ProductData.category data with
      | None => if isUpdate then [] else [lit "Category is required"]
      | Some c =>
          if strlen c =? 0 then [lit "Category is required"]
          else if negb (array_includes validCategories c)
          then [lit "Category must be one of: " ++ join (lit ", ") validCategories]
          else []
      end
  | DescriptionRule =>
      match ProductData.description data with
      | None => []
      | Some d =>
          if negb (strlen d =? 0) && (1000 <? strlen d)
          then [lit "Description must not exceed 1000 characters"]
          else []
      end
  end.

(** The payload [{name: 'ab', price: -1, category: 'INVALID'}]. *)
Definition invalidExample : CreateProduct :=
  {| ProductData.name := Some (lit "ab");
     ProductData.description := None;
     ProductData.price := Some (-1)%Q;
     ProductData.category := Some (lit "INVALID");
     ProductData.imageUrl := None;
     ProductData.active := None |}.

(** The payload [{name: 'Cabo USB-C', price: 29.9, category: 'ELETRONICOS'}]. *)
Definition validExample : CreateProduct :=
  {| ProductData.name := Some (lit "Cabo USB-C");
     ProductData.description := None;
     ProductData.price := Some 29.9%Q;
     ProductData.category := Some (lit "ELETRONICOS");
     ProductData.imageUrl := None;
     ProductData.active := None |}.

(** The payloads [{name: ' ab ', price: 10, category: 'OUTROS'}] and
    [{name: 'a' * 199 + '   ', price: 10, category: 'OUTROS'}]. *)
Definition paddedShortName : CreateProduct :=
  {| ProductData.name := Some (lit " ab ");
     ProductData.description := None;
     ProductData.price := Some 10%Q;
     ProductData.category := Some (lit "OUTROS");
     ProductData.imageUrl := None;
     ProductData.active := None |}.

Definition paddedLongName : CreateProduct :=
  {| ProductData.name := Some (repeat 97%N 199 ++ lit "   ");
     ProductData.description := None;
     ProductData.price := Some 10%Q;
     ProductData.category := Some (lit "OUTROS");
     ProductData.imageUrl := None;
     ProductData.active := None |}.

(** The name of a payload is rejected when it is absent, when nothing is
    left of it after trimming, or when its own length, untrimmed, is
    below 3 or above 200. *)
Definition nameRejected (data : ProductData.t) : Prop :=
  match ProductData.name data with
  | None => True
  | Some n => strlen (trim n) = 0 \/ strlen n < 3 \/ 200 < strlen n
  end.

(** The patch [{name: 'ab'}]. *)
Definition shortNamePatch : UpdateProduct :=
  {| ProductData.name := Some (lit "ab");
     ProductData.description := None;
     ProductData.price := None;
     ProductData.category := None;
     ProductData.imageUrl := None;
     ProductData.active := None |}.

(** ** The invariant of the dataset *)

(** What holds of every stored product: its id was handed out by the
    counter, it was last written before the present, not before its
    creation, and its category is one of the enumeration. *)
Definition wfProduct (s : ServiceState) (p : Product.t) : Prop :=
  1 <= Product.id p < nextId s
  /\ Product.createdAt p <= Product.updatedAt p
  /\ Product.updatedAt p < now s
  /\ array_includes validCategories (Product.category p) = true.

Definition Inv (s : ServiceState) : Prop :=
  1 <= nextId s
  /\ Forall (wfProduct s) (mockProducts s)
  /\ List.NoDup (map Product.id (mockProducts s)).

(** State transformers that touch neither the dataset nor the counter
    and do not turn the clock back. *)
Definition extends (s s' : ServiceState) : Prop :=
  mockProducts s' = mockProducts s /\ nextId s <= nextId s' /\ now s <= now s'.

(** Equality of the dataset, of the product list held by the bus and of
    the id counter. *)
Definition sameData (s s' : ServiceState) : Prop :=
  mockProducts s' = mockProducts s
  /\ productsSubject s' = productsSubject s
  /\ nextId s' = nextId s.

(** A list view with nothing loaded yet. *)
Definition freshList : ListComponent :=
  {| products := []; loading := false; currentPage := 1; totalItems := 0;
     listToasts := [] |}.

(** ** Sequences of requests *)

(** The replies of requests served one after the other. *)
Fixpoint runAll (toLowerCase : jsstring -> jsstring) (reqs : list Request)
    (s : ServiceState) : list (Notification Reply) * ServiceState :=
  match reqs with
  | [] => ([], s)
  | req :: rest =>
      let (r, s1) := run toLowerCase req s in
      let (rs, s2) := runAll toLowerCase rest s1 in
      (r :: rs, s2)
  end.

(** The ids of the products that the [Create] requests of a sequence
    were answered with, in order. *)
Fixpoint createdIds (reqs : list Request) (replies : list (Notification Reply))
  : list Z :=
  match reqs, replies with
  | Create _ :: reqs', Next (One p) :: replies' =>
      Product.id p :: createdIds reqs' replies'
  | _ :: reqs', _ :: replies' => createdIds reqs' replies'
  | _, _ => []
  end.

(** The listings of the given pages, fetched one after the other with the
    same filter and page size. *)
Fixpoint fetchPages (toLowerCase : jsstring -> jsstring)
    (filters : option ProductFilter.t) (pageSize : Z) (pages : list Z)
    (s : ServiceState) : list (Notification PaginatedResponse.t) * ServiceState :=
  match pages with
  | [] => ([], s)
  | page :: rest =>
      let (r, s1) := getProducts toLowerCase filters (paging page pageSize) s in
      let (rs, s2) := fetchPages toLowerCase filters pageSize rest s1 in
      (r :: rs, s2)
  end.

(** The items of a listing, none when it failed. *)
Definition pageData (n : Notification PaginatedResponse.t) : list Product.t :=
  match n with
  | Next r => PaginatedResponse.data r
  | Error _ => []
  end.

(** The page numbers [1 .. n]. *)
Definition pagesUpTo (n : Z) : list Z :=
  map (fun k => Z.of_nat k) (seq 1 (Z.to_nat n)).

(** The patch [{price: 599.9, active: false}]. *)
Definition pricePatch : UpdateProduct :=
  {| ProductData.name := None;
     ProductData.description := None;
     ProductData.price := Some 599.9%Q;
     ProductData.category := None;
     ProductData.imageUrl := None;
     ProductData.active := Some false |}.

(** The filter [{minPrice: lo, maxPrice: hi}]. *)
Definition priceBetween (lo hi : Q) : option ProductFilter.t :=
  Some (ProductFilter.mk None (Some lo) (Some hi) None None).

(** ** Vocabulary of the loading counter, and sample servers *)

Definition isStart (c : LoadingService.Call) : bool :=
  match c with LoadingService.Start => true | _ => false end.

Definition isStop (c : LoadingService.Call) : bool :=
  match c with LoadingService.Stop => true | _ => false end.

Definition isReset (c : LoadingService.Call) : bool :=
  match c with LoadingService.Reset => true | _ => false end.

(** How many of the calls satisfy [f]. *)
Definition howMany (f : LoadingService.Call -> bool)
    (calls : list LoadingService.Call) : Z :=
  Z.of_nat (length (List.filter f calls)).

(** The loading service after the calls, made in order. *)
Definition afterCalls (calls : list LoadingService.Call) (l : LoadingService.t)
  : LoadingService.t :=
  fold_left LoadingService.call calls l.

(** A server that takes 31 s for the first request and 200 ms for the
    later ones. *)
Definition slowThenFast (k : nat) : Exchange PaginatedResponse.t :=
  match k with
  | O => mkExchange 31000 (inl emptyPage)
  | _ => mkExchange 200 (inl emptyPage)
  end.

(** A server that answers every request with the empty page after
    120 ms. *)
Definition promptServer (k : nat) : Exchange PaginatedResponse.t :=
  mkExchange 120 (inl emptyPage).

(** A handler that fails with 503 once and then answers. *)
Definition unavailableOnce (k : nat) : unit + HttpErrorResponse.t :=
  match k with
  | O => inr (HttpErrorResponse.mk 503 (lit "Service Unavailable")
                (lit "Http failure response") (ServerBody None))
  | _ => inl tt
  end.

(** * Properties *)

(** ** Arithmetic and array lemmas *)

Lemma ceil_div_bounds (a b : Z) :
  0 < b -> (ceil_div a b - 1) * b < a <= ceil_div a b * b.
Proof.
  intros Hb. unfold ceil_div.
  pose proof (Z.mul_div_le (- a) b Hb).
  pose proof (Z.mul_succ_div_gt (- a) b Hb).
  lia.
Qed.

Lemma ceil_div_unique (a b n : Z) :
  0 < b -> (n - 1) * b < a <= n * b -> n = ceil_div a b.
Proof.
  intros Hb Hn. pose proof (ceil_div_bounds a b Hb). nia.
Qed.

Lemma or_default_nonzero (v d : Z) : v <> 0 -> or_default (Some v) d = v.
Proof.
  intros Hv. unfold or_default. destruct (Z.eqb_spec v 0); [lia | reflexivity].
Qed.

Lemma slice_length {A} (arr : list A) (start stop : Z) :
  0 <= start -> 0 <= stop ->
  Z.of_nat (length (slice arr start stop))
  = Z.max 0 (Z.min stop (Z.of_nat (length arr)) - Z.min start (Z.of_nat (length arr))).
Proof.
  intros Hstart Hstop. unfold slice.
  destruct (Z.ltb_spec start 0); [lia |].
  destruct (Z.ltb_spec stop 0); [lia |].
  rewrite length_take, length_drop. lia.
Qed.

Lemma slice_beyond {A} (arr : list A) (start stop : Z) :
  Z.of_nat (length arr) <= start -> 0 <= stop -> slice arr start stop = [].
Proof.
  intros Hstart Hstop.
  apply length_zero_iff_nil.
  pose proof (slice_length arr start stop ltac:(lia) Hstop). lia.
Qed.

(** ** The two exits of [getProducts] *)

Section ListingProperties.

Variable toLowerCase : jsstring -> jsstring.

Lemma getProducts_Next filters pagination s :
  let page := or_default (pagination ≫= PaginationParams.page) 1 in
  let pageSize := or_default (pagination ≫= PaginationParams.pageSize) 10 in
  let filtered := applyFilters toLowerCase filters (mockProducts s) in
  let totalItems := Z.of_nat (length filtered) in
  let paginatedData := slice filtered ((page - 1) * pageSize)
                         ((page - 1) * pageSize + pageSize) in
  1 <= page ->
  getProducts toLowerCase filters pagination s
  = (Next {| PaginatedResponse.data := paginatedData;
             PaginatedResponse.currentPage := page;
             PaginatedResponse.pageSize := pageSize;
             PaginatedResponse.totalItems := totalItems;
             PaginatedResponse.totalPages := ceil_div totalItems pageSize;
             PaginatedResponse.hasNext :=
               (page - 1) * pageSize + pageSize <? totalItems;
             PaginatedResponse.hasPrevious := 1 <? page |},
     setLoading false
       (productsSubject_next paginatedData (delay API_DELAY (setLoading true s)))).
Proof.
  intros page pageSize filtered totalItems paginatedData Hpage.
  unfold getProducts. fold page pageSize.
  destruct (Z.ltb_spec page 1); [lia | reflexivity].
Qed.

Lemma getProducts_Error filters pagination s :
  or_default (pagination ≫= PaginationParams.page) 1 < 1 ->
  getProducts toLowerCase filters pagination s
  = (Error (JsError (lit "Error") (lit "Page must be greater than 0")),
     delay API_DELAY (setLoading true s)).
Proof.
  intros Hpage. unfold getProducts.
  destruct (Z.ltb_spec (or_default (pagination ≫= PaginationParams.page) 1) 1);
    [reflexivity | lia].
Qed.

End ListingProperties.

(** ** Pagination *)

(** C1. For every state of the dataset, every filter and every request
    with [page >= 1] and [pageSize >= 1], [getProducts] emits a page whose
    [totalItems] is the size of the filtered set, whose [totalPages] is the
    ceiling of [totalItems / pageSize] (the least [n] with
    [totalItems <= n * pageSize]), whose [data] holds at most [pageSize]
    items, whose [hasNext] is true exactly when [page < totalPages] and
    whose [hasPrevious] is true exactly when [page > 1]. *)
Theorem getProducts_pagination_metadata
    (toLowerCase : jsstring -> jsstring) (filters : option ProductFilter.t)
    (page pageSize : Z) (s : ServiceState) :
  1 <= page -> 1 <= pageSize ->
  exists r s',
    getProducts toLowerCase filters (paging page pageSize) s = (Next r, s')
    /\ PaginatedResponse.totalItems r
       = Z.of_nat (length (applyFilters toLowerCase filters (mockProducts s)))
    /\ (PaginatedResponse.totalPages r - 1) * pageSize
         < PaginatedResponse.totalItems r
         <= PaginatedResponse.totalPages r * pageSize
    /\ Z.of_nat (length (PaginatedResponse.data r)) <= pageSize
    /\ (PaginatedResponse.hasNext r = true <-> page < PaginatedResponse.totalPages r)
    /\ (PaginatedResponse.hasPrevious r = true <-> 1 < page).
Proof.
  intros Hpage Hsize.
  pose proof (getProducts_Next toLowerCase filters (paging page pageSize) s) as Hget.
  cbn zeta in Hget. unfold paging in *. cbn [mbind option_bind PaginationParams.page
    PaginationParams.pageSize] in Hget.
  rewrite !or_default_nonzero in Hget by lia.
  specialize (Hget Hpage).
  eexists _, _. split; [exact Hget |]. cbn [PaginatedResponse.totalItems
    PaginatedResponse.totalPages PaginatedResponse.data PaginatedResponse.hasNext
    PaginatedResponse.hasPrevious].
  set (n := Z.of_nat (length (applyFilters toLowerCase filters (mockProducts s)))).
  pose proof (ceil_div_bounds n pageSize ltac:(lia)) as Hceil.
  split; [reflexivity |]. split; [exact Hceil |]. split.
  - rewrite slice_length by nia. fold n. nia.
  - split; [rewrite Z.ltb_lt; nia | apply Z.ltb_lt].
Qed.

Lemma getProducts_pagination_metadata_witness :
  exists r s',
    getProducts (fun x => x) None (paging 2 3) bootState = (Next r, s')
    /\ PaginatedResponse.totalItems r
       = Z.of_nat (length (applyFilters (fun x => x) None
                             (mockProducts bootState)))
    /\ (PaginatedResponse.totalPages r - 1) * 3
         < PaginatedResponse.totalItems r <= PaginatedResponse.totalPages r * 3
    /\ Z.of_nat (length (PaginatedResponse.data r)) <= 3
    /\ (PaginatedResponse.hasNext r = true <-> 2 < PaginatedResponse.totalPages r)
    /\ (PaginatedResponse.hasPrevious r = true <-> 1 < 2).
Proof.
  apply (getProducts_pagination_metadata (fun x => x) None 2 3 bootState); lia.
Defined.

(** C10. A page number beyond the last page is not an error: for
    [page >= 1], [pageSize >= 1] and [page > totalPages], [getProducts]
    emits a page with no data, the requested [currentPage], the
    [totalItems] and [totalPages] of the filtered set, [hasNext = false],
    and [hasPrevious = true] when [page > 1]. *)
Theorem getProducts_page_out_of_range
    (toLowerCase : jsstring -> jsstring) (filters : option ProductFilter.t)
    (page pageSize : Z) (s : ServiceState) :
  let totalItems :=
    Z.of_nat (length (applyFilters toLowerCase filters (mockProducts s))) in
  1 <= page -> 1 <= pageSize -> ceil_div totalItems pageSize < page ->
  exists r s',
    getProducts toLowerCase filters (paging page pageSize) s = (Next r, s')
    /\ PaginatedResponse.data r = []
    /\ PaginatedResponse.currentPage r = page
    /\ PaginatedResponse.pageSize r = pageSize
    /\ PaginatedResponse.totalItems r = totalItems
    /\ PaginatedResponse.totalPages r = ceil_div totalItems pageSize
    /\ PaginatedResponse.hasNext r = false
    /\ (1 < page -> PaginatedResponse.hasPrevious r = true).
Proof.
  intros totalItems Hpage Hsize Hbeyond.
  pose proof (getProducts_Next toLowerCase filters (paging page pageSize) s) as Hget.
  cbn zeta in Hget. unfold paging in *. cbn [mbind option_bind PaginationParams.page
    PaginationParams.pageSize] in Hget.
  rewrite !or_default_nonzero in Hget by lia.
  specialize (Hget Hpage). fold totalItems in Hget.
  pose proof (ceil_div_bounds totalItems pageSize ltac:(lia)) as Hceil.
  rewrite slice_beyond in Hget by (fold totalItems; nia).
  eexists _, _. split; [exact Hget |]. cbn.
  repeat split; try reflexivity.
  - apply Z.ltb_ge. nia.
  - apply Z.ltb_lt.
Qed.

Lemma getProducts_page_out_of_range_witness :
  exists r s',
    getProducts (fun x => x) None (paging 4 3) bootState = (Next r, s')
    /\ PaginatedResponse.data r = []
    /\ PaginatedResponse.currentPage r = 4
    /\ PaginatedResponse.pageSize r = 3
    /\ PaginatedResponse.totalItems r = 8
    /\ PaginatedResponse.totalPages r = 3
    /\ PaginatedResponse.hasNext r = false
    /\ (1 < 4 -> PaginatedResponse.hasPrevious r = true).
Proof.
  apply (getProducts_page_out_of_range (fun x => x) None 4 3 bootState);
    vm_compute; congruence.
Defined.

(** ** Filters are conjoined *)

Lemma filter_twice {A} (f g : A -> bool) (l : list A) :
  List.filter g (List.filter f l) = List.filter (fun x => f x && g x) l.
Proof.
  induction l as [| x l IH]; [reflexivity |]. cbn.
  destruct (f x); cbn; [destruct (g x) |]; rewrite IH; reflexivity.
Qed.

Lemma filter_all {A} (l : list A) : List.filter (fun _ => true) l = l.
Proof.
  induction l as [| x l IH]; [reflexivity |]. cbn. rewrite IH. reflexivity.
Qed.

Lemma applyFilters_conjunction toLowerCase filters products :
  applyFilters toLowerCase filters products
  = List.filter (matchesFilter toLowerCase filters) products.
Proof.
  unfold applyFilters, filterFunctions, matchesFilter.
  destruct (filters ≫= ProductFilter.category) as [c|];
    [destruct (strlen c =? 0) |];
  destruct (filters ≫= ProductFilter.minPrice) as [lo|];
  destruct (filters ≫= ProductFilter.maxPrice) as [hi|];
  destruct (filters ≫= ProductFilter.active) as [a|];
  (destruct (filters ≫= ProductFilter.search) as [q|];
    [destruct (strlen q =? 0) |]);
  cbn [fold_left app negb orb];
  rewrite ?filter_twice;
  first [ symmetry; apply filter_all
        | apply List.filter_ext; intros p;
          cbn [andb orb]; rewrite ?andb_true_r, ?andb_assoc; reflexivity ].
Qed.

(** The seed holds eight products, exactly one of them inactive. *)
Lemma seedProducts_census :
  length seedProducts = 8%nat
  /\ map Product.id (List.filter (fun p => negb (Product.active p)) seedProducts)
     = [8].
Proof. split; reflexivity. Qed.

(** C2, as stated, fails on the seed: the listing for
    [{category: 'ELETRONICOS', active: true}] does not hold three items. *)
Lemma seed_active_electronics_not_three :
  ~ exists r s',
      getProducts (fun x => x) activeElectronics None bootState = (Next r, s')
      /\ length (PaginatedResponse.data r) = 3%nat.
Proof.
  intros (r & s' & Hget & Hlen).
  rewrite getProducts_Next in Hget by (cbn; lia).
  injection Hget as Hr _. subst r.
  vm_compute in Hlen. discriminate Hlen.
Qed.

(** C2, amended. On the seed, whatever the clock and the lower-casing
    function, the listing for [{active: true}] is the seven products
    1 to 7, and the listing for [{category: 'ELETRONICOS', active: true}]
    is the four products 1 to 4, which are all the seed products that are
    both active and in that category; and for every dataset and filter the
    filtered set is the set of products satisfying all the specified
    predicates at once. *)
Theorem getProducts_seed_filters_conjoined
    (toLowerCase : jsstring -> jsstring) (t0 : Z) :
  (exists s',
     getProducts toLowerCase activeOnly None (initialState t0)
     = (Next {| PaginatedResponse.data := take 7 seedProducts;
                PaginatedResponse.currentPage := 1;
                PaginatedResponse.pageSize := 10;
                PaginatedResponse.totalItems := 7;
                PaginatedResponse.totalPages := 1;
                PaginatedResponse.hasNext := false;
                PaginatedResponse.hasPrevious := false |}, s'))
  /\ (exists s',
     getProducts toLowerCase activeElectronics None (initialState t0)
     = (Next {| PaginatedResponse.data := take 4 seedProducts;
                PaginatedResponse.currentPage := 1;
                PaginatedResponse.pageSize := 10;
                PaginatedResponse.totalItems := 4;
                PaginatedResponse.totalPages := 1;
                PaginatedResponse.hasNext := false;
                PaginatedResponse.hasPrevious := false |}, s'))
  /\ take 4 seedProducts
     = List.filter (fun p => jsstring_eqb (Product.category p) (lit "ELETRONICOS")
                             && Product.active p) seedProducts
  /\ map Product.id (take 4 seedProducts) = [1; 2; 3; 4]
  /\ map Product.id (take 7 seedProducts) = [1; 2; 3; 4; 5; 6; 7]
  /\ forall filters products,
       applyFilters toLowerCase filters products
       = List.filter (matchesFilter toLowerCase filters) products.
Proof.
  split; [| split; [| split; [| split; [| split]]]].
  - eexists. rewrite getProducts_Next by (cbn; lia).
    f_equal; vm_compute; reflexivity.
  - eexists. rewrite getProducts_Next by (cbn; lia).
    f_equal; vm_compute; reflexivity.
  - vm_compute. reflexivity.
  - reflexivity.
  - reflexivity.
  - apply applyFilters_conjunction.
Qed.

(** ** Validation: one rule per field, every violated rule reported *)

(** [validateProductData] runs the four blocks in order and keeps
    everything they push. *)
Lemma validateProductData_blocks data isUpdate :
  validateProductData data isUpdate
  = fieldErrors isUpdate NameRule data ++ fieldErrors isUpdate PriceRule data
    ++ fieldErrors isUpdate CategoryRule data
    ++ fieldErrors isUpdate DescriptionRule data.
Proof.
  unfold validateProductData, fieldErrors.
  destruct data as [n d p c u a]; cbn [ProductData.name ProductData.description
    ProductData.price ProductData.category].
  destruct isUpdate, n as [n|], p as [p|], c as [c|], d as [d|];
    cbn [negb orb bool_decide decide_rel is_Some_dec];
    repeat match goal with
           | |- context [if ?b then _ else _] => destruct b
           end; reflexivity.
Qed.

Lemma strlen_trim_le (n : jsstring) : strlen (trim n) <= strlen n.
Proof.
  assert (Hdrop : forall l : jsstring,
             (length (dropWhile isWhiteSpace l) <= length l)%nat).
  { induction l as [| x l IH]; cbn; [lia |]. destruct (isWhiteSpace x); cbn; lia. }
  unfold strlen, trim. rewrite length_rev.
  pose proof (Hdrop (rev (dropWhile isWhiteSpace n))) as H1.
  rewrite length_rev in H1. pose proof (Hdrop n). lia.
Qed.

Lemma strlen_nonneg (n : jsstring) : 0 <= strlen n.
Proof. unfold strlen. lia. Qed.

(** A block pushes nothing exactly when its rule holds, and otherwise
    pushes one of the messages of its rule. *)
Lemma fieldErrors_spec isUpdate rule data :
  if violates isUpdate rule data
  then exists m, fieldErrors isUpdate rule data = [m] /\ In m (ruleMessages rule)
  else fieldErrors isUpdate rule data = [].
Proof.
  destruct rule; unfold violates, fieldErrors.
  - destruct (ProductData.name data) as [n|]; [| destruct isUpdate; cbn; eauto].
    pose proof (strlen_trim_le n). pose proof (strlen_nonneg (trim n)).
    destruct (Z.eqb_spec (strlen n) 0), (Z.eqb_spec (strlen (trim n)) 0),
      (Z.ltb_spec (strlen n) 3), (Z.ltb_spec 200 (strlen n));
      cbn; eauto 6; lia.
  - destruct (ProductData.price data) as [p|]; [| destruct isUpdate; cbn; eauto].
    destruct (Qltb p 0), (Qltb 999999.99 p); cbn; eauto 6.
  - destruct (ProductData.category data) as [c|]; [| destruct isUpdate; cbn; eauto].
    destruct (Z.eqb_spec (strlen c) 0) as [Hc|Hc].
    + destruct c; [| unfold strlen in Hc; cbn [length] in Hc; lia].
      replace (array_includes validCategories []) with false
        by (vm_compute; reflexivity).
      cbn [negb]. eexists. split; [reflexivity | left; reflexivity].
    + destruct (array_includes validCategories c); cbn [negb]; [reflexivity |].
      eexists. split; [reflexivity |]. right. left. reflexivity.
  - destruct (ProductData.description data) as [d|]; [| reflexivity].
    destruct (Z.eqb_spec (strlen d) 0), (Z.ltb_spec 1000 (strlen d));
      cbn; eauto; lia.
Qed.

Lemma startsWith_app (m rest : jsstring) : startsWith (m ++ rest) m = true.
Proof.
  induction m as [| a m IH]; [destruct rest; reflexivity |].
  cbn. rewrite N.eqb_refl. exact IH.
Qed.

Lemma includes_app (pre m post : jsstring) : includes (pre ++ m ++ post) m = true.
Proof.
  induction pre as [| a pre IH].
  - cbn [app]. pose proof (startsWith_app m post) as Hstart.
    destruct (m ++ post); cbn [includes]; rewrite Hstart; reflexivity.
  - cbn [app includes]. rewrite IH. apply orb_true_r.
Qed.

Lemma join_cons (sep x : jsstring) (rest : list jsstring) :
  rest <> [] -> join sep (x :: rest) = x ++ sep ++ join sep rest.
Proof. destruct rest; [congruence | reflexivity]. Qed.

(** Every element of an array is a substring of its [join]. *)
Lemma join_includes (sep m : jsstring) (arr : list jsstring) :
  In m arr -> includes (join sep arr) m = true.
Proof.
  intros Hin.
  assert (exists pre post, join sep arr = pre ++ m ++ post) as (pre & post & ->).
  { induction arr as [| x rest IH]; [destruct Hin |].
    destruct rest as [| y rest].
    - destruct Hin as [-> | []]. exists [], []. cbn. rewrite app_nil_r. reflexivity.
    - rewrite join_cons by discriminate.
      destruct Hin as [-> | Hin].
      + exists [], (sep ++ join sep (y :: rest)). reflexivity.
      + destruct (IH Hin) as (pre & post & ->).
        exists (x ++ sep ++ pre), post. rewrite <- !app_assoc. reflexivity. }
  apply includes_app.
Qed.

Lemma validateProductData_length data isUpdate :
  length (validateProductData data isUpdate)
  = length (List.filter (fun r => violates isUpdate r data) allRules).
Proof.
  rewrite validateProductData_blocks, !length_app. unfold allRules. cbn [List.filter].
  pose proof (fieldErrors_spec isUpdate NameRule data) as Hn.
  pose proof (fieldErrors_spec isUpdate PriceRule data) as Hp.
  pose proof (fieldErrors_spec isUpdate CategoryRule data) as Hc.
  pose proof (fieldErrors_spec isUpdate DescriptionRule data) as Hd.
  destruct (violates isUpdate NameRule data), (violates isUpdate PriceRule data),
    (violates isUpdate CategoryRule data), (violates isUpdate DescriptionRule data);
    repeat match goal with
           | H : exists _, _ |- _ => destruct H as (? & -> & _)
           | H : fieldErrors _ _ _ = [] |- _ => rewrite H; clear H
           end; reflexivity.
Qed.

Lemma validateProductData_violated data isUpdate rule :
  violates isUpdate rule data = true ->
  exists m, In m (ruleMessages rule) /\ In m (validateProductData data isUpdate).
Proof.
  intros Hv. pose proof (fieldErrors_spec isUpdate rule data) as Hspec.
  rewrite Hv in Hspec. destruct Hspec as (m & Hm & Hin).
  exists m. split; [exact Hin |].
  rewrite validateProductData_blocks, !in_app_iff.
  destruct rule; rewrite Hm; cbn; tauto.
Qed.

Lemma validateProductData_passes data isUpdate :
  validateProductData data isUpdate = []
  <-> forall rule, violates isUpdate rule data = false.
Proof.
  split.
  - intros Hnil rule. destruct (violates isUpdate rule data) eqn:Hv; [| reflexivity].
    destruct (validateProductData_violated _ _ _ Hv) as (m & _ & Hin).
    rewrite Hnil in Hin. destruct Hin.
  - intros Hall. apply length_zero_iff_nil.
    rewrite validateProductData_length. unfold allRules. cbn [List.filter].
    rewrite !Hall. reflexivity.
Qed.

(** The messages of distinct rules are distinct, so no message is
    reported twice. *)
Lemma validateProductData_NoDup data isUpdate :
  List.NoDup (validateProductData data isUpdate).
Proof.
  apply NoDup_ListNoDup. rewrite validateProductData_blocks.
  pose proof (fieldErrors_spec isUpdate NameRule data) as Hn.
  pose proof (fieldErrors_spec isUpdate PriceRule data) as Hp.
  pose proof (fieldErrors_spec isUpdate CategoryRule data) as Hc.
  pose proof (fieldErrors_spec isUpdate DescriptionRule data) as Hd.
  destruct (violates isUpdate NameRule data), (violates isUpdate PriceRule data),
    (violates isUpdate CategoryRule data), (violates isUpdate DescriptionRule data);
    repeat match goal with
           | H : exists _, _ |- _ => destruct H as (? & -> & ?)
           | H : fieldErrors _ _ _ = [] |- _ => rewrite H; clear H
           end;
    repeat match goal with
           | H : In _ (ruleMessages _) |- _ => cbn [ruleMessages In] in H
           | H : _ \/ _ |- _ => destruct H
           | H : False |- _ => destruct H
           end; subst;
    apply (bool_decide_unpack _); vm_compute; exact I.
Qed.

(** ** The exits of [createProduct] *)

Lemma error_kind_BadRequest details s :
  error_kind (Api (createApiError 400 (lit "Bad Request") details s))
  = Some InvalidArgument.
Proof. reflexivity. Qed.

Lemma error_kind_ValidationFailed details s :
  error_kind (Api (createApiError 400 (lit "Validation Failed") details s))
  = Some ValidationFailed.
Proof. reflexivity. Qed.

Lemma error_kind_NotFound details s :
  error_kind (Api (createApiError 404 (lit "Not Found") details s)) = Some NotFound.
Proof. reflexivity. Qed.

Lemma createProduct_invalid data s :
  validateProductData data false <> [] ->
  createProduct data s
  = (Error (Api (createApiError 400 (lit "Validation Failed")
                   (Some (join (lit "; ") (validateProductData data false)))
                   (setLoading false s))),
     setLoading false s).
Proof.
  intros Herr. unfold createProduct.
  destruct (validateProductData data false) as [| m errs]; [congruence |].
  reflexivity.
Qed.

Lemma createProduct_valid data s :
  validateProductData data false = [] ->
  exists p,
    createProduct data s
    = (Next p,
       setLoading false
         (productsSubject_next (mockProducts s ++ [p])
            (set_mockProducts (mockProducts s ++ [p])
               (delay API_DELAY (incr_nextId (setLoading true s))))))
    /\ Product.id p = nextId s
    /\ Product.createdAt p = now s
    /\ Product.updatedAt p = now s.
Proof.
  intros Hok. unfold createProduct. rewrite Hok. cbn [length Z.of_nat Z.ltb Z.compare].
  eexists. split; [reflexivity |]. cbn. auto.
Qed.

Example validateProductData_invalidExample :
  validateProductData invalidExample false
  = [lit "Name must be at least 3 characters";
     lit "Price must be greater than or equal to 0";
     lit "Category must be one of: ELETRONICOS, ROUPAS, LIVROS, CASA, ESPORTES, OUTROS"].
Proof. vm_compute. reflexivity. Qed.

(** C3. A payload that violates more than one field rule makes
    [createProduct] fail with the Validation Failed error (status 400),
    whose details are the messages of all the violated rules joined by
    [; ]: one message per violated rule, no message twice, each of them a
    substring of the details. For [{name: 'ab', price: -1,
    category: 'INVALID'}] these are three messages (name too short,
    negative price, invalid category). *)
Theorem createProduct_reports_every_violation
    (data : CreateProduct) (s : ServiceState) :
  (2 <= length (List.filter (fun r => violates false r data) allRules))%nat ->
  exists e details,
    createProduct data s = (Error (Api e), setLoading false s)
    /\ error_kind (Api e) = Some ValidationFailed
    /\ ApiError.details e = Some details
    /\ details = join (lit "; ") (validateProductData data false)
    /\ List.NoDup (validateProductData data false)
    /\ length (validateProductData data false)
       = length (List.filter (fun r => violates false r data) allRules)
    /\ forall rule, violates false rule data = true ->
         exists m, In m (ruleMessages rule)
                   /\ In m (validateProductData data false)
                   /\ includes details m = true.
Proof.
  intros Hmany.
  assert (Herr : validateProductData data false <> []).
  { intros Hnil. rewrite <- validateProductData_length, Hnil in Hmany.
    cbn in Hmany. lia. }
  eexists _, _. split; [apply createProduct_invalid, Herr |].
  split; [apply error_kind_ValidationFailed |].
  split; [reflexivity |]. split; [reflexivity |].
  split; [apply validateProductData_NoDup |].
  split; [apply validateProductData_length |].
  intros rule Hv.
  destruct (validateProductData_violated _ _ _ Hv) as (m & Hmsg & Hin).
  exists m. auto using join_includes.
Qed.

Lemma createProduct_reports_every_violation_witness :
  exists e details,
    createProduct invalidExample bootState = (Error (Api e), setLoading false bootState)
    /\ error_kind (Api e) = Some ValidationFailed
    /\ ApiError.details e = Some details
    /\ details = join (lit "; ") (validateProductData invalidExample false)
    /\ List.NoDup (validateProductData invalidExample false)
    /\ length (validateProductData invalidExample false)
       = length (List.filter (fun r => violates false r invalidExample) allRules)
    /\ forall rule, violates false rule invalidExample = true ->
         exists m, In m (ruleMessages rule)
                   /\ In m (validateProductData invalidExample false)
                   /\ includes details m = true.
Proof.
  apply (createProduct_reports_every_violation invalidExample bootState).
  vm_compute. lia.
Defined.

(** ** The name rule *)

(** C5, as stated, fails: a name of trimmed length 2 is accepted when
    padding brings its length to 3 or more, and a name of trimmed length
    199 is rejected when padding brings its length above 200. *)
Lemma createProduct_name_length_is_untrimmed :
  (strlen (trim (lit " ab ")) = 2
   /\ exists p s', createProduct paddedShortName bootState = (Next p, s')
                   /\ Product.name p = lit " ab ")
  /\ (strlen (trim (repeat 97%N 199 ++ lit "   ")) = 199
      /\ validateProductData paddedLongName false
         = [lit "Name must not exceed 200 characters"]).
Proof.
  split; split; try (vm_compute; reflexivity).
  destruct (createProduct_valid paddedShortName bootState) as (p & Hp & _).
  { vm_compute. reflexivity. }
  exists p. eexists. split; [exact Hp |].
  unfold createProduct in Hp.
  replace (validateProductData paddedShortName false) with (@nil (list N)) in Hp
    by (vm_compute; reflexivity).
  cbn [length Z.of_nat Z.ltb Z.compare] in Hp.
  injection Hp as <- _. reflexivity.
Qed.

Lemma violates_NameRule_create data :
  violates false NameRule data = true <-> nameRejected data.
Proof.
  unfold violates, nameRejected.
  destruct (ProductData.name data) as [n|]; [| cbn; tauto].
  rewrite !orb_true_iff, Z.eqb_eq, !Z.ltb_lt. tauto.
Qed.

Lemma ruleMessages_disjoint r1 r2 m :
  In m (ruleMessages r1) -> In m (ruleMessages r2) -> r1 = r2.
Proof.
  destruct r1, r2; cbn [ruleMessages In]; intros H1 H2; try reflexivity;
    exfalso;
    repeat match goal with
           | H : _ \/ _ |- _ => destruct H
           | H : False |- _ => destruct H
           end; subst;
    match goal with H : _ = _ |- _ => vm_compute in H; discriminate H end.
Qed.

(** A message of a rule is reported only when that rule is violated. *)
Lemma validateProductData_sound data isUpdate rule m :
  In m (ruleMessages rule) -> In m (validateProductData data isUpdate) ->
  violates isUpdate rule data = true.
Proof.
  intros Hmsg Hin. rewrite validateProductData_blocks, !in_app_iff in Hin.
  assert (Hblock : forall r, In m (fieldErrors isUpdate r data) -> r = rule).
  { intros r Hr. pose proof (fieldErrors_spec isUpdate r data) as Hspec.
    destruct (violates isUpdate r data).
    - destruct Hspec as (m' & Heq & Hm'). rewrite Heq in Hr.
      destruct Hr as [-> | []]. eapply ruleMessages_disjoint; eassumption.
    - rewrite Hspec in Hr. destruct Hr. }
  assert (Hrule : In m (fieldErrors isUpdate rule data)).
  { destruct Hin as [H | [H | [H | H]]]; pose proof (Hblock _ H); subst; exact H. }
  pose proof (fieldErrors_spec isUpdate rule data) as Hspec.
  destruct (violates isUpdate rule data); [reflexivity |].
  rewrite Hspec in Hrule. destruct Hrule.
Qed.

(** C5, amended. [createProduct] judges emptiness on the trimmed name and
    the bounds 3 and 200 on the untrimmed length: when the name is
    rejected in this sense the call fails with Validation Failed and the
    details carry a name message; otherwise no name message is reported;
    and for a name that trimming leaves unchanged the verdict is the one
    of the trimmed length, rejected exactly when it is outside 3..200. *)
Theorem createProduct_name_rule (data : CreateProduct) (s : ServiceState) :
  (nameRejected data ->
     exists e details m,
       createProduct data s = (Error (Api e), setLoading false s)
       /\ error_kind (Api e) = Some ValidationFailed
       /\ ApiError.details e = Some details
       /\ In m (ruleMessages NameRule)
       /\ In m (validateProductData data false)
       /\ includes details m = true)
  /\ (~ nameRejected data ->
        forall m, In m (ruleMessages NameRule) ->
                  ~ In m (validateProductData data false))
  /\ (forall n, ProductData.name data = Some n -> trim n = n ->
        (nameRejected data <-> ~ (3 <= strlen (trim n) <= 200))).
Proof.
  split; [| split].
  - intros Hrej. apply violates_NameRule_create in Hrej.
    destruct (validateProductData_violated _ _ _ Hrej) as (m & Hmsg & Hin).
    eexists _, _, m. split.
    + apply createProduct_invalid. intros Hnil. rewrite Hnil in Hin. destruct Hin.
    + split; [apply error_kind_ValidationFailed |].
      split; [reflexivity |]. auto using join_includes.
  - intros Hacc m Hmsg Hin. apply Hacc, violates_NameRule_create.
    eapply validateProductData_sound; eassumption.
  - intros n Hname Htrim. unfold nameRejected. rewrite Hname, Htrim.
    pose proof (strlen_nonneg n). lia.
Qed.

(** ** [findIndex] *)

Lemma findIndex_range {A} (f : A -> bool) (arr : list A) :
  -1 <= findIndex f arr < Z.of_nat (length arr).
Proof.
  induction arr as [| x rest IH]; cbn [findIndex length]; [lia |].
  destruct (f x); [lia |].
  destruct (Z.ltb_spec (findIndex f rest) 0); lia.
Qed.

Lemma findIndex_absent {A} (f : A -> bool) (arr : list A) :
  findIndex f arr = -1 <-> forall x, In x arr -> f x = false.
Proof.
  induction arr as [| x rest IH]; cbn [findIndex In]; [tauto |].
  pose proof (findIndex_range f rest) as Hrange.
  destruct (f x) eqn:Hx.
  - split; [lia |]. intros Hall. specialize (Hall x (or_introl eq_refl)). congruence.
  - destruct (Z.ltb_spec (findIndex f rest) 0).
    + split; [| reflexivity]. intros _ y [<- | Hy]; [exact Hx |].
      apply IH; [lia | exact Hy].
    + split; [lia |]. intros Hall.
      assert (findIndex f rest = -1) by (apply IH; auto). lia.
Qed.

Lemma findIndex_found {A} (f : A -> bool) (arr : list A) :
  findIndex f arr <> -1 ->
  exists x, arr !! Z.to_nat (findIndex f arr) = Some x /\ f x = true.
Proof.
  induction arr as [| x rest IH]; cbn [findIndex]; [congruence |].
  pose proof (findIndex_range f rest) as Hrange.
  destruct (f x) eqn:Hx; [intros _; exists x; auto |].
  destruct (Z.ltb_spec (findIndex f rest) 0); [congruence |]. intros _.
  destruct IH as (y & Hy & Hfy); [lia |]. exists y. split; [| exact Hfy].
  replace (Z.to_nat (findIndex f rest + 1)) with (S (Z.to_nat (findIndex f rest)))
    by lia.
  exact Hy.
Qed.

(** In an array without repeated ids, the index of a product is the one
    [findIndex] returns for its id. *)
Lemma findIndex_unique_id (arr : list Product.t) (i : nat) (p : Product.t) :
  List.NoDup (map Product.id arr) -> arr !! i = Some p ->
  findIndex (fun q => Product.id q =? Product.id p) arr = Z.of_nat i.
Proof.
  revert i. induction arr as [| x rest IH]; intros i Hnodup Hi; [discriminate Hi |].
  cbn [map] in Hnodup. inversion Hnodup as [| ? ? Hx Hrest]; subst.
  cbn [findIndex]. destruct i as [| i]; cbn in Hi.
  - injection Hi as ->. rewrite Z.eqb_refl. reflexivity.
  - destruct (Z.eqb_spec (Product.id x) (Product.id p)) as [Heq | _].
    + exfalso. apply Hx. rewrite Heq. apply in_map.
      apply list_elem_of_In. eapply list_elem_of_lookup_2. exact Hi.
    + rewrite (IH i Hrest Hi). destruct (Z.ltb_spec (Z.of_nat i) 0); lia.
Qed.

(** ** The exits of [updateProduct] *)

Lemma invalid_id_false (id : Z) : invalid_id id = false <-> 1 <= id.
Proof.
  unfold invalid_id. destruct (Z.eqb_spec id 0), (Z.ltb_spec id 1); cbn; split;
    intros; try lia; try congruence.
Qed.

Lemma updateProduct_invalid_id id patch s :
  id < 1 ->
  updateProduct id patch s
  = (Error (Api (createApiError 400 (lit "Bad Request")
                   (Some (lit "Invalid product ID")) (setLoading false s))),
     setLoading false s).
Proof.
  intros Hid. unfold updateProduct.
  destruct (invalid_id id) eqn:E; [reflexivity |].
  apply invalid_id_false in E. lia.
Qed.

Lemma updateProduct_invalid_patch id patch s :
  1 <= id -> validateProductData patch true <> [] ->
  updateProduct id patch s
  = (Error (Api (createApiError 400 (lit "Validation Failed")
                   (Some (join (lit "; ") (validateProductData patch true)))
                   (setLoading false s))),
     setLoading false s).
Proof.
  intros Hid Herr. unfold updateProduct.
  apply invalid_id_false in Hid. rewrite Hid.
  destruct (validateProductData patch true); [congruence | reflexivity].
Qed.

Lemma updateProduct_not_found id patch s :
  1 <= id -> validateProductData patch true = [] ->
  findIndex (fun p => Product.id p =? id) (mockProducts s) = -1 ->
  updateProduct id patch s
  = (Error (Api (createApiError 404 (lit "Not Found")
                   (Some (lit "Product with ID " ++ number_toString id
                          ++ lit " not found")) (setLoading false s))),
     setLoading false s).
Proof.
  intros Hid Hok Hidx. unfold updateProduct.
  apply invalid_id_false in Hid. rewrite Hid, Hok.
  cbn [length Z.of_nat Z.ltb Z.compare mockProducts setLoading].
  rewrite Hidx. reflexivity.
Qed.

Lemma updateProduct_found id patch s (i : nat) stored :
  1 <= id -> validateProductData patch true = [] ->
  findIndex (fun p => Product.id p =? id) (mockProducts s) = Z.of_nat i ->
  mockProducts s !! i = Some stored ->
  let updated := mergeProduct stored patch id (now s) in
  updateProduct id patch s
  = (Next updated,
     setLoading false
       (productsSubject_next (<[i := updated]> (mockProducts s))
          (set_mockProducts (<[i := updated]> (mockProducts s))
             (delay API_DELAY (setLoading true s))))).
Proof.
  intros Hid Hok Hidx Hstored updated. unfold updateProduct.
  apply invalid_id_false in Hid. rewrite Hid, Hok.
  cbn [length Z.of_nat Z.ltb Z.compare mockProducts setLoading].
  rewrite Hidx. destruct (Z.eqb_spec (Z.of_nat i) (-1)); [lia |].
  rewrite Nat2Z.id, Hstored. reflexivity.
Qed.

(** The three failures and the success are the only outcomes. *)
Lemma updateProduct_cases id patch s :
  (id < 1 /\ exists e, updateProduct id patch s = (Error (Api e), setLoading false s)
                       /\ error_kind (Api e) = Some InvalidArgument)
  \/ (1 <= id /\ validateProductData patch true <> []
      /\ exists e, updateProduct id patch s = (Error (Api e), setLoading false s)
                   /\ error_kind (Api e) = Some ValidationFailed)
  \/ (1 <= id /\ validateProductData patch true = []
      /\ findIndex (fun p => Product.id p =? id) (mockProducts s) = -1
      /\ exists e, updateProduct id patch s = (Error (Api e), setLoading false s)
                   /\ error_kind (Api e) = Some NotFound)
  \/ (1 <= id /\ validateProductData patch true = []
      /\ exists i stored,
           findIndex (fun p => Product.id p =? id) (mockProducts s) = Z.of_nat i
           /\ mockProducts s !! i = Some stored
           /\ Product.id stored = id
           /\ updateProduct id patch s
              = (Next (mergeProduct stored patch id (now s)),
                 setLoading false
                   (productsSubject_next
                      (<[i := mergeProduct stored patch id (now s)]> (mockProducts s))
                      (set_mockProducts
                         (<[i := mergeProduct stored patch id (now s)]> (mockProducts s))
                         (delay API_DELAY (setLoading true s)))))).
Proof.
  destruct (Z.lt_ge_cases id 1) as [Hid | Hid].
  { left. split; [exact Hid |]. eexists. split;
      [apply updateProduct_invalid_id, Hid | apply error_kind_BadRequest]. }
  right. destruct (validateProductData patch true) as [| m errs] eqn:Hval.
  2: { left. split; [exact Hid |]. split; [discriminate |].
       eexists. split; [apply updateProduct_invalid_patch;
         [exact Hid | rewrite Hval; discriminate] | apply error_kind_ValidationFailed]. }
  right.
  destruct (Z.eq_dec (findIndex (fun p => Product.id p =? id) (mockProducts s)) (-1))
    as [Hidx | Hidx].
  { left. split; [exact Hid |]. split; [reflexivity |]. split; [exact Hidx |].
    eexists. split; [apply updateProduct_not_found; assumption
                    | apply error_kind_NotFound]. }
  right. split; [exact Hid |]. split; [reflexivity |].
  pose proof (findIndex_range (fun p => Product.id p =? id) (mockProducts s)).
  destruct (findIndex_found _ _ Hidx) as (stored & Hstored & Hsame).
  apply Z.eqb_eq in Hsame.
  exists (Z.to_nat (findIndex (fun p => Product.id p =? id) (mockProducts s))), stored.
  split; [lia |]. split; [exact Hstored |]. split; [exact Hsame |].
  apply updateProduct_found; [assumption .. | lia | exact Hstored].
Qed.

(** ** Update validates the patch before it looks the id up *)

(** C9, as stated, fails for the ids below 1: 0 is the id of no product,
    the patch violates the name rule, and the update fails with Bad
    Request (InvalidArgument), not with Validation Failed. *)
Lemma updateProduct_id_guard_precedes_validation :
  ~ In 0 (map Product.id (mockProducts bootState))
  /\ violates true NameRule shortNamePatch = true
  /\ exists e,
       updateProduct 0 shortNamePatch bootState
       = (Error (Api e), setLoading false bootState)
       /\ error_kind (Api e) = Some InvalidArgument
       /\ error_kind (Api e) <> Some ValidationFailed.
Proof.
  split; [| split].
  - vm_compute. intuition discriminate.
  - vm_compute. reflexivity.
  - eexists. split; [apply updateProduct_invalid_id; lia |].
    rewrite error_kind_BadRequest. split; [reflexivity | discriminate].
Qed.

(** C9, amended. For every id of at least 1, whether or not a product
    has it, and every patch that violates a field rule (among the fields
    it holds), [updateProduct] fails with Validation Failed carrying the
    messages of all the violated rules, not with Not Found; with such a
    patch no id and no state yield Not Found, so Not Found is returned
    only when the patch passes validation; and an id below 1 yields Bad
    Request whatever the patch. *)
Theorem updateProduct_validates_before_lookup
    (id : Z) (patch : UpdateProduct) (s : ServiceState) :
  1 <= id -> (exists rule, violates true rule patch = true) ->
  (exists e details,
     updateProduct id patch s = (Error (Api e), setLoading false s)
     /\ error_kind (Api e) = Some ValidationFailed
     /\ ApiError.details e = Some details
     /\ details = join (lit "; ") (validateProductData patch true)
     /\ forall rule, violates true rule patch = true ->
          exists m, In m (ruleMessages rule)
                    /\ In m (validateProductData patch true)
                    /\ includes details m = true)
  /\ (forall id' s' f s'',
        updateProduct id' patch s' = (Error f, s'') -> error_kind f <> Some NotFound)
  /\ (forall id' s', id' < 1 ->
        exists e, updateProduct id' patch s' = (Error (Api e), setLoading false s')
                  /\ error_kind (Api e) = Some InvalidArgument).
Proof.
  intros Hid (rule0 & Hrule0).
  assert (Herr : validateProductData patch true <> []).
  { intros Hnil. apply validateProductData_passes with (rule := rule0) in Hnil.
    congruence. }
  split; [| split].
  - eexists _, _. split; [apply updateProduct_invalid_patch; assumption |].
    split; [apply error_kind_ValidationFailed |].
    split; [reflexivity |]. split; [reflexivity |].
    intros rule Hv.
    destruct (validateProductData_violated _ _ _ Hv) as (m & Hmsg & Hin).
    exists m. auto using join_includes.
  - intros id' s' f s'' Hrun Hkind.
    destruct (updateProduct_cases id' patch s')
      as [(_ & e & He & Hk) | [(_ & _ & e & He & Hk) | [(_ & Hok & _) | (_ & Hok & _)]]];
      try contradiction;
      rewrite He in Hrun; injection Hrun as <- _; congruence.
  - intros id' s' Hid'. eexists.
    split; [apply updateProduct_invalid_id, Hid' | apply error_kind_BadRequest].
Qed.

Lemma updateProduct_validates_before_lookup_witness :
  (exists e details,
     updateProduct 999 shortNamePatch bootState
     = (Error (Api e), setLoading false bootState)
     /\ error_kind (Api e) = Some ValidationFailed
     /\ ApiError.details e = Some details
     /\ details = join (lit "; ") (validateProductData shortNamePatch true)
     /\ forall rule, violates true rule shortNamePatch = true ->
          exists m, In m (ruleMessages rule)
                    /\ In m (validateProductData shortNamePatch true)
                    /\ includes details m = true)
  /\ (forall id' s' f s'',
        updateProduct id' shortNamePatch s' = (Error f, s'') ->
        error_kind f <> Some NotFound)
  /\ (forall id' s', id' < 1 ->
        exists e, updateProduct id' shortNamePatch s'
                  = (Error (Api e), setLoading false s')
                  /\ error_kind (Api e) = Some InvalidArgument).
Proof.
  apply (updateProduct_validates_before_lookup 999 shortNamePatch bootState).
  - lia.
  - exists NameRule. vm_compute. reflexivity.
Defined.

(** ** The invariant holds at start *)

Lemma wfProduct_mono s s' p :
  nextId s <= nextId s' -> now s <= now s' -> wfProduct s p -> wfProduct s' p.
Proof. unfold wfProduct. intros ? ? (? & ? & ? & ?). repeat split; auto; lia. Qed.

Lemma Inv_mono s s' : extends s s' -> Inv s -> Inv s'.
Proof.
  intros (Hsame & Hid & Hnow) (Hnext & Hall & Hnodup). unfold Inv. rewrite Hsame.
  split; [lia |]. split; [| exact Hnodup].
  eapply Forall_impl; [| exact Hall]. intros p. apply wfProduct_mono; assumption.
Qed.

Lemma seedProducts_wf :
  Forall (fun p => 1 <= Product.id p < 9
                   /\ Product.createdAt p <= Product.updatedAt p
                   /\ Product.updatedAt p <= utc 2024 10 20 14 45
                   /\ array_includes validCategories (Product.category p) = true)
    seedProducts.
Proof. apply (bool_decide_unpack _). vm_compute. exact I. Qed.

(** The service starts in the invariant when it is constructed after the
    last write recorded in the seed (2024-10-20T14:45:00Z). *)
Lemma Inv_initialState (t0 : Z) : utc 2024 10 20 14 45 < t0 -> Inv (initialState t0).
Proof.
  intros Ht0. split; [cbn; lia |]. split.
  - eapply Forall_impl; [| exact seedProducts_wf].
    intros p (Hid & Hdates & Hlast & Hcat). unfold wfProduct. cbn [nextId now initialState].
    repeat split; try assumption; lia.
  - apply NoDup_ListNoDup, (bool_decide_unpack _). vm_compute. exact I.
Qed.

Lemma Inv_bootState : Inv bootState.
Proof. apply Inv_initialState. vm_compute. reflexivity. Qed.

Lemma map_insert_same {A B} (f : A -> B) (l : list A) (i : nat) (x y : A) :
  l !! i = Some x -> f y = f x -> map f (<[i := y]> l) = map f l.
Proof.
  revert i. induction l as [| a l IH]; intros i Hi Hf; [discriminate Hi |].
  destruct i as [| i]; cbn in *.
  - injection Hi as ->. rewrite Hf. reflexivity.
  - f_equal. exact (IH i Hi Hf).
Qed.

Lemma In_delete {A} (l : list A) (i : nat) (x : A) : In x (delete i l) -> In x l.
Proof.
  revert i. induction l as [| a l IH]; intros i Hx; [destruct i; exact Hx |].
  destruct i as [| i]; cbn in *; [auto |]. destruct Hx; eauto.
Qed.

Lemma map_delete {A B} (f : A -> B) (l : list A) (i : nat) :
  map f (delete i l) = delete i (map f l).
Proof.
  revert i. induction l as [| a l IH]; intros i; [destruct i; reflexivity |].
  destruct i as [| i]; cbn; [reflexivity |]. f_equal. apply IH.
Qed.

Lemma NoDup_delete {A} (l : list A) (i : nat) :
  List.NoDup l -> List.NoDup (delete i l).
Proof.
  revert i. induction l as [| a l IH]; intros i Hl; [destruct i; exact Hl |].
  inversion Hl as [| ? ? Ha Hrest]; subst.
  destruct i as [| i]; cbn; [exact Hrest |].
  constructor; [| apply IH, Hrest]. intros Hin. apply Ha. eapply In_delete, Hin.
Qed.

Lemma Forall_delete_In {A} (P : A -> Prop) (l : list A) (i : nat) :
  Forall P l -> Forall P (delete i l).
Proof.
  rewrite !List.Forall_forall. intros Hall x Hx. eapply Hall, In_delete, Hx.
Qed.

Lemma Forall_insert_In {A} (P : A -> Prop) (l : list A) (i : nat) (x : A) :
  Forall P l -> P x -> Forall P (<[i := x]> l).
Proof.
  intros Hall Hx. revert i. induction Hall as [| a l Ha Hl IH]; intros i.
  - destruct i; constructor.
  - destruct i as [| i]; cbn; constructor; auto.
Qed.

(** ** The exits of [getProductById] and [deleteProduct] *)

Lemma getProductById_cases id s :
  (id < 1 /\ exists e, getProductById id s = (Error (Api e), setLoading false s)
                       /\ error_kind (Api e) = Some InvalidArgument)
  \/ (1 <= id
      /\ List.find (fun p => Product.id p =? id) (mockProducts s) = None
      /\ exists e, getProductById id s
                   = (Error (Api e), setLoading false (delay API_DELAY s))
                   /\ error_kind (Api e) = Some NotFound)
  \/ (1 <= id
      /\ exists p, List.find (fun p => Product.id p =? id) (mockProducts s) = Some p
                   /\ getProductById id s
                      = (Next p, setLoading false (delay API_DELAY s))).
Proof.
  unfold getProductById. destruct (invalid_id id) eqn:Hid.
  - left. split.
    + destruct (Z.lt_ge_cases id 1) as [H | H]; [exact H |].
      apply invalid_id_false in H. congruence.
    + eexists. split; [reflexivity | apply error_kind_BadRequest].
  - right. apply invalid_id_false in Hid. cbn [mockProducts setLoading].
    destruct (List.find _ (mockProducts s)) as [p |].
    + right. split; [exact Hid |]. exists p. split; reflexivity.
    + left. split; [exact Hid |]. split; [reflexivity |].
      eexists. split; [reflexivity | apply error_kind_NotFound].
Qed.

Lemma deleteProduct_cases id s :
  (id < 1 /\ exists e, deleteProduct id s = (Error (Api e), setLoading false s)
                       /\ error_kind (Api e) = Some InvalidArgument)
  \/ (1 <= id
      /\ findIndex (fun p => Product.id p =? id) (mockProducts s) = -1
      /\ exists e, deleteProduct id s = (Error (Api e), setLoading false s)
                   /\ error_kind (Api e) = Some NotFound)
  \/ (1 <= id
      /\ exists i stored,
           findIndex (fun p => Product.id p =? id) (mockProducts s) = Z.of_nat i
           /\ mockProducts s !! i = Some stored
           /\ Product.id stored = id
           /\ deleteProduct id s
              = (Next tt,
                 setLoading false
                   (productsSubject_next (delete i (mockProducts s))
                      (set_mockProducts (delete i (mockProducts s))
                         (delay API_DELAY (setLoading true s)))))).
Proof.
  unfold deleteProduct. destruct (invalid_id id) eqn:Hid.
  - left. split.
    + destruct (Z.lt_ge_cases id 1) as [H | H]; [exact H |].
      apply invalid_id_false in H. congruence.
    + eexists. split; [reflexivity | apply error_kind_BadRequest].
  - right. apply invalid_id_false in Hid. cbn [mockProducts setLoading].
    pose proof (findIndex_range (fun p => Product.id p =? id) (mockProducts s)).
    destruct (Z.eqb_spec (findIndex (fun p => Product.id p =? id) (mockProducts s)) (-1))
      as [Hidx | Hidx].
    + left. split; [exact Hid |]. split; [exact Hidx |].
      eexists. split; [reflexivity | apply error_kind_NotFound].
    + right. split; [exact Hid |].
      destruct (findIndex_found _ _ Hidx) as (stored & Hstored & Hsame).
      apply Z.eqb_eq in Hsame.
      exists (Z.to_nat (findIndex (fun p => Product.id p =? id) (mockProducts s))),
        stored.
      split; [lia |]. split; [exact Hstored |]. split; [exact Hsame |]. reflexivity.
Qed.

(** ** A failed operation changes neither the dataset nor the bus *)

Lemma sameData_setLoading b s : sameData s (setLoading b s).
Proof. repeat split. Qed.

Lemma getProducts_failure toLowerCase filters pagination s f s' :
  getProducts toLowerCase filters pagination s = (Error f, s') -> sameData s s'.
Proof.
  unfold getProducts.
  destruct (or_default (pagination ≫= PaginationParams.page) 1 <? 1);
    intros H; [| discriminate H].
  injection H as _ <-. repeat split.
Qed.

Lemma getProductById_failure id s f s' :
  getProductById id s = (Error f, s') -> sameData s s'.
Proof.
  destruct (getProductById_cases id s)
    as [(_ & e & -> & _) | [(_ & _ & e & -> & _) | (_ & p & _ & ->)]];
    intros H; try discriminate H; injection H as _ <-; repeat split.
Qed.

Lemma createProduct_failure data s f s' :
  createProduct data s = (Error f, s') -> sameData s s'.
Proof.
  destruct (validateProductData data false) as [| m errs] eqn:Hval.
  - destruct (createProduct_valid data s Hval) as (p & -> & _). discriminate.
  - rewrite createProduct_invalid by (rewrite Hval; discriminate).
    intros H. injection H as _ <-. repeat split.
Qed.

Lemma updateProduct_failure id patch s f s' :
  updateProduct id patch s = (Error f, s') -> sameData s s'.
Proof.
  destruct (updateProduct_cases id patch s)
    as [(_ & e & -> & _) | [(_ & _ & e & -> & _) | [(_ & _ & _ & e & -> & _)
       | (_ & _ & i & stored & _ & _ & _ & ->)]]];
    intros H; try discriminate H; injection H as _ <-; repeat split.
Qed.

Lemma deleteProduct_failure id s f s' :
  deleteProduct id s = (Error f, s') -> sameData s s'.
Proof.
  destruct (deleteProduct_cases id s)
    as [(_ & e & -> & _) | [(_ & _ & e & -> & _) | (_ & i & stored & _ & _ & _ & ->)]];
    intros H; try discriminate H; injection H as _ <-; repeat split.
Qed.

Lemma reply_Error {A} (wrap : A -> Reply) r f s' :
  reply wrap r = (Error f, s') -> r = (Error f, s').
Proof. destruct r as [[a | f0] s0]; cbn; congruence. Qed.

(** C6. Whatever the operation (list, get, create, update, delete) and
    its input, when it fails the in-memory dataset and the product list
    held by the change notification bus are, after the call, exactly what
    they were before it; the id counter has not moved either. *)
Theorem failed_operation_leaves_dataset_and_bus
    (toLowerCase : jsstring -> jsstring) (req : Request) (s : ServiceState) :
  failed (fst (run toLowerCase req s)) = true ->
  mockProducts (snd (run toLowerCase req s)) = mockProducts s
  /\ productsSubject (snd (run toLowerCase req s)) = productsSubject s
  /\ nextId (snd (run toLowerCase req s)) = nextId s.
Proof.
  destruct (run toLowerCase req s) as [[r | f] s'] eqn:Hrun; cbn [fst snd failed];
    [discriminate |]. intros _.
  change (sameData s s').
  destruct req; cbn [run] in Hrun; apply reply_Error in Hrun.
  - eapply getProducts_failure, Hrun.
  - eapply getProductById_failure, Hrun.
  - eapply createProduct_failure, Hrun.
  - eapply updateProduct_failure, Hrun.
  - eapply deleteProduct_failure, Hrun.
Qed.

Lemma failed_operation_leaves_dataset_and_bus_witness :
  mockProducts (snd (run (fun x => x) (Create invalidExample) bootState))
  = mockProducts bootState
  /\ productsSubject (snd (run (fun x => x) (Create invalidExample) bootState))
     = productsSubject bootState
  /\ nextId (snd (run (fun x => x) (Create invalidExample) bootState))
     = nextId bootState.
Proof.
  apply (failed_operation_leaves_dataset_and_bus (fun x => x) (Create invalidExample)
           bootState).
  vm_compute. reflexivity.
Defined.

(** ** Every operation preserves the invariant *)

Ltac simpl_state :=
  cbn [mockProducts productsSubject loadingSubject nextId now setLoading
       incr_nextId delay set_mockProducts productsSubject_next mergeProduct
       Product.id Product.createdAt Product.updatedAt Product.category].

Lemma extends_setLoading_delay b s : extends s (setLoading b (delay API_DELAY s)).
Proof. unfold extends, API_DELAY. split; [reflexivity | cbn; lia]. Qed.

Lemma extends_setLoading b s : extends s (setLoading b s).
Proof. unfold extends. split; [reflexivity | cbn; lia]. Qed.

Lemma getProducts_extends toLowerCase filters pagination s :
  extends s (snd (getProducts toLowerCase filters pagination s)).
Proof.
  unfold getProducts.
  destruct (or_default (pagination ≫= PaginationParams.page) 1 <? 1);
    unfold extends, API_DELAY; (split; [reflexivity | cbn; lia]).
Qed.

Lemma validated_category data isUpdate stored :
  validateProductData data isUpdate = [] ->
  array_includes validCategories stored = true \/ isUpdate = false ->
  array_includes validCategories (default stored (ProductData.category data)) = true.
Proof.
  intros Hok Hstored.
  pose proof (proj1 (validateProductData_passes data isUpdate) Hok CategoryRule) as Hc.
  unfold violates in Hc. destruct (ProductData.category data) as [c |]; cbn [default].
  - apply negb_false_iff, Hc.
  - destruct Hstored as [H | ->]; [exact H | discriminate Hc].
Qed.

Lemma createProduct_Inv data s : Inv s -> Inv (snd (createProduct data s)).
Proof.
  intros HInv.
  destruct (validateProductData data false) as [| m errs] eqn:Hval.
  2: { rewrite createProduct_invalid by (rewrite Hval; discriminate).
       eapply Inv_mono, HInv. apply extends_setLoading. }
  pose proof (validated_category data false [] Hval (or_intror eq_refl)) as Hcat.
  unfold createProduct. rewrite Hval.
  change (0 <? Z.of_nat (length (@nil (list N)))) with false. cbn [snd].
  destruct HInv as (Hnext & Hall & Hnodup).
  unfold Inv, API_DELAY. simpl_state.
  split; [lia |]. split.
  - apply Forall_app. split.
    + eapply Forall_impl; [| exact Hall]. intros p.
      apply wfProduct_mono; cbn; lia.
    + constructor; [| constructor]. unfold wfProduct. simpl_state.
      repeat split; try lia. exact Hcat.
  - rewrite map_app. cbn [map Product.id].
    apply List.NoDup_app; [exact Hnodup | constructor; [intros [] | constructor] |].
    intros x Hx [<- | []]. apply in_map_iff in Hx as (p & Hp & Hin).
    rewrite List.Forall_forall in Hall. destruct (Hall p Hin) as (Hrange & _). lia.
Qed.

Lemma updateProduct_Inv id patch s : Inv s -> Inv (snd (updateProduct id patch s)).
Proof.
  intros HInv.
  destruct (updateProduct_cases id patch s)
    as [(_ & e & -> & _) | [(_ & _ & e & -> & _) | [(_ & _ & _ & e & -> & _)
       | (Hid & Hok & i & stored & _ & Hstored & Hsame & ->)]]];
    cbn [snd]; try (eapply Inv_mono, HInv; apply extends_setLoading).
  destruct HInv as (Hnext & Hall & Hnodup).
  assert (Hwf : wfProduct s stored).
  { rewrite List.Forall_forall in Hall. apply Hall, list_elem_of_In.
    eapply list_elem_of_lookup_2, Hstored. }
  destruct Hwf as (Hrange & Hdates & Hlast & Hcat).
  unfold Inv, API_DELAY. simpl_state.
  split; [lia |]. split.
  - apply Forall_insert_In.
    + eapply Forall_impl; [| exact Hall]. intros p. apply wfProduct_mono; simpl_state; lia.
    + unfold wfProduct. simpl_state.
      repeat split; try lia.
      apply validated_category with (isUpdate := true); auto.
  - erewrite map_insert_same; [exact Hnodup | exact Hstored |].
    cbn [mergeProduct Product.id]. congruence.
Qed.

Lemma deleteProduct_Inv id s : Inv s -> Inv (snd (deleteProduct id s)).
Proof.
  intros HInv.
  destruct (deleteProduct_cases id s)
    as [(_ & e & -> & _) | [(_ & _ & e & -> & _)
       | (Hid & i & stored & _ & Hstored & Hsame & ->)]];
    cbn [snd]; try (eapply Inv_mono, HInv; apply extends_setLoading).
  destruct HInv as (Hnext & Hall & Hnodup).
  unfold Inv, API_DELAY. simpl_state.
  split; [lia |]. split.
  - apply Forall_delete_In.
    eapply Forall_impl; [| exact Hall]. intros p. apply wfProduct_mono; simpl_state; lia.
  - rewrite map_delete. apply NoDup_delete, Hnodup.
Qed.

Lemma getProductById_Inv id s : Inv s -> Inv (snd (getProductById id s)).
Proof.
  intros HInv.
  destruct (getProductById_cases id s)
    as [(_ & e & -> & _) | [(_ & _ & e & -> & _) | (_ & p & _ & ->)]]; cbn [snd];
    eapply Inv_mono, HInv;
    first [apply extends_setLoading | apply extends_setLoading_delay].
Qed.

(** The invariant holds when the service starts and every request keeps
    it, failed or not. *)
Lemma run_Inv toLowerCase req s : Inv s -> Inv (snd (run toLowerCase req s)).
Proof.
  intros HInv. destruct req; cbn [run].
  - pose proof (getProducts_extends toLowerCase filters pagination s) as Hext.
    destruct (getProducts toLowerCase filters pagination s) as [[r | f] s'];
      cbn [reply snd] in *; eapply Inv_mono; eassumption.
  - pose proof (getProductById_Inv id s HInv) as H.
    destruct (getProductById id s) as [[r | f] s']; exact H.
  - pose proof (createProduct_Inv productData s HInv) as H.
    destruct (createProduct productData s) as [[r | f] s']; exact H.
  - pose proof (updateProduct_Inv id productData s HInv) as H.
    destruct (updateProduct id productData s) as [[r | f] s']; exact H.
  - pose proof (deleteProduct_Inv id s HInv) as H.
    destruct (deleteProduct id s) as [[r | f] s']; exact H.
Qed.

(** ** Update: the frame *)

Lemma validateProductData_empty_patch : validateProductData ProductData.empty true = [].
Proof. reflexivity. Qed.

(** Whatever the id, the patch and the state, an update leaves the ids
    and the creation dates of the dataset as they were, position by
    position; the product it returns is the stored one at the position of
    that id, with the same id and creation date. *)
Lemma updateProduct_preserves_identity (s : ServiceState) (id : Z)
    (patch : UpdateProduct) :
  map Product.id (mockProducts (snd (updateProduct id patch s)))
  = map Product.id (mockProducts s)
  /\ map Product.createdAt (mockProducts (snd (updateProduct id patch s)))
     = map Product.createdAt (mockProducts s)
  /\ forall updated,
       fst (updateProduct id patch s) = Next updated ->
       exists j stored,
         mockProducts s !! j = Some stored
         /\ Product.id stored = id
         /\ Product.id updated = Product.id stored
         /\ Product.createdAt updated = Product.createdAt stored
         /\ mockProducts (snd (updateProduct id patch s)) !! j = Some updated.
Proof.
  destruct (updateProduct_cases id patch s)
    as [(_ & e & -> & _) | [(_ & _ & e & -> & _) | [(_ & _ & _ & e & -> & _)
       | (Hid & Hok & i & stored & _ & Hstored & Hsame & ->)]]];
    cbn [fst snd]; try (repeat split; intros updated H; discriminate H).
  simpl_state. split; [| split].
  - eapply map_insert_same; [exact Hstored |]. cbn. congruence.
  - eapply map_insert_same; [exact Hstored |]. reflexivity.
  - intros updated H. injection H as <-. exists i, stored.
    repeat split; try assumption; try (cbn; congruence).
    apply list_lookup_insert_eq. eapply lookup_lt_Some, Hstored.
Qed.

(** C7. In a state of the invariant, updating a stored product with the
    empty patch [{}] returns that product with every field as stored
    except [updatedAt], which is the time of the call and is later than
    the stored one; the record is replaced in place and published. And
    for every update whatsoever, in any state, the ids and the creation
    dates of the stored products are not altered. *)
Theorem updateProduct_empty_patch_frame
    (s : ServiceState) (i : nat) (stored : Product.t) :
  Inv s -> mockProducts s !! i = Some stored ->
  (exists updated s',
     updateProduct (Product.id stored) ProductData.empty s = (Next updated, s')
     /\ updated
        = {| Product.id := Product.id stored;
             Product.name := Product.name stored;
             Product.description := Product.description stored;
             Product.price := Product.price stored;
             Product.category := Product.category stored;
             Product.imageUrl := Product.imageUrl stored;
             Product.active := Product.active stored;
             Product.createdAt := Product.createdAt stored;
             Product.updatedAt := now s |}
     /\ Product.updatedAt stored < Product.updatedAt updated
     /\ mockProducts s' = <[i := updated]> (mockProducts s)
     /\ productsSubject s' = mockProducts s')
  /\ (forall s0 id patch,
        map Product.id (mockProducts (snd (updateProduct id patch s0)))
        = map Product.id (mockProducts s0)
        /\ map Product.createdAt (mockProducts (snd (updateProduct id patch s0)))
           = map Product.createdAt (mockProducts s0)
        /\ forall updated,
             fst (updateProduct id patch s0) = Next updated ->
             exists j stored0,
               mockProducts s0 !! j = Some stored0
               /\ Product.id stored0 = id
               /\ Product.id updated = Product.id stored0
               /\ Product.createdAt updated = Product.createdAt stored0
               /\ mockProducts (snd (updateProduct id patch s0)) !! j = Some updated).
Proof.
  intros (Hnext & Hall & Hnodup) Hstored.
  split; [| intros s0 id patch; apply updateProduct_preserves_identity].
  assert (Hwf : wfProduct s stored).
  { rewrite List.Forall_forall in Hall. apply Hall, list_elem_of_In.
    eapply list_elem_of_lookup_2, Hstored. }
  destruct Hwf as (Hrange & Hdates & Hlast & Hcat).
  pose proof (updateProduct_found (Product.id stored) ProductData.empty s i stored
                ltac:(lia) validateProductData_empty_patch
                (findIndex_unique_id _ _ _ Hnodup Hstored) Hstored) as Hrun.
  cbn zeta in Hrun. eexists _, _. split; [exact Hrun |].
  split; [reflexivity |]. split; [exact Hlast |]. split; reflexivity.
Qed.

Lemma updateProduct_empty_patch_frame_witness :
  exists stored,
    mockProducts bootState !! 2%nat = Some stored
    /\ (exists updated s',
          updateProduct 3 ProductData.empty bootState = (Next updated, s')
          /\ Product.name updated = Product.name stored
          /\ Product.createdAt updated = Product.createdAt stored
          /\ Product.updatedAt stored < Product.updatedAt updated
          /\ Product.updatedAt updated = utc 2025 1 1 0 0).
Proof.
  eexists. split; [reflexivity |].
  destruct (updateProduct_empty_patch_frame bootState 2 _ Inv_bootState eq_refl)
    as ((updated & s' & Hrun & Hupdated & Hlater & _) & _).
  exists updated, s'. split; [exact Hrun |]. rewrite Hupdated in Hlater |- *.
  split; [reflexivity |]. split; [reflexivity |]. split; [exact Hlater | reflexivity].
Defined.

(** ** The load path substitutes an empty page, mutations do not *)

Lemma loadProducts_pipe_failed elapsed fetched c :
  failed (timeout 5000 elapsed fetched) = true ->
  exists text,
    loadProducts_pipe elapsed fetched c
    = (Next emptyPage, list_notify (ToastError text) (list_setLoading false c)).
Proof.
  unfold loadProducts_pipe. destruct (timeout 5000 elapsed fetched) as [r | error];
    [discriminate |]. intros _. unfold loadProducts_catchError.
  destruct (bool_decide (error_name error = Some (lit "TimeoutError")));
    eexists; reflexivity.
Qed.

(** A fetch that the engine fails (page -1) and a fetch that times out
    both end as the empty table, each with its toast. *)
Example loadProducts_failed_examples :
  loadProducts API_DELAY (fst (getProducts (fun x => x) None (paging (-1) 10) bootState))
    freshList
  = {| products := []; loading := false; currentPage := 1; totalItems := 0;
       listToasts :=
         [ToastError (lit "Erro ao carregar produtos: Page must be greater than 0")] |}
  /\ loadProducts 6000 (fst (getProducts (fun x => x) None (paging 1 10) bootState))
       freshList
     = {| products := []; loading := false; currentPage := 1; totalItems := 0;
          listToasts :=
            [ToastError (lit "Tempo limite excedido ao carregar produtos")] |}.
Proof. split; vm_compute; reflexivity. Qed.

(** C8. In [loadProducts] every failed fetch, an error of the service or
    a timeout, reaches the subscriber as the empty page ([data = []],
    [totalItems = 0], [totalPages = 0], [hasNext = hasPrevious = false]):
    the table is emptied, an error toast is shown, and no error is
    propagated. The mutations do not substitute anything: a failed delete
    in the list view, and a failed create or update in the form, reach
    the error callback with the failure as it is, leaving the table
    untouched; and the engine answers every rejected create, update and
    delete with an error notification. *)
Theorem failed_fetch_becomes_empty_page :
  (forall elapsed fetched c,
     failed (timeout 5000 elapsed fetched) = true ->
     fst (loadProducts_pipe elapsed fetched c) = Next emptyPage
     /\ products (loadProducts elapsed fetched c) = []
     /\ totalItems (loadProducts elapsed fetched c) = 0
     /\ loading (loadProducts elapsed fetched c) = false
     /\ exists text,
          listToasts (loadProducts elapsed fetched c) = listToasts c ++ [ToastError text])
  /\ (PaginatedResponse.data emptyPage = []
      /\ PaginatedResponse.totalItems emptyPage = 0
      /\ PaginatedResponse.totalPages emptyPage = 0
      /\ PaginatedResponse.hasNext emptyPage = false
      /\ PaginatedResponse.hasPrevious emptyPage = false)
  /\ (forall f reload c,
        list_deleteProduct (Error f) reload c
        = {| products := products c; loading := false;
             currentPage := currentPage c; totalItems := totalItems c;
             listToasts := listToasts c
               ++ [ToastError (lit "Erro ao excluir produto: " ++ error_message f)] |})
  /\ (forall f c,
        form_createProduct (Error f) c
        = {| formLoading := false;
             formToasts := formToasts c
               ++ [ToastError (lit "Erro ao criar produto: " ++ error_message f)];
             navigated := navigated c |}
        /\ form_updateProduct (Error f) c
           = {| formLoading := false;
                formToasts := formToasts c
                  ++ [ToastError (lit "Erro ao atualizar produto: " ++ error_message f)];
                navigated := navigated c |})
  /\ (forall data s,
        validateProductData data false <> [] ->
        failed (fst (createProduct data s)) = true)
  /\ (forall id patch s,
        id < 1 \/ validateProductData patch true <> []
        \/ findIndex (fun p => Product.id p =? id) (mockProducts s) = -1 ->
        failed (fst (updateProduct id patch s)) = true)
  /\ (forall id s,
        id < 1 \/ findIndex (fun p => Product.id p =? id) (mockProducts s) = -1 ->
        failed (fst (deleteProduct id s)) = true).
Proof.
  split; [| split; [| split; [| split; [| split; [| split]]]]].
  - intros elapsed fetched c Hfailed.
    destruct (loadProducts_pipe_failed elapsed fetched (list_setLoading true c) Hfailed)
      as (text & Hpipe).
    destruct (loadProducts_pipe_failed elapsed fetched c Hfailed) as (text' & Hpipe').
    unfold loadProducts. rewrite Hpipe, Hpipe'.
    repeat split. exists text. reflexivity.
  - repeat split.
  - reflexivity.
  - split; reflexivity.
  - intros data s Herr. rewrite createProduct_invalid by exact Herr. reflexivity.
  - intros id patch s Hbad.
    destruct (updateProduct_cases id patch s)
      as [(_ & e & -> & _) | [(_ & _ & e & -> & _) | [(_ & _ & _ & e & -> & _)
         | (Hid & Hok & i & stored & Hidx & _)]]]; try reflexivity.
    destruct Hbad as [H | [H | H]]; [lia | congruence | lia].
  - intros id s Hbad.
    destruct (deleteProduct_cases id s)
      as [(_ & e & -> & _) | [(_ & _ & e & -> & _)
         | (Hid & i & stored & Hidx & _)]]; try reflexivity.
    destruct Hbad as [H | H]; lia.
Qed.

(** ** A page below 1 *)

Lemma getProducts_negative_page toLowerCase filters page pageSize s :
  page < 0 ->
  getProducts toLowerCase filters
    (Some (PaginationParams.mk (Some page) pageSize)) s
  = (Error (JsError (lit "Error") (lit "Page must be greater than 0")),
     delay API_DELAY (setLoading true s)).
Proof.
  intros Hpage. apply getProducts_Error. cbn [mbind option_bind PaginationParams.page].
  rewrite or_default_nonzero by lia. lia.
Qed.

Lemma getProducts_page_zero toLowerCase filters pageSize s :
  getProducts toLowerCase filters (Some (PaginationParams.mk (Some 0) pageSize)) s
  = getProducts toLowerCase filters (Some (PaginationParams.mk None pageSize)) s.
Proof. reflexivity. Qed.

(** C4 does not hold of the code. With page -1 the listing fails with a
    bare [Error], which has no status code and belongs to no kind of the
    taxonomy, and leaves the loading flag raised; with page 0 it does not
    fail at all and serves page 1. The sibling check of an id below 1
    fails with the structured Bad Request. *)
Theorem getProducts_page_below_one_is_unstructured :
  (exists s',
     getProducts (fun x => x) None (paging (-1) 10) bootState
     = (Error (JsError (lit "Error") (lit "Page must be greater than 0")), s')
     /\ loadingSubject s' = true)
  /\ error_kind (JsError (lit "Error") (lit "Page must be greater than 0")) = None
  /\ (exists r s',
        getProducts (fun x => x) None (paging 0 10) bootState = (Next r, s')
        /\ PaginatedResponse.currentPage r = 1
        /\ length (PaginatedResponse.data r) = 8%nat)
  /\ (exists e s',
        getProductById 0 bootState = (Error (Api e), s')
        /\ error_kind (Api e) = Some InvalidArgument).
Proof.
  split; [| split; [| split]].
  - eexists. split; [apply getProducts_negative_page; lia | reflexivity].
  - reflexivity.
  - eexists _, _. split; [apply getProducts_Next; vm_compute; discriminate |].
    split; vm_compute; reflexivity.
  - eexists _, _. split; [reflexivity | apply error_kind_BadRequest].
Qed.

(** ** Round trips *)

Lemma find_none_intro {A} (f : A -> bool) (l : list A) :
  (forall x, In x l -> f x = false) -> List.find f l = None.
Proof.
  induction l as [| a l IH]; intros Hall; [reflexivity |]. cbn.
  rewrite (Hall a (or_introl eq_refl)). apply IH. intros x Hx. apply Hall. right. exact Hx.
Qed.


Lemma NoDup_delete_absent {A B} (f : A -> B) (l : list A) (k : nat) (x : A) :
  List.NoDup (map f l) -> l !! k = Some x -> ~ In (f x) (map f (delete k l)).
Proof.
  revert k. induction l as [| a l IH]; intros k Hnodup Hk; [discriminate Hk |].
  cbn [map] in Hnodup. inversion Hnodup as [| ? ? Ha Hrest]; subst.
  destruct k as [| k]; cbn in Hk |- *.
  - injection Hk as ->. exact Ha.
  - intros [Heq | Hin]; [| exact (IH k Hrest Hk Hin)].
    apply Ha. rewrite Heq. apply in_map, list_elem_of_In.
    eapply list_elem_of_lookup_2, Hk.
Qed.

(** The product that a successful [createProduct] returns. *)
Lemma createProduct_Next data s p s' :
  createProduct data s = (Next p, s') ->
  validateProductData data false = []
  /\ p = {| Product.id := nextId s;
            Product.name := default [] (ProductData.name data);
            Product.description := ProductData.description data;
            Product.price := default 0%Q (ProductData.price data);
            Product.category := default [] (ProductData.category data);
            Product.imageUrl := ProductData.imageUrl data;
            Product.active := default true (ProductData.active data);
            Product.createdAt := now s;
            Product.updatedAt := now s |}
  /\ mockProducts s' = mockProducts s ++ [p]
  /\ productsSubject s' = mockProducts s ++ [p]
  /\ nextId s' = nextId s + 1.
Proof.
  destruct (validateProductData data false) as [| m errs] eqn:Hval.
  - unfold createProduct. rewrite Hval.
    change (0 <? Z.of_nat (length (@nil (list N)))) with false.
    intros H. injection H as <- <-. repeat split.
  - rewrite createProduct_invalid by (rewrite Hval; discriminate). discriminate.
Qed.



(** X2. Delete, then get: in a state of the invariant, after a successful
    [deleteProduct] of an id, [getProductById] of that id fails with Not
    Found. *)
Theorem deleteProduct_then_getProductById (id : Z) (s s1 : ServiceState) :
  Inv s -> deleteProduct id s = (Next tt, s1) ->
  exists e s2,
    getProductById id s1 = (Error (Api e), s2)
    /\ error_kind (Api e) = Some NotFound
    /\ ~ In id (map Product.id (mockProducts s1)).
Proof.
  intros (Hnext & Hall & Hnodup) Hdelete.
  destruct (deleteProduct_cases id s)
    as [(_ & e & He & _) | [(_ & _ & e & He & _)
       | (Hid & i & stored & Hidx & Hstored & Hsame & Hrun)]];
    try (rewrite He in Hdelete; discriminate Hdelete).
  rewrite Hrun in Hdelete. injection Hdelete as <-.
  assert (Habsent : ~ In id (map Product.id (delete i (mockProducts s)))).
  { rewrite <- Hsame. eapply NoDup_delete_absent; eassumption. }
  destruct (getProductById_cases id
              (setLoading false
                 (productsSubject_next (delete i (mockProducts s))
                    (set_mockProducts (delete i (mockProducts s))
                       (delay API_DELAY (setLoading true s))))))
    as [(Hlow & _) | [(_ & _ & e & Hget & Hkind) | (_ & q & Hq & _)]]; [lia | |].
  - exists e. eexists. split; [exact Hget |]. split; [exact Hkind | exact Habsent].
  - exfalso. apply Habsent. apply find_some in Hq as [Hin Heq].
    apply Z.eqb_eq in Heq. rewrite <- Heq. apply in_map. exact Hin.
Qed.

Lemma deleteProduct_then_getProductById_witness :
  exists e s2,
    getProductById 3 (snd (deleteProduct 3 bootState)) = (Error (Api e), s2)
    /\ error_kind (Api e) = Some NotFound
    /\ ~ In 3 (map Product.id (mockProducts (snd (deleteProduct 3 bootState)))).
Proof.
  apply (deleteProduct_then_getProductById 3 bootState _ Inv_bootState).
  vm_compute. reflexivity.
Defined.

(** X3. The dataset invariant: when the service is constructed after the last
    write recorded in the seed, and after any sequence of requests from
    there on, failed or not, the ids of the stored products are distinct,
    at least 1 and below the counter, every product was created no later
    than it was last written, and its category is one of the
    enumeration. *)
Theorem dataset_invariant (toLowerCase : jsstring -> jsstring) (t0 : Z)
    (reqs : list Request) :
  utc 2024 10 20 14 45 < t0 ->
  Inv (fold_left (fun s req => snd (run toLowerCase req s)) reqs (initialState t0)).
Proof.
  intros Ht0. pose proof (Inv_initialState t0 Ht0) as HInv.
  revert HInv. generalize (initialState t0).
  induction reqs as [| req reqs IH]; intros s HInv; [exact HInv |].
  cbn [fold_left]. apply IH, run_Inv, HInv.
Qed.

Lemma dataset_invariant_witness :
  Inv (fold_left (fun s req => snd (run (fun x => x) req s))
         [Create validExample; Update 2 shortNamePatch; Delete 5; List None None]
         (initialState (utc 2025 1 1 0 0))).
Proof.
  apply (dataset_invariant (fun x => x) (utc 2025 1 1 0 0)
           [Create validExample; Update 2 shortNamePatch; Delete 5; List None None]).
  vm_compute. reflexivity.
Defined.

(** ** A single page, and reading twice *)

Lemma slice_whole {A} (arr : list A) (stop : Z) :
  Z.of_nat (length arr) <= stop -> slice arr 0 stop = arr.
Proof.
  intros Hstop. unfold slice.
  destruct (Z.ltb_spec stop 0); [lia |]. cbn [Z.ltb Z.compare].
  rewrite (Z.min_l 0) by lia. rewrite (Z.min_r stop) by lia.
  cbn [Z.to_nat drop]. rewrite Z.sub_0_r, Nat2Z.id. apply firstn_all.
Qed.

(** X4. Pagination boundary: when the filtered set is not empty and fits in
    one page (eight matching items and [pageSize = 10], say), page 1 is
    the whole filtered set, [totalPages = 1], and there is neither a next
    nor a previous page. *)
Theorem getProducts_single_page
    (toLowerCase : jsstring -> jsstring) (filters : option ProductFilter.t)
    (pageSize : Z) (s : ServiceState) :
  let filtered := applyFilters toLowerCase filters (mockProducts s) in
  0 < Z.of_nat (length filtered) <= pageSize ->
  exists r s',
    getProducts toLowerCase filters (paging 1 pageSize) s = (Next r, s')
    /\ PaginatedResponse.data r = filtered
    /\ PaginatedResponse.totalItems r = Z.of_nat (length filtered)
    /\ PaginatedResponse.totalPages r = 1
    /\ PaginatedResponse.hasNext r = false
    /\ PaginatedResponse.hasPrevious r = false
    /\ productsSubject s' = filtered.
Proof.
  intros filtered Hfits.
  pose proof (getProducts_Next toLowerCase filters (paging 1 pageSize) s) as Hget.
  cbn zeta in Hget. unfold paging in *. cbn [mbind option_bind PaginationParams.page
    PaginationParams.pageSize] in Hget.
  rewrite !or_default_nonzero in Hget by lia.
  specialize (Hget ltac:(lia)). fold filtered in Hget.
  replace ((1 - 1) * pageSize) with 0 in Hget by lia.
  rewrite slice_whole in Hget by lia.
  eexists _, _. split; [exact Hget |]. cbn.
  repeat split.
  - symmetry. apply ceil_div_unique; lia.
  - apply Z.ltb_ge. lia.
Qed.

Lemma getProducts_single_page_witness :
  exists r s',
    getProducts (fun x => x) None (paging 1 10) bootState = (Next r, s')
    /\ PaginatedResponse.data r = applyFilters (fun x => x) None (mockProducts bootState)
    /\ PaginatedResponse.totalItems r
       = Z.of_nat (length (applyFilters (fun x => x) None (mockProducts bootState)))
    /\ PaginatedResponse.totalPages r = 1
    /\ PaginatedResponse.hasNext r = false
    /\ PaginatedResponse.hasPrevious r = false
    /\ productsSubject s' = applyFilters (fun x => x) None (mockProducts bootState).
Proof.
  apply (getProducts_single_page (fun x => x) None 10 bootState).
  vm_compute. split; [reflexivity | discriminate].
Defined.

(** X5. Reading is idempotent: a [getProductById] that returns a product
    leaves the dataset as it was, and the same call right after it returns
    the same product. *)
Theorem getProductById_idempotent (id : Z) (s s1 : ServiceState) (p : Product.t) :
  getProductById id s = (Next p, s1) ->
  mockProducts s1 = mockProducts s
  /\ exists s2, getProductById id s1 = (Next p, s2).
Proof.
  intros Hget.
  destruct (getProductById_cases id s)
    as [(_ & e & He & _) | [(_ & _ & e & He & _) | (Hid & q & Hq & Hrun)]];
    try (rewrite He in Hget; discriminate Hget).
  rewrite Hrun in Hget. injection Hget as <- <-.
  split; [reflexivity |].
  destruct (getProductById_cases id (setLoading false (delay API_DELAY s)))
    as [(Hlow & _) | [(_ & Hnone & _) | (_ & q' & Hq' & Hrun')]].
  - lia.
  - cbn [mockProducts setLoading delay] in Hnone. congruence.
  - cbn [mockProducts setLoading delay] in Hq'. rewrite Hq in Hq'. injection Hq' as <-.
    eexists. exact Hrun'.
Qed.

Lemma getProductById_idempotent_witness :
  mockProducts (snd (getProductById 3 bootState)) = mockProducts bootState
  /\ exists s2,
       getProductById 3 (snd (getProductById 3 bootState))
       = (Next (nth 2 seedProducts (Product.mk 0 [] None 0 [] None false 0 0)), s2).
Proof.
  apply (getProductById_idempotent 3 bootState). vm_compute. reflexivity.
Defined.

(** ** Reading after writing *)

Lemma find_findIndex {A} (f : A -> bool) (arr : list A) :
  List.find f arr
  = if findIndex f arr =? -1 then None else arr !! Z.to_nat (findIndex f arr).
Proof.
  induction arr as [| x rest IH]; cbn [List.find findIndex]; [reflexivity |].
  pose proof (findIndex_range f rest) as Hrange.
  destruct (f x); [reflexivity |]. rewrite IH.
  destruct (Z.ltb_spec (findIndex f rest) 0).
  - replace (findIndex f rest) with (-1) by lia. reflexivity.
  - destruct (Z.eqb_spec (findIndex f rest) (-1)); [lia |].
    destruct (Z.eqb_spec (findIndex f rest + 1) (-1)); [lia |].
    replace (Z.to_nat (findIndex f rest + 1)) with (S (Z.to_nat (findIndex f rest)))
      by lia.
    reflexivity.
Qed.

Lemma find_insert_first {A} (f : A -> bool) (arr : list A) (i : nat) (y : A) :
  findIndex f arr = Z.of_nat i -> f y = true ->
  List.find f (<[i := y]> arr) = Some y.
Proof.
  revert i. induction arr as [| x rest IH]; intros i Hi Hy; cbn [findIndex] in Hi; [lia |].
  pose proof (findIndex_range f rest) as Hrange.
  destruct (f x) eqn:Hx.
  - assert (i = 0%nat) by lia. subst i. cbn. rewrite Hy. reflexivity.
  - destruct (Z.ltb_spec (findIndex f rest) 0); [lia |].
    destruct i as [| i]; [lia |]. cbn. rewrite Hx. apply IH; [lia | exact Hy].
Qed.

Lemma find_insert_other {A} (g : A -> bool) (arr : list A) (i : nat) (x y : A) :
  arr !! i = Some x -> g x = false -> g y = false ->
  List.find g (<[i := y]> arr) = List.find g arr.
Proof.
  revert i. induction arr as [| a rest IH]; intros i Hi Hx Hy; [discriminate Hi |].
  destruct i as [| i]; cbn in Hi |- *.
  - injection Hi as ->. rewrite Hx, Hy. reflexivity.
  - destruct (g a); [reflexivity |]. exact (IH i Hi Hx Hy).
Qed.

Lemma find_delete_other {A} (g : A -> bool) (arr : list A) (i : nat) (x : A) :
  arr !! i = Some x -> g x = false ->
  List.find g (delete i arr) = List.find g arr.
Proof.
  revert i. induction arr as [| a rest IH]; intros i Hi Hx; [discriminate Hi |].
  destruct i as [| i]; cbn in Hi |- *.
  - injection Hi as ->. rewrite Hx. reflexivity.
  - destruct (g a); [reflexivity |]. exact (IH i Hi Hx).
Qed.

(** What [getProductById] answers is decided by the first stored product
    with the id. *)
Lemma getProductById_Next_iff id s p :
  fst (getProductById id s) = Next p
  <-> 1 <= id /\ List.find (fun q => Product.id q =? id) (mockProducts s) = Some p.
Proof.
  destruct (getProductById_cases id s)
    as [(Hlow & e & -> & _) | [(Hid & Hnone & e & -> & _) | (Hid & q & Hq & ->)]];
    cbn [fst]; rewrite ?Hnone, ?Hq; split;
    try (intros H; discriminate H); try (intros [H1 H2]; try lia; discriminate H2).
  - intros H. injection H as ->. auto.
  - intros [_ H]. injection H as ->. reflexivity.
Qed.

(** X6. Update, then get: when [updateProduct] succeeds, the product it
    returns is the product that [getProductById] returned before the
    update, with the fields of the patch written over it and [updatedAt]
    set to the time of the call; [getProductById] of that id returns it
    from then on, the dataset keeps its length, and for every other id
    [getProductById] returns what it returned before. *)
Theorem updateProduct_then_getProductById
    (id : Z) (patch : UpdateProduct) (s s1 : ServiceState) (updated : Product.t) :
  updateProduct id patch s = (Next updated, s1) ->
  (exists stored,
     fst (getProductById id s) = Next stored
     /\ updated = mergeProduct stored patch id (now s))
  /\ fst (getProductById id s1) = Next updated
  /\ length (mockProducts s1) = length (mockProducts s)
  /\ forall j p, j <> id ->
       (fst (getProductById j s1) = Next p <-> fst (getProductById j s) = Next p).
Proof.
  intros Hrun.
  destruct (updateProduct_cases id patch s)
    as [(_ & e & He & _) | [(_ & _ & e & He & _) | [(_ & _ & _ & e & He & _)
       | (Hid & Hok & i & stored & Hidx & Hstored & Hsame & Hnext)]]];
    try (rewrite He in Hrun; discriminate Hrun).
  rewrite Hnext in Hrun. injection Hrun as <- <-.
  cbn [mockProducts setLoading productsSubject_next set_mockProducts delay].
  split; [| split; [| split]].
  - exists stored. split; [| reflexivity]. apply getProductById_Next_iff.
    split; [exact Hid |]. rewrite find_findIndex, Hidx.
    destruct (Z.eqb_spec (Z.of_nat i) (-1)); [lia |]. rewrite Nat2Z.id. exact Hstored.
  - apply getProductById_Next_iff. split; [exact Hid |].
    cbn [mockProducts setLoading productsSubject_next set_mockProducts delay].
    apply find_insert_first; [exact Hidx |]. cbn. apply Z.eqb_refl.
  - apply length_insert.
  - intros j p Hj. rewrite !getProductById_Next_iff.
    cbn [mockProducts setLoading productsSubject_next set_mockProducts delay].
    rewrite (find_insert_other _ _ _ stored); [reflexivity | exact Hstored | |].
    + apply Z.eqb_neq. lia.
    + cbn. apply Z.eqb_neq. lia.
Qed.

Lemma updateProduct_then_getProductById_witness :
  (exists stored,
     fst (getProductById 3 bootState) = Next stored
     /\ fst (updateProduct 3 pricePatch bootState)
        = Next (mergeProduct stored pricePatch 3 (now bootState)))
  /\ forall j p, j <> 3 ->
       (fst (getProductById j (snd (updateProduct 3 pricePatch bootState))) = Next p
        <-> fst (getProductById j bootState) = Next p).
Proof.
  destruct (updateProduct 3 pricePatch bootState) as [r s1] eqn:Hrun.
  assert (Hr : exists updated, r = Next updated).
  { revert Hrun. vm_compute. intros H. injection H as <- _. eexists. reflexivity. }
  destruct Hr as (updated & ->).
  destruct (updateProduct_then_getProductById 3 pricePatch bootState s1 updated Hrun)
    as ((stored & Hget & ->) & _ & _ & Hother).
  split; [exists stored; split; [exact Hget | reflexivity] | exact Hother].
Defined.


(** X7. Delete removes one product and nothing else: when
    [deleteProduct] succeeds, the product removed is the one that
    [getProductById] returned for the id, the first with that id; the
    dataset is shorter by one and the rest keeps its order; the id counter
    does not move; and for every other id [getProductById] returns what it
    returned before. *)
Theorem deleteProduct_removes_one (id : Z) (s s1 : ServiceState) :
  deleteProduct id s = (Next tt, s1) ->
  (exists i stored,
     fst (getProductById id s) = Next stored
     /\ mockProducts s !! i = Some stored
     /\ mockProducts s1 = take i (mockProducts s) ++ drop (S i) (mockProducts s)
     /\ forall q, In q (take i (mockProducts s)) -> Product.id q <> id)
  /\ S (length (mockProducts s1)) = length (mockProducts s)
  /\ nextId s1 = nextId s
  /\ forall j p, j <> id ->
       (fst (getProductById j s1) = Next p <-> fst (getProductById j s) = Next p).
Proof.
  intros Hrun.
  destruct (deleteProduct_cases id s)
    as [(_ & e & He & _) | [(_ & _ & e & He & _)
       | (Hid & i & stored & Hidx & Hstored & Hsame & Hnext)]];
    try (rewrite He in Hrun; discriminate Hrun).
  rewrite Hnext in Hrun. injection Hrun as <-.
  cbn [mockProducts nextId setLoading productsSubject_next set_mockProducts delay].
  pose proof (lookup_lt_Some _ _ _ Hstored) as Hlt.
  split; [| split; [| split]].
  - exists i, stored. split; [| split; [exact Hstored | split]].
    + apply getProductById_Next_iff. split; [exact Hid |].
      rewrite find_findIndex, Hidx.
      destruct (Z.eqb_spec (Z.of_nat i) (-1)); [lia |]. rewrite Nat2Z.id. exact Hstored.
    + apply delete_take_drop.
    + intros q Hq Heq.
      assert (Hfirst : forall (l : list Product.t) (k : nat),
                 findIndex (fun p => Product.id p =? id) l = Z.of_nat k ->
                 forall q, In q (take k l) -> Product.id q <> id).
      { clear. induction l as [| a l IH]; intros k Hk q Hq.
        - destruct k; destruct Hq.
        - cbn [findIndex] in Hk.
          pose proof (findIndex_range (fun p => Product.id p =? id) l).
          destruct (Z.eqb_spec (Product.id a) id) as [Ha | Ha].
          + assert (k = 0%nat) by lia. subst k. destruct Hq.
          + destruct (Z.ltb_spec (findIndex (fun p => Product.id p =? id) l) 0); [lia |].
            destruct k as [| k]; [lia |]. cbn in Hq. destruct Hq as [<- | Hq]; [exact Ha |].
            apply (IH k); [lia | exact Hq]. }
      exact (Hfirst _ _ Hidx q Hq Heq).
  - rewrite length_delete by eauto. lia.
  - reflexivity.
  - intros j p Hj. rewrite !getProductById_Next_iff.
    cbn [mockProducts setLoading productsSubject_next set_mockProducts delay].
    rewrite (find_delete_other _ _ _ stored); [reflexivity | exact Hstored |].
    apply Z.eqb_neq. lia.
Qed.

Lemma deleteProduct_removes_one_witness :
  (exists i stored,
     fst (getProductById 3 bootState) = Next stored
     /\ mockProducts bootState !! i = Some stored
     /\ mockProducts (snd (deleteProduct 3 bootState))
        = take i (mockProducts bootState) ++ drop (S i) (mockProducts bootState)
     /\ forall q, In q (take i (mockProducts bootState)) -> Product.id q <> 3)
  /\ S (length (mockProducts (snd (deleteProduct 3 bootState))))
     = length (mockProducts bootState)
  /\ nextId (snd (deleteProduct 3 bootState)) = nextId bootState
  /\ forall j p, j <> 3 ->
       (fst (getProductById j (snd (deleteProduct 3 bootState))) = Next p
        <-> fst (getProductById j bootState) = Next p).
Proof.
  apply (deleteProduct_removes_one 3 bootState). vm_compute. reflexivity.
Defined.

(** ** The bus and the loading flag after an operation *)

(** X8. What the bus holds after an operation: after a successful create,
    update or delete the product list of the bus is the whole dataset as
    the operation left it; after a successful listing it is the page that
    was returned, not the dataset; a get never writes it. *)
Theorem bus_after_operation
    (toLowerCase : jsstring -> jsstring) (req : Request) (s : ServiceState) :
  let s' := snd (run toLowerCase req s) in
  match req, fst (run toLowerCase req s) with
  | (Create _ | Update _ _ | Delete _), Next _ => productsSubject s' = mockProducts s'
  | List _ _, Next (Page r) =>
      productsSubject s' = PaginatedResponse.data r /\ mockProducts s' = mockProducts s
  | Get _, _ => productsSubject s' = productsSubject s
  | _, _ => productsSubject s' = productsSubject s
  end.
Proof.
  cbn zeta. destruct req; cbn [run].
  - unfold getProducts.
    destruct (or_default (pagination ≫= PaginationParams.page) 1 <? 1);
      cbn; [reflexivity | split; reflexivity].
  - destruct (getProductById_cases id s)
      as [(_ & e & -> & _) | [(_ & _ & e & -> & _) | (_ & p & _ & ->)]]; reflexivity.
  - destruct (validateProductData productData false) as [| m errs] eqn:Hval.
    + destruct (createProduct_valid productData s Hval) as (p & -> & _). reflexivity.
    + rewrite createProduct_invalid by (rewrite Hval; discriminate). reflexivity.
  - destruct (updateProduct_cases id productData s)
      as [(_ & e & -> & _) | [(_ & _ & e & -> & _) | [(_ & _ & _ & e & -> & _)
         | (_ & _ & i & stored & _ & _ & _ & ->)]]]; reflexivity.
  - destruct (deleteProduct_cases id s)
      as [(_ & e & -> & _) | [(_ & _ & e & -> & _) | (_ & i & stored & _ & _ & _ & ->)]];
      reflexivity.
Qed.

(** X9. The loading flag after an operation: it is lowered after every
    success and after every structured failure; it stays raised exactly
    when the operation ended with a bare [Error], which is what a listing
    with a page below 1 does. *)
Theorem loading_after_operation
    (toLowerCase : jsstring -> jsstring) (req : Request) (s : ServiceState) :
  loadingSubject (snd (run toLowerCase req s))
  = match fst (run toLowerCase req s) with
    | Error (JsError _ _) => true
    | _ => false
    end
  /\ (forall name message,
        fst (run toLowerCase req s) = Error (JsError name message) ->
        exists filters pagination,
          req = List filters pagination
          /\ or_default (pagination ≫= PaginationParams.page) 1 < 1).
Proof.
  destruct req; cbn [run].
  - unfold getProducts.
    destruct (Z.ltb_spec (or_default (pagination ≫= PaginationParams.page) 1) 1);
      cbn; (split; [reflexivity |]); intros name message Hres;
      [eauto | discriminate Hres].
  - destruct (getProductById_cases id s)
      as [(_ & e & -> & _) | [(_ & _ & e & -> & _) | (_ & p & _ & ->)]];
      (split; [reflexivity | intros name message H; discriminate H]).
  - destruct (validateProductData productData false) as [| m errs] eqn:Hval.
    + destruct (createProduct_valid productData s Hval) as (p & -> & _).
      split; [reflexivity | intros name message H; discriminate H].
    + rewrite createProduct_invalid by (rewrite Hval; discriminate).
      split; [reflexivity | intros name message H; discriminate H].
  - destruct (updateProduct_cases id productData s)
      as [(_ & e & -> & _) | [(_ & _ & e & -> & _) | [(_ & _ & _ & e & -> & _)
         | (_ & _ & i & stored & _ & _ & _ & ->)]]];
      (split; [reflexivity | intros name message H; discriminate H]).
  - destruct (deleteProduct_cases id s)
      as [(_ & e & -> & _) | [(_ & _ & e & -> & _) | (_ & i & stored & _ & _ & _ & ->)]];
      (split; [reflexivity | intros name message H; discriminate H]).
Qed.


(** ** Ids are handed out in sequence *)

Lemma run_nextId toLowerCase req s r s1 :
  run toLowerCase req s = (r, s1) ->
  match req, r with
  | Create _, Next (One p) => Product.id p = nextId s /\ nextId s1 = nextId s + 1
  | Create _, Next _ => False
  | _, _ => nextId s1 = nextId s
  end.
Proof.
  destruct req; cbn [run].
  - unfold getProducts.
    destruct (or_default (pagination ≫= PaginationParams.page) 1 <? 1); cbn;
      intros H; injection H as <- <-; reflexivity.
  - destruct (getProductById_cases id s)
      as [(_ & e & -> & _) | [(_ & _ & e & -> & _) | (_ & p & _ & ->)]];
      intros H; injection H as <- <-; reflexivity.
  - destruct (createProduct productData s) as [[p | f] s0] eqn:Hrun; cbn [reply];
      intros H; injection H as <- <-.
    + destruct (createProduct_Next _ _ _ _ Hrun) as (_ & Hp & _ & _ & Hnext).
      split; [rewrite Hp; reflexivity | exact Hnext].
    + apply createProduct_failure in Hrun as (_ & _ & Hnext). exact Hnext.
  - destruct (updateProduct_cases id productData s)
      as [(_ & e & -> & _) | [(_ & _ & e & -> & _) | [(_ & _ & _ & e & -> & _)
         | (_ & _ & i & stored & _ & _ & _ & ->)]]];
      intros H; injection H as <- <-; reflexivity.
  - destruct (deleteProduct_cases id s)
      as [(_ & e & -> & _) | [(_ & _ & e & -> & _) | (_ & i & stored & _ & _ & _ & ->)]];
      intros H; injection H as <- <-; reflexivity.
Qed.

(** X10. Ids are sequential and never reused: whatever requests are served
    one after the other, listings, reads, updates and deletes included,
    failed or not, the products that the successful creates return carry
    the consecutive ids [nextId], [nextId + 1], ... in order, and the
    counter ends that many above where it started. *)
Theorem created_ids_are_sequential
    (toLowerCase : jsstring -> jsstring) (reqs : list Request) (s : ServiceState) :
  let ids := createdIds reqs (fst (runAll toLowerCase reqs s)) in
  ids = map (fun k => nextId s + Z.of_nat k) (seq 0 (length ids))
  /\ nextId (snd (runAll toLowerCase reqs s)) = nextId s + Z.of_nat (length ids).
Proof.
  cbn zeta. revert s. induction reqs as [| req reqs IH]; intros s.
  - cbn. split; [reflexivity | lia].
  - cbn [runAll].
    destruct (run toLowerCase req s) as [r s1] eqn:Hrun.
    specialize (IH s1). destruct (runAll toLowerCase reqs s1) as [rs s2].
    cbn [fst snd] in *. destruct IH as [IHids IHnext].
    pose proof (run_nextId toLowerCase req s r s1 Hrun) as Hnext.
    assert (Hshift : forall n, map (fun k => nextId s + 1 + Z.of_nat k) (seq 0 n)
                               = map (fun k => nextId s + Z.of_nat k) (seq 1 n)).
    { intros n. rewrite <- seq_shift, map_map. apply map_ext. intros k. lia. }
    destruct req; cbn [createdIds];
      try (rewrite Hnext in IHids, IHnext; split; [exact IHids | exact IHnext]).
    destruct r as [[r | p |] | f]; cbn [createdIds]; try contradiction;
      try (rewrite Hnext in IHids, IHnext; split; [exact IHids | exact IHnext]).
    destruct Hnext as [Hid Hnext]. rewrite Hnext in IHids, IHnext.
    cbn [length seq map]. rewrite Hid. split.
    + f_equal; [lia |]. rewrite <- Hshift. exact IHids.
    + lia.
Qed.

(** ** The pages partition the filtered set *)

Lemma slice_take_drop {A} (arr : list A) (start stop : Z) :
  0 <= start <= stop ->
  slice arr start stop = take (Z.to_nat (stop - start)) (drop (Z.to_nat start) arr).
Proof.
  intros Hrange. unfold slice.
  destruct (Z.ltb_spec start 0); [lia |]. destruct (Z.ltb_spec stop 0); [lia |].
  destruct (Z.le_gt_cases (Z.of_nat (length arr)) start) as [Hout | Hin].
  - rewrite !drop_ge by lia. rewrite !take_nil. reflexivity.
  - rewrite (Z.min_l start) by lia.
    destruct (Z.le_gt_cases stop (Z.of_nat (length arr))).
    + rewrite Z.min_l by lia. reflexivity.
    + rewrite Z.min_r by lia. rewrite !take_ge; [reflexivity | |];
        rewrite length_drop; lia.
Qed.

Lemma take_add_drop {A} (arr : list A) (n m : nat) :
  take (n + m) arr = take n arr ++ take m (drop n arr).
Proof.
  revert arr. induction n as [| n IH]; intros arr; [reflexivity |].
  destruct arr as [| x arr]; [rewrite drop_nil, !take_nil; reflexivity |].
  cbn. rewrite IH. reflexivity.
Qed.

Lemma blocks_take {A} (arr : list A) (size : Z) (n : nat) :
  1 <= size ->
  concat (map (fun k => slice arr ((Z.of_nat k - 1) * size)
                          ((Z.of_nat k - 1) * size + size)) (seq 1 n))
  = take (n * Z.to_nat size) arr.
Proof.
  intros Hsize. induction n as [| n IH]; [reflexivity |].
  rewrite seq_S, map_app, concat_app, IH. cbn [map concat Nat.add].
  rewrite app_nil_r, slice_take_drop by nia.
  replace (Z.to_nat ((Z.of_nat (S n) - 1) * size + size - (Z.of_nat (S n) - 1) * size))
    with (Z.to_nat size) by lia.
  replace (Z.to_nat ((Z.of_nat (S n) - 1) * size)) with (n * Z.to_nat size)%nat by nia.
  rewrite <- take_add_drop. f_equal. lia.
Qed.

Lemma fetchPages_data toLowerCase filters pageSize pages s :
  Forall (fun page => 1 <= page) pages -> pageSize <> 0 ->
  map pageData (fst (fetchPages toLowerCase filters pageSize pages s))
  = map (fun page =>
           slice (applyFilters toLowerCase filters (mockProducts s))
             ((page - 1) * pageSize) ((page - 1) * pageSize + pageSize)) pages
  /\ mockProducts (snd (fetchPages toLowerCase filters pageSize pages s))
     = mockProducts s.
Proof.
  intros Hpages Hsize. revert s.
  induction Hpages as [| page pages Hpage _ IH]; intros s; [split; reflexivity |].
  cbn [fetchPages].
  pose proof (getProducts_Next toLowerCase filters (paging page pageSize) s) as Hget.
  cbn zeta in Hget. unfold paging in *. cbn [mbind option_bind PaginationParams.page
    PaginationParams.pageSize] in Hget.
  rewrite !or_default_nonzero in Hget by lia. rewrite (Hget Hpage). clear Hget.
  match goal with |- context [fetchPages _ _ _ _ ?st] => specialize (IH st) end.
  destruct (fetchPages toLowerCase filters pageSize pages _) as [rs s2].
  cbn [fst snd map pageData PaginatedResponse.data] in *.
  destruct IH as [IHdata IHsame]. split; [rewrite IHdata | rewrite IHsame]; reflexivity.
Qed.

Lemma fetchPages_succeed toLowerCase filters pageSize pages s :
  Forall (fun page => 1 <= page) pages -> pageSize <> 0 ->
  Forall (fun n => failed n = false)
    (fst (fetchPages toLowerCase filters pageSize pages s)).
Proof.
  intros Hpages Hsize. revert s.
  induction Hpages as [| page pages Hpage _ IH]; intros s; [constructor |].
  cbn [fetchPages].
  pose proof (getProducts_Next toLowerCase filters (paging page pageSize) s) as Hget.
  cbn zeta in Hget. unfold paging in *. cbn [mbind option_bind PaginationParams.page
    PaginationParams.pageSize] in Hget.
  rewrite !or_default_nonzero in Hget by lia. rewrite (Hget Hpage). clear Hget.
  match goal with |- context [fetchPages _ _ _ _ ?st] => specialize (IH st) end.
  destruct (fetchPages toLowerCase filters pageSize pages _) as [rs s2].
  cbn [fst] in *. constructor; [reflexivity | exact IH].
Qed.

(** X11. The pages partition the filtered set: for a page size of at
    least 1, fetching the pages 1 to [totalPages] one after the other
    succeeds every time, page [k] being the [k]-th block of [pageSize]
    items of the filtered set, and the pages put end to end are the
    filtered set, every item once and in the order of the dataset; the
    dataset itself is left as it was. *)
Theorem pages_partition_filtered_set
    (toLowerCase : jsstring -> jsstring) (filters : option ProductFilter.t)
    (pageSize : Z) (s : ServiceState) :
  let filtered := applyFilters toLowerCase filters (mockProducts s) in
  let totalPages := ceil_div (Z.of_nat (length filtered)) pageSize in
  let fetched := fetchPages toLowerCase filters pageSize (pagesUpTo totalPages) s in
  1 <= pageSize ->
  Forall (fun n => failed n = false) (fst fetched)
  /\ map pageData (fst fetched)
     = map (fun page => take (Z.to_nat pageSize)
                          (drop (Z.to_nat ((page - 1) * pageSize)) filtered))
         (pagesUpTo totalPages)
  /\ concat (map pageData (fst fetched)) = filtered
  /\ mockProducts (snd fetched) = mockProducts s.
Proof.
  intros filtered totalPages fetched Hsize.
  assert (Hpages : Forall (fun page => 1 <= page) (pagesUpTo totalPages)).
  { unfold pagesUpTo. apply List.Forall_forall. intros page Hin.
    apply in_map_iff in Hin as (k & <- & Hk). apply in_seq in Hk. lia. }
  destruct (fetchPages_data toLowerCase filters pageSize (pagesUpTo totalPages) s
              Hpages ltac:(lia)) as [Hdata Hsame].
  fold filtered in Hdata. fold fetched in Hdata, Hsame.
  split; [| split; [| split; [| exact Hsame]]].
  - apply fetchPages_succeed; [exact Hpages | lia].
  - rewrite Hdata. apply map_ext_in. intros page Hin.
    rewrite List.Forall_forall in Hpages. specialize (Hpages page Hin).
    rewrite slice_take_drop by nia. f_equal. lia.
  - rewrite Hdata. unfold pagesUpTo. rewrite map_map.
    pose proof (ceil_div_bounds (Z.of_nat (length filtered)) pageSize ltac:(lia)) as Hceil.
    fold totalPages in Hceil.
    rewrite (blocks_take filtered pageSize (Z.to_nat totalPages) Hsize).
    apply take_ge. nia.
Qed.

Lemma pages_partition_filtered_set_witness :
  Forall (fun n => failed n = false)
    (fst (fetchPages (fun x => x) None 3 (pagesUpTo 3) bootState))
  /\ map pageData (fst (fetchPages (fun x => x) None 3 (pagesUpTo 3) bootState))
     = map (fun page => take 3 (drop (Z.to_nat ((page - 1) * 3)) seedProducts))
         (pagesUpTo 3)
  /\ concat (map pageData (fst (fetchPages (fun x => x) None 3 (pagesUpTo 3) bootState)))
     = seedProducts
  /\ mockProducts (snd (fetchPages (fun x => x) None 3 (pagesUpTo 3) bootState))
     = mockProducts bootState.
Proof.
  apply (pages_partition_filtered_set (fun x => x) None 3 bootState). lia.
Defined.


(** ** Validation of a patch against validation of a creation *)

Lemma fieldErrors_update_create rule data m :
  In m (fieldErrors true rule data) -> In m (fieldErrors false rule data).
Proof.
  destruct rule; unfold fieldErrors;
    [destruct (ProductData.name data) | destruct (ProductData.price data)
     | destruct (ProductData.category data) | ]; auto; intros [].
Qed.

(** X12. Validation of a patch is validation of a creation restricted to
    the fields the patch holds: every message reported for an update is
    reported for a creation with the same payload, a payload that holds a
    name, a price and a category gets exactly the same messages either
    way, and a patch holding none of name, price, category and
    description always passes. *)
Theorem update_validation_checks_present_fields (data : ProductData.t) :
  (forall m, In m (validateProductData data true) ->
             In m (validateProductData data false))
  /\ (is_Some (ProductData.name data) -> is_Some (ProductData.price data) ->
      is_Some (ProductData.category data) ->
      validateProductData data true = validateProductData data false)
  /\ (ProductData.name data = None -> ProductData.price data = None ->
      ProductData.category data = None -> ProductData.description data = None ->
      validateProductData data true = []).
Proof.
  split; [| split].
  - intros m. rewrite !validateProductData_blocks, !in_app_iff.
    intros [H | [H | [H | H]]]; auto using fieldErrors_update_create.
  - intros [n Hn] [p Hp] [c Hc]. rewrite !validateProductData_blocks.
    unfold fieldErrors. rewrite Hn, Hp, Hc. reflexivity.
  - intros Hn Hp Hc Hd. rewrite validateProductData_blocks.
    unfold fieldErrors. rewrite Hn, Hp, Hc, Hd. reflexivity.
Qed.

(** ** Price bounds *)

(** X13. The price bounds of a filter are inclusive: the listing for
    [{minPrice: lo, maxPrice: hi}] holds exactly the products of the
    dataset whose price is at least [lo] and at most [hi], a product
    priced at one of the bounds included; when [hi] is below [lo] it holds
    nothing. *)
Theorem price_bounds_are_inclusive
    (toLowerCase : jsstring -> jsstring) (lo hi : Q) (products : list Product.t) :
  (forall p, In p (applyFilters toLowerCase (priceBetween lo hi) products)
             <-> In p products /\ (lo <= Product.price p)%Q /\ (Product.price p <= hi)%Q)
  /\ ((hi < lo)%Q -> applyFilters toLowerCase (priceBetween lo hi) products = []).
Proof.
  assert (Hmem : forall p, In p (applyFilters toLowerCase (priceBetween lo hi) products)
             <-> In p products /\ (lo <= Product.price p)%Q /\ (Product.price p <= hi)%Q).
  { intros p. rewrite applyFilters_conjunction, filter_In.
    unfold matchesFilter, priceBetween. cbn [mbind option_bind ProductFilter.category
      ProductFilter.minPrice ProductFilter.maxPrice ProductFilter.active
      ProductFilter.search].
    rewrite !andb_true_r, andb_true_l, andb_true_iff, !Qle_bool_iff. tauto. }
  split; [exact Hmem |].
  intros Hinv. destruct (applyFilters toLowerCase (priceBetween lo hi) products)
    as [| p rest] eqn:E; [reflexivity |].
  exfalso. destruct (proj1 (Hmem p) (or_introl eq_refl)) as (_ & Hlo & Hhi).
  apply (Qlt_not_le _ _ Hinv). eapply Qle_trans; eassumption.
Qed.

(** ** The list view over the engine *)

Lemma dropWhile_idem {A} (f : A -> bool) (l : list A) :
  dropWhile f (dropWhile f l) = dropWhile f l.
Proof.
  induction l as [| x l IH]; [reflexivity |].
  cbn [dropWhile]. destruct (f x) eqn:Hx; [exact IH |].
  cbn [dropWhile]. rewrite Hx. reflexivity.
Qed.

Lemma dropWhile_head {A} (f : A -> bool) (l : list A) :
  match dropWhile f l with
  | [] => True
  | x :: _ => f x = false
  end.
Proof.
  induction l as [| x l IH]; [exact I |].
  cbn [dropWhile]. destruct (f x) eqn:Hx; [exact IH | exact Hx].
Qed.

Lemma dropWhile_app_last {A} (f : A -> bool) (l : list A) (x : A) :
  f x = false -> exists u, dropWhile f (l ++ [x]) = u ++ [x].
Proof.
  intros Hx. induction l as [| y l IH].
  - exists []. cbn. rewrite Hx. reflexivity.
  - cbn [app dropWhile]. destruct (f y).
    + exact IH.
    + exists (y :: l). reflexivity.
Qed.

Lemma dropWhile_trim (s : jsstring) :
  dropWhile isWhiteSpace (trim s) = trim s.
Proof.
  unfold trim.
  pose proof (dropWhile_head isWhiteSpace s) as Hhead.
  destruct (dropWhile isWhiteSpace s) as [| x l]; [reflexivity |].
  cbn [rev].
  destruct (dropWhile_app_last isWhiteSpace (rev l) x Hhead) as [u Hu].
  rewrite Hu, rev_app_distr. cbn [rev app dropWhile]. rewrite Hhead. reflexivity.
Qed.

Lemma trim_idem (s : jsstring) : trim (trim s) = trim s.
Proof.
  unfold trim at 1. rewrite dropWhile_trim.
  unfold trim. rewrite rev_involutive, dropWhile_idem. reflexivity.
Qed.

Lemma strlen_zero (s : jsstring) : (strlen s =? 0) = true <-> s = [].
Proof.
  unfold strlen. destruct s; cbn [length]; split; intros H;
    try reflexivity; try discriminate; lia.
Qed.

Lemma list_loadProducts_Next toLowerCase formValue c s :
  1 <= currentPage c ->
  let matching :=
    applyFilters toLowerCase (Some (buildFilters formValue)) (mockProducts s) in
  let page :=
    take 10 (drop (Z.to_nat ((currentPage c - 1) * 10)) matching) in
  list_loadProducts toLowerCase formValue c s
  = ({| products := map toRow page; loading := false;
        currentPage := currentPage c;
        totalItems := Z.of_nat (length matching);
        listToasts := listToasts c |},
     setLoading false
       (productsSubject_next page (delay API_DELAY (setLoading true s)))).
Proof.
  intros Hpage matching page. unfold list_loadProducts.
  pose proof (getProducts_Next toLowerCase (Some (buildFilters formValue))
    (Some (PaginationParams.mk (Some (currentPage c)) (Some list_pageSize))) s)
    as Hnext.
  cbn [mbind option_bind PaginationParams.page PaginationParams.pageSize] in Hnext.
  rewrite (or_default_nonzero (currentPage c)) in Hnext by lia.
  rewrite (or_default_nonzero list_pageSize) in Hnext by (unfold list_pageSize; lia).
  cbv zeta in Hnext. rewrite (Hnext Hpage). clear Hnext.
  unfold list_pageSize.
  rewrite slice_take_drop by lia.
  replace (Z.to_nat ((currentPage c - 1) * 10 + 10 - (currentPage c - 1) * 10))
    with 10%nat by lia.
  fold matching. fold page.
  unfold loadProducts, loadProducts_pipe, timeout, API_DELAY.
  reflexivity.
Qed.

(** X14. The list view shows the page of the engine: for a view on a
    page of at least 1, [loadProducts] over the engine fills the table
    with the rows of that page of the products matching the form (ten
    per page), sets [totalItems] to the number of matching products,
    lowers both loading flags, shows no toast and leaves the dataset as
    it is; the engine never takes long enough for the 5 s [timeout] of
    the view to fire. *)
Theorem list_view_shows_engine_page
    (toLowerCase : jsstring -> jsstring) (formValue : FilterForm.t)
    (c : ListComponent) (s : ServiceState) :
  1 <= currentPage c ->
  let matching :=
    List.filter (matchesFilter toLowerCase (Some (buildFilters formValue)))
      (mockProducts s) in
  let loaded := list_loadProducts toLowerCase formValue c s in
  map rowProduct (products (fst loaded))
    = take 10 (drop (Z.to_nat ((currentPage c - 1) * 10)) matching)
  /\ Forall (fun row => rowActive row = boolean_toString (Product.active (rowProduct row)))
       (products (fst loaded))
  /\ totalItems (fst loaded) = Z.of_nat (length matching)
  /\ currentPage (fst loaded) = currentPage c
  /\ loading (fst loaded) = false
  /\ listToasts (fst loaded) = listToasts c
  /\ loadingSubject (snd loaded) = false
  /\ productsSubject (snd loaded) = map rowProduct (products (fst loaded))
  /\ mockProducts (snd loaded) = mockProducts s.
Proof.
  intros Hpage matching loaded. subst loaded.
  rewrite (list_loadProducts_Next toLowerCase formValue c s Hpage).
  rewrite applyFilters_conjunction. fold matching.
  cbn [fst snd products loading currentPage totalItems listToasts].
  assert (Hrows : forall l, map rowProduct (map toRow l) = l).
  { intros l. rewrite map_map. cbn [toRow rowProduct]. apply map_id. }
  rewrite Hrows.
  repeat split.
  apply Forall_forall. intros row Hin. apply in_map_iff in Hin.
  destruct Hin as [p [Hrow _]]. subst row. reflexivity.
Qed.

Lemma list_view_shows_engine_page_witness :
  let loaded :=
    list_loadProducts (fun x => x) sampleForm newListComponent bootState in
  map (fun row => Product.id (rowProduct row)) (products (fst loaded)) = [1]
  /\ totalItems (fst loaded) = 1.
Proof.
  pose proof (list_view_shows_engine_page (fun x => x) sampleForm
                newListComponent bootState ltac:(cbn; lia)) as H.
  cbv zeta in H. destruct H as [Hrows [_ [Htotal _]]].
  split.
  - rewrite <- (map_map rowProduct Product.id), Hrows. vm_compute. reflexivity.
  - rewrite Htotal. vm_compute. reflexivity.
Defined.

Lemma ceil_div_nonneg (a b : Z) : 0 <= a -> 0 < b -> 0 <= ceil_div a b.
Proof.
  intros Ha Hb. pose proof (ceil_div_bounds a b Hb). nia.
Qed.

Lemma ceil_div_zero (a b : Z) : 0 <= a -> 0 < b -> ceil_div a b = 0 -> a = 0.
Proof.
  intros Ha Hb Hzero. pose proof (ceil_div_bounds a b Hb). nia.
Qed.

Lemma getTotalPages_spec (c : ListComponent) :
  0 <= totalItems c ->
  getTotalPages c = Z.max 1 (ceil_div (totalItems c) 10).
Proof.
  intros Hitems. unfold getTotalPages, list_pageSize.
  pose proof (ceil_div_nonneg (totalItems c) 10 Hitems ltac:(lia)).
  destruct (Z.eqb_spec (ceil_div (totalItems c) 10) 0); lia.
Qed.

Lemma take_drop_nonempty {A} (arr : list A) (n k : nat) :
  (0 < n)%nat -> (k < length arr)%nat -> take n (drop k arr) <> [].
Proof.
  intros Hn Hk Hnil.
  apply (f_equal (@length A)) in Hnil.
  rewrite length_take, length_drop in Hnil. cbn [length] in Hnil. lia.
Qed.

(** X15. The pager of the list view against the engine: after a load,
    [getTotalPages] is the engine's [totalPages], except that it is 1
    where the engine reports 0 pages (nothing matches); it is never below
    1; every page from 1 to [getTotalPages] that the view then asks for
    comes back with rows, unless nothing matches at all, and every page
    beyond comes back empty. *)
Theorem pager_agrees_with_engine
    (toLowerCase : jsstring -> jsstring) (formValue : FilterForm.t)
    (c : ListComponent) (s : ServiceState) :
  1 <= currentPage c ->
  let loaded := list_loadProducts toLowerCase formValue c s in
  let pages := getTotalPages (fst loaded) in
  1 <= pages
  /\ (forall response,
        fst (getProducts toLowerCase (Some (buildFilters formValue))
               (Some (PaginationParams.mk (Some (currentPage c)) (Some list_pageSize)))
               s) = Next response ->
        pages = Z.max 1 (PaginatedResponse.totalPages response)
        /\ (PaginatedResponse.totalPages response = 0
            <-> PaginatedResponse.totalItems response = 0))
  /\ (forall page,
        1 <= page <= pages -> totalItems (fst loaded) <> 0 ->
        products
          (fst (onPageChange toLowerCase formValue page (fst loaded) (snd loaded)))
        <> [])
  /\ (forall page,
        pages < page ->
        products
          (fst (onPageChange toLowerCase formValue page (fst loaded) (snd loaded)))
        = []).
Proof.
  intros Hpage loaded pages. subst pages loaded.
  rewrite (list_loadProducts_Next toLowerCase formValue c s Hpage).
  cbn [fst snd].
  set (matching := applyFilters toLowerCase (Some (buildFilters formValue))
                     (mockProducts s)).
  set (loaded := {| products := _; loading := false; currentPage := currentPage c;
                    totalItems := Z.of_nat (length matching);
                    listToasts := listToasts c |}).
  assert (Htotal : totalItems loaded = Z.of_nat (length matching)) by reflexivity.
  pose proof (getTotalPages_spec loaded ltac:(rewrite Htotal; lia)) as Hpages.
  rewrite Htotal in Hpages.
  pose proof (ceil_div_bounds (Z.of_nat (length matching)) 10 ltac:(lia)) as Hceil.
  pose proof (ceil_div_nonneg (Z.of_nat (length matching)) 10 ltac:(lia) ltac:(lia))
    as Hnonneg.
  assert (Hturn : forall page, 1 <= page ->
            products (fst (onPageChange toLowerCase formValue page loaded
                       (setLoading false
                          (productsSubject_next
                             (take 10 (drop (Z.to_nat ((currentPage c - 1) * 10)) matching))
                             (delay API_DELAY (setLoading true s))))))
            = map toRow (take 10 (drop (Z.to_nat ((page - 1) * 10)) matching))).
  { intros page Hge. unfold onPageChange.
    rewrite list_loadProducts_Next by (cbn; lia). reflexivity. }
  split; [lia |]. split; [| split].
  - intros response Hresponse.
    pose proof (getProducts_Next toLowerCase (Some (buildFilters formValue))
      (Some (PaginationParams.mk (Some (currentPage c)) (Some list_pageSize))) s)
      as Hnext.
    cbn [mbind option_bind PaginationParams.page PaginationParams.pageSize] in Hnext.
    rewrite (or_default_nonzero (currentPage c)) in Hnext by lia.
    rewrite (or_default_nonzero list_pageSize) in Hnext by (unfold list_pageSize; lia).
    cbv zeta in Hnext. rewrite (Hnext Hpage) in Hresponse. cbn [fst] in Hresponse.
    injection Hresponse as Hresponse. subst response.
    cbn [PaginatedResponse.totalPages PaginatedResponse.totalItems].
    fold matching. unfold list_pageSize.
    split; [exact Hpages |]. split; intros Hzero.
    + apply (ceil_div_zero _ 10); [lia | lia | exact Hzero].
    + rewrite Hzero. reflexivity.
  - intros page Hrange Hitems. rewrite Hturn by lia.
    rewrite Htotal in Hitems.
    intros Hnil. apply map_eq_nil in Hnil. revert Hnil.
    apply take_drop_nonempty; [lia |].
    assert (ceil_div (Z.of_nat (length matching)) 10 <> 0).
    { intros Hzero. apply Hitems. apply (ceil_div_zero _ 10); [lia | lia | exact Hzero]. }
    nia.
  - intros page Hbeyond. rewrite Hturn by lia.
    rewrite drop_ge; [reflexivity |]. nia.
Qed.

Lemma pager_agrees_with_engine_witness :
  getTotalPages
    (fst (list_loadProducts (fun x => x) FilterForm.cleared newListComponent bootState))
  = 1
  /\ products
       (fst (onPageChange (fun x => x) FilterForm.cleared 2
               (fst (list_loadProducts (fun x => x) FilterForm.cleared
                       newListComponent bootState))
               (snd (list_loadProducts (fun x => x) FilterForm.cleared
                       newListComponent bootState))))
     = [].
Proof.
  pose proof (pager_agrees_with_engine (fun x => x) FilterForm.cleared
                newListComponent bootState ltac:(cbn; lia)) as H.
  cbv zeta in H. destruct H as [_ [_ [_ Hbeyond]]].
  assert (Hpages : getTotalPages
            (fst (list_loadProducts (fun x => x) FilterForm.cleared
                    newListComponent bootState)) = 1)
    by (vm_compute; reflexivity).
  split; [exact Hpages |].
  apply Hbeyond. rewrite Hpages. lia.
Defined.

Lemma dropWhile_all {A} (f : A -> bool) (l : list A) :
  forallb f l = true -> dropWhile f l = [].
Proof.
  induction l as [| x l IH]; [reflexivity |].
  cbn [forallb dropWhile]. intros Hall. apply andb_true_iff in Hall.
  destruct Hall as [Hx Hall]. rewrite Hx. exact (IH Hall).
Qed.

Lemma trim_blank (s : jsstring) : forallb isWhiteSpace s = true -> trim s = [].
Proof.
  intros Hall. unfold trim. rewrite (dropWhile_all _ _ Hall). reflexivity.
Qed.

(** X16. The filter that the list view builds is sanitised, and the
    engine enforces every field of it: the search text is trimmed and
    not empty, the category is not empty, the price bounds are not
    negative, so a product passes the engine's filter exactly when it
    meets every field that is set (none is skipped as empty); white space
    around the search text makes no difference; and a form with a blank
    search text and no category, price or status gives the filter [{}],
    for which the engine lists the whole dataset. *)
Theorem buildFilters_sanitizes
    (toLowerCase : jsstring -> jsstring) (formValue : FilterForm.t) :
  let filters := buildFilters formValue in
  (forall q, ProductFilter.search filters = Some q -> q <> [] /\ trim q = q)
  /\ (forall c, ProductFilter.category filters = Some c -> c <> [])
  /\ (forall m, ProductFilter.minPrice filters = Some m -> (0 <= m)%Q)
  /\ (forall m, ProductFilter.maxPrice filters = Some m -> (0 <= m)%Q)
  /\ (forall p,
        matchesFilter toLowerCase (Some filters) p = true
        <-> (forall c, ProductFilter.category filters = Some c ->
               Product.category p = c)
            /\ (forall m, ProductFilter.minPrice filters = Some m ->
                  (m <= Product.price p)%Q)
            /\ (forall m, ProductFilter.maxPrice filters = Some m ->
                  (Product.price p <= m)%Q)
            /\ (forall a, ProductFilter.active filters = Some a ->
                  Product.active p = a)
            /\ (forall q, ProductFilter.search filters = Some q ->
                  includes (toLowerCase (Product.name p)) (toLowerCase q) = true
                  \/ exists d, Product.description p = Some d /\ d <> []
                       /\ includes (toLowerCase d) (toLowerCase q) = true))
  /\ (forall s,
        buildFilters
          (FilterForm.mk (Some (trim s)) (FilterForm.category formValue)
             (FilterForm.minPrice formValue) (FilterForm.maxPrice formValue)
             (FilterForm.active formValue))
        = buildFilters
            (FilterForm.mk (Some s) (FilterForm.category formValue)
               (FilterForm.minPrice formValue) (FilterForm.maxPrice formValue)
               (FilterForm.active formValue)))
  /\ (forall blank products,
        forallb isWhiteSpace blank = true ->
        buildFilters (FilterForm.mk (Some blank) (Some []) None None (Some []))
          = ProductFilter.empty
        /\ applyFilters toLowerCase (Some ProductFilter.empty) products = products).
Proof.
  intros filters.
  assert (Hsearch : forall q, ProductFilter.search filters = Some q ->
                      q <> [] /\ trim q = q).
  { subst filters. unfold buildFilters. cbn [ProductFilter.search].
    destruct (FilterForm.search formValue) as [s|]; [| discriminate].
    destruct (strlen (trim s) =? 0) eqn:Hlen; cbn [negb]; [discriminate |].
    intros q Hq. injection Hq as Hq. subst q. split.
    - intros Hnil. rewrite Hnil in Hlen. discriminate.
    - apply trim_idem. }
  assert (Hcategory : forall c, ProductFilter.category filters = Some c -> c <> []).
  { subst filters. unfold buildFilters. cbn [ProductFilter.category].
    destruct (FilterForm.category formValue) as [c0|]; [| discriminate].
    destruct (strlen c0 =? 0) eqn:Hlen; cbn [negb]; [discriminate |].
    intros c Hc. injection Hc as Hc. subst c.
    intros Hnil. rewrite Hnil in Hlen. discriminate. }
  split; [exact Hsearch |]. split; [exact Hcategory |].
  split; [| split; [| split; [| split]]].
  - subst filters. unfold buildFilters. cbn [ProductFilter.minPrice].
    destruct (FilterForm.minPrice formValue) as [m0|]; [| discriminate].
    destruct (Qle_bool 0 m0) eqn:Hle; [| discriminate].
    intros m Hm. injection Hm as Hm. subst m. apply Qle_bool_iff. exact Hle.
  - subst filters. unfold buildFilters. cbn [ProductFilter.maxPrice].
    destruct (FilterForm.maxPrice formValue) as [m0|]; [| discriminate].
    destruct (Qle_bool 0 m0) eqn:Hle; [| discriminate].
    intros m Hm. injection Hm as Hm. subst m. apply Qle_bool_iff. exact Hle.
  - intros p. unfold matchesFilter. cbn [mbind option_bind].
    rewrite !andb_true_iff.
    assert (Hc : match ProductFilter.category filters with
                 | Some c => (strlen c =? 0) || jsstring_eqb (Product.category p) c
                 | None => true
                 end = true
                 <-> forall c, ProductFilter.category filters = Some c ->
                       Product.category p = c).
    { destruct (ProductFilter.category filters) as [c|].
      - pose proof (Hcategory c eq_refl) as Hne.
        destruct (strlen c =? 0) eqn:Hlen;
          [apply strlen_zero in Hlen; contradiction |].
        cbn [orb]. unfold jsstring_eqb. rewrite bool_decide_eq_true.
        split; [intros Heq c' Hc'; injection Hc' as Hc'; subst c'; exact Heq
               | intros Hall; exact (Hall c eq_refl)].
      - split; [intros _ c Hc; discriminate | reflexivity]. }
    assert (Hlo : match ProductFilter.minPrice filters with
                  | Some m => Qle_bool m (Product.price p)
                  | None => true
                  end = true
                  <-> forall m, ProductFilter.minPrice filters = Some m ->
                        (m <= Product.price p)%Q).
    { destruct (ProductFilter.minPrice filters) as [m|].
      - rewrite Qle_bool_iff.
        split; [intros Hle m' Hm'; injection Hm' as Hm'; subst m'; exact Hle
               | intros Hall; exact (Hall m eq_refl)].
      - split; [intros _ m Hm; discriminate | reflexivity]. }
    assert (Hhi : match ProductFilter.maxPrice filters with
                  | Some m => Qle_bool (Product.price p) m
                  | None => true
                  end = true
                  <-> forall m, ProductFilter.maxPrice filters = Some m ->
                        (Product.price p <= m)%Q).
    { destruct (ProductFilter.maxPrice filters) as [m|].
      - rewrite Qle_bool_iff.
        split; [intros Hle m' Hm'; injection Hm' as Hm'; subst m'; exact Hle
               | intros Hall; exact (Hall m eq_refl)].
      - split; [intros _ m Hm; discriminate | reflexivity]. }
    assert (Ha : match ProductFilter.active filters with
                 | Some a => Bool.eqb (Product.active p) a
                 | None => true
                 end = true
                 <-> forall a, ProductFilter.active filters = Some a ->
                       Product.active p = a).
    { destruct (ProductFilter.active filters) as [a|].
      - rewrite eqb_true_iff.
        split; [intros Heq a' Ha'; injection Ha' as Ha'; subst a'; exact Heq
               | intros Hall; exact (Hall a eq_refl)].
      - split; [intros _ a Ha; discriminate | reflexivity]. }
    assert (Hq : match ProductFilter.search filters with
                 | Some q =>
                     (strlen q =? 0)
                     || includes (toLowerCase (Product.name p)) (toLowerCase q)
                     || match Product.description p with
                        | Some d => negb (strlen d =? 0)
                                    && includes (toLowerCase d) (toLowerCase q)
                        | None => false
                        end
                 | None => true
                 end = true
                 <-> forall q, ProductFilter.search filters = Some q ->
                       includes (toLowerCase (Product.name p)) (toLowerCase q) = true
                       \/ exists d, Product.description p = Some d /\ d <> []
                            /\ includes (toLowerCase d) (toLowerCase q) = true).
    { destruct (ProductFilter.search filters) as [q|].
      - destruct (Hsearch q eq_refl) as [Hne _].
        destruct (strlen q =? 0) eqn:Hlen;
          [apply strlen_zero in Hlen; contradiction |].
        cbn [orb]. rewrite orb_true_iff. split.
        + intros [Hname | Hdesc] q' Hq'; injection Hq' as Hq'; subst q'.
          * left. exact Hname.
          * right. destruct (Product.description p) as [d|]; [| discriminate].
            apply andb_true_iff in Hdesc. destruct Hdesc as [Hd Hinc].
            exists d. split; [reflexivity |]. split; [| exact Hinc].
            intros Hnil. subst d. discriminate.
        + intros Hall. destruct (Hall q eq_refl) as [Hname | [d [Hd [Hdne Hinc]]]].
          * left. exact Hname.
          * right. rewrite Hd. rewrite Hinc, andb_true_r.
            destruct (strlen d =? 0) eqn:Hdlen; [| reflexivity].
            apply strlen_zero in Hdlen. contradiction.
      - split; [intros _ q Hq; discriminate | reflexivity]. }
    rewrite Hc, Hlo, Hhi, Ha, Hq. tauto.
  - intros s. unfold buildFilters.
    cbn [FilterForm.search FilterForm.category FilterForm.minPrice
         FilterForm.maxPrice FilterForm.active].
    rewrite trim_idem. reflexivity.
  - intros blank products Hblank. split.
    + unfold buildFilters.
      cbn [FilterForm.search FilterForm.category FilterForm.minPrice
           FilterForm.maxPrice FilterForm.active].
      rewrite (trim_blank blank Hblank). reflexivity.
    + reflexivity.
Qed.

(** ** The retries of ProductApiService *)

Lemma text_samples :
  text "ação" = [97; 231; 227; 111]%N
  /\ text "Código" = [67; 243; 100; 105; 103; 111]%N
  /\ text "plain" = lit "plain".
Proof. vm_compute. repeat split. Qed.

Lemma retry_spec {A} (count : nat) (source : nat -> Signal A) (k : nat) :
  let run := Rx.retry count source k in
  exists n : nat,
    snd run = S (k + n) /\ (n <= count)%nat
    /\ (forall j, (j < n)%nat -> exists f, what (source (k + j)%nat) = Raised f)
    /\ what (fst run) = what (source (k + n)%nat)
    /\ at_ms (fst run)
       = fold_right Z.add 0 (map (fun j => at_ms (source (k + j)%nat)) (seq 0 (S n)))
    /\ ((exists f, what (fst run) = Raised f) -> n = count).
Proof.
  revert k. induction count as [| count IH]; intros k run; subst run.
  - exists 0%nat. cbn [Rx.retry].
    assert (Hrun : match what (source k) with
                   | Emitted _ | _ => (source k, S k)
                   end = (source k, S k)) by (destruct (what (source k)); reflexivity).
    rewrite Hrun. cbn [fst snd seq map fold_right]. rewrite Nat.add_0_r.
    repeat split; lia.
  - cbn [Rx.retry]. destruct (what (source k)) as [a | f] eqn:Hk.
    + exists 0%nat. cbn [fst snd seq map fold_right]. rewrite Nat.add_0_r.
      split; [lia |]. split; [lia |].
      split; [intros j Hj; lia |]. split; [reflexivity |].
      split; [lia |].
      intros [f Hf]. rewrite Hk in Hf. discriminate.
    + specialize (IH (S k)). cbv zeta in IH.
      destruct (Rx.retry count source (S k)) as [rest n'] eqn:Hrest.
      cbn [fst snd] in IH. destruct IH as [n [Hn [Hle [Hfail [Hwhat [Htime Hlast]]]]]].
      exists (S n). cbn [fst snd at_ms what].
      split; [lia |]. split; [lia |]. split; [| split; [| split]].
      * intros j Hj. destruct j as [| j].
        -- rewrite Nat.add_0_r. exists f. exact Hk.
        -- replace (k + S j)%nat with (S k + j)%nat by lia. apply Hfail. lia.
      * rewrite Hwhat. f_equal. f_equal. lia.
      * rewrite Htime.
        change (seq 0 (S (S n))) with (0%nat :: seq 1 (S n)).
        cbn [map fold_right]. rewrite Nat.add_0_r. f_equal.
        rewrite <- seq_shift, map_map. f_equal. apply map_ext. intros j.
        f_equal. f_equal. lia.
      * intros Hf. f_equal. apply Hlast. exact Hf.
Qed.

Lemma http_spec {A : Type} (count : nat) (answers : nat -> Exchange A) :
  let attempt := fun k => Rx.timeout environment.apiTimeout (request (answers k)) in
  let run := ProductApiService.http count answers in
  exists last : nat,
    snd run = S last /\ (last <= count)%nat
    /\ (forall k, (k < last)%nat -> exists f, what (attempt k) = Raised f)
    /\ what (fst run) = what (attempt last)
    /\ (forall f, what (fst run) = Raised f -> last = count)
    /\ at_ms (fst run)
       = fold_right Z.add 0 (map (fun k => at_ms (attempt k)) (seq 0 (S last)))
    /\ (forall k, what (attempt k) = Raised Rx.TimeoutError
                  <-> environment.apiTimeout < elapsed_ms (answers k)).
Proof.
  intros attempt run.
  destruct (retry_spec count attempt 0) as [n [Hn [Hle [Hfail [Hwhat [Htime Hlast]]]]]].
  exists n. fold run in Hn, Hfail, Hwhat, Htime, Hlast.
  split; [exact Hn |]. split; [exact Hle |]. split; [exact Hfail |].
  split; [exact Hwhat |].
  split; [intros f Hf; apply Hlast; exists f; exact Hf |].
  split; [exact Htime |].
  intros k. subst attempt. unfold Rx.timeout, request. cbv beta. cbn [at_ms].
  destruct (Z.ltb_spec environment.apiTimeout (elapsed_ms (answers k))); cbn [what].
  - split; [intros _; assumption | intros _; reflexivity].
  - split; [| lia]. destruct (answer (answers k)); discriminate.
Qed.


(** ** The list view over ProductApiService *)

Lemma sum_nonneg (l : list Z) :
  Forall (fun x => 0 <= x) l -> 0 <= fold_right Z.add 0 l.
Proof.
  induction 1 as [| x l Hx _ IH]; cbn [fold_right]; lia.
Qed.

Lemma sum_ge_element (l : list Z) (x : Z) :
  Forall (fun y => 0 <= y) l -> In x l -> x <= fold_right Z.add 0 l.
Proof.
  induction 1 as [| y l Hy Hall IH]; intros Hin; [destruct Hin |].
  pose proof (sum_nonneg l Hall). cbn [fold_right].
  destruct Hin as [Heq | Hin]; [subst; lia | specialize (IH Hin); lia].
Qed.

Lemma timeout_at_ms {A} (due : Z) (source : Signal A) :
  at_ms (Rx.timeout due source) = Z.min due (at_ms source).
Proof.
  unfold Rx.timeout. destruct (Z.ltb_spec due (at_ms source)); cbn [at_ms]; lia.
Qed.

Lemma loadProducts_late (elapsed : Z) (fetched : Notification PaginatedResponse.t)
    (c : ListComponent) :
  5000 < elapsed ->
  loadProducts elapsed fetched c
  = {| products := []; loading := false; currentPage := currentPage c;
       totalItems := 0;
       listToasts := listToasts c
         ++ [ToastError (lit "Tempo limite excedido ao carregar produtos")] |}.
Proof.
  intros Hlate. unfold loadProducts, loadProducts_pipe, timeout.
  destruct (Z.ltb_spec 5000 elapsed); [| lia].
  unfold loadProducts_catchError, TimeoutError. cbn [error_name].
  rewrite bool_decide_eq_true_2 by reflexivity. reflexivity.
Qed.

(** X18. The list view over ProductApiService, as the production
    environment wires it. The view waits 5 s, the service 30 s for each
    of up to three requests: whenever the first request takes more than
    5 s, or any request runs into the timeout of the service, the view
    has given up before the service ends; it empties the table and shows
    [Tempo limite excedido ao carregar produtos], so a call that the
    service ends with its own timeout never reaches the user as such.
    When the service ends within 5 s the view shows the page it fetched,
    or one toast with the message that [handleError] made of the failure
    and an empty table. *)
Theorem list_view_over_api_service
    (answers : nat -> Exchange PaginatedResponse.t)
    (s : ProductApiService.t) (c : ListComponent) :
  (forall k, 0 <= elapsed_ms (answers k)) ->
  let run := ProductApiService.http 2 answers in
  let fetched := fst (ProductApiService.getProducts answers s) in
  let view := loadProducts (at_ms (fst run)) fetched c in
  let gaveUp :=
    {| products := []; loading := false; currentPage := currentPage c;
       totalItems := 0;
       listToasts := listToasts c
         ++ [ToastError (lit "Tempo limite excedido ao carregar produtos")] |} in
  (5000 < elapsed_ms (answers 0%nat) -> view = gaveUp)
  /\ (forall k, (k < snd run)%nat ->
        environment.apiTimeout < elapsed_ms (answers k) -> view = gaveUp)
  /\ (what (fst run) = Raised Rx.TimeoutError -> view = gaveUp)
  /\ (at_ms (fst run) <= 5000 ->
      match fetched with
      | Next response =>
          view = {| products := map toRow (PaginatedResponse.data response);
                    loading := false; currentPage := currentPage c;
                    totalItems := PaginatedResponse.totalItems response;
                    listToasts := listToasts c |}
      | Error thrown =>
          view = {| products := []; loading := false; currentPage := currentPage c;
                    totalItems := 0;
                    listToasts := listToasts c
                      ++ [ToastError (lit "Erro ao carregar produtos: "
                                        ++ error_message thrown)] |}
          /\ error_name thrown = Some (lit "Error")
      end).
Proof.
  intros Hnonneg run fetched view gaveUp.
  destruct (http_spec 2 answers) as
    [last [Hn [Hle [Hfail [Hwhat [Hlast [Htime Htimeout]]]]]]].
  cbv zeta in *. fold run in Hn, Hwhat, Hlast, Htime.
  set (attempt := fun k => Rx.timeout environment.apiTimeout (request (answers k))) in *.
  assert (Hat : forall k, at_ms (attempt k)
                          = Z.min environment.apiTimeout (elapsed_ms (answers k))).
  { intros k. subst attempt. cbv beta. rewrite timeout_at_ms. reflexivity. }
  assert (Hall : Forall (fun x => 0 <= x)
                   (map (fun k => at_ms (attempt k)) (seq 0 (S last)))).
  { apply Forall_forall. intros x Hin. apply in_map_iff in Hin.
    destruct Hin as [k [Hx _]]. subst x. rewrite Hat.
    specialize (Hnonneg k). unfold environment.apiTimeout. lia. }
  assert (Hge : forall k, (k < snd run)%nat -> at_ms (attempt k) <= at_ms (fst run)).
  { intros k Hk. rewrite Htime. apply sum_ge_element; [exact Hall |].
    apply in_map_iff. exists k. split; [reflexivity |]. apply in_seq. lia. }
  assert (Hslow : forall k, (k < snd run)%nat ->
                    environment.apiTimeout < elapsed_ms (answers k) -> view = gaveUp).
  { intros k Hk Hlate. apply loadProducts_late.
    specialize (Hge k Hk). rewrite Hat in Hge.
    unfold environment.apiTimeout in *. lia. }
  split; [| split; [exact Hslow | split]].
  - intros Hlate. apply loadProducts_late.
    specialize (Hge 0%nat ltac:(lia)). rewrite Hat in Hge.
    unfold environment.apiTimeout in Hge. lia.
  - intros Hrun. apply (Hslow last); [lia |].
    apply Htimeout. rewrite <- Hwhat. exact Hrun.
  - intros Hfast. subst view fetched.
    unfold ProductApiService.getProducts. fold run.
    unfold loadProducts, loadProducts_pipe, timeout.
    destruct (Z.ltb_spec 5000 (at_ms (fst run))); [lia |].
    destruct (what (fst run)) as [response | f]; cbn [fst].
    + reflexivity.
    + split; [| reflexivity].
      unfold loadProducts_catchError, ProductApiService.handleError.
      cbn [error_name error_message].
      rewrite bool_decide_eq_false_2 by (vm_compute; discriminate).
      reflexivity.
Qed.

Lemma list_view_over_api_service_witness :
  products (loadProducts (at_ms (fst (ProductApiService.http 2 slowThenFast)))
              (fst (ProductApiService.getProducts slowThenFast ProductApiService.create))
              newListComponent) = []
  /\ listToasts
       (loadProducts (at_ms (fst (ProductApiService.http 2 slowThenFast)))
          (fst (ProductApiService.getProducts slowThenFast ProductApiService.create))
          newListComponent)
     = [ToastError (lit "Tempo limite excedido ao carregar produtos")].
Proof.
  assert (Hnonneg : forall k, 0 <= elapsed_ms (slowThenFast k))
    by (intros [| k]; cbn; lia).
  pose proof (list_view_over_api_service slowThenFast ProductApiService.create
                newListComponent Hnonneg) as H.
  cbv zeta in H. destruct H as [Hfirst _].
  rewrite (Hfirst ltac:(cbn; lia)). split; reflexivity.
Defined.

(** ** The messages of the error handlers *)

Lemma or_text_nonempty (x : option jsstring) (d : jsstring) :
  d <> [] -> or_text x d <> [].
Proof.
  intros Hd. unfold or_text. destruct x as [v|]; [| exact Hd].
  destruct (strlen v =? 0) eqn:Hlen; [exact Hd |].
  intros Hnil. subst v. discriminate.
Qed.

Lemma or_text_given (v d : jsstring) : v <> [] -> or_text (Some v) d = v.
Proof.
  intros Hv. unfold or_text. destruct (strlen v =? 0) eqn:Hlen; [| reflexivity].
  apply strlen_zero in Hlen. contradiction.
Qed.

Lemma app_nonempty_l {A} (l l' : list A) : l <> [] -> l ++ l' <> [].
Proof.
  intros Hl Hnil. apply app_eq_nil in Hnil. destruct Hnil. contradiction.
Qed.

Ltac nonempty :=
  first
    [ apply or_text_nonempty; nonempty
    | apply app_nonempty_l; nonempty
    | let H := fresh in intros H; vm_compute in H; discriminate H ].

(** X19. No error handler ever produces an empty message. [handleError]
    of ProductApiService, [handleError] of ProductService and the
    [friendlyMessage] of the interceptor give a text that is not empty
    for every failure; the two services throw an [Error] named [Error].
    The message that the server sent is shown only where it is not empty
    and the status is 400 or 422 (ProductApiService), 400, 409 or 422
    (interceptor), and never by ProductService; for every other status
    the text does not depend on the body. *)
Theorem error_messages_never_empty :
  (forall error,
     error_name (ProductApiService.handleError error) = Some (lit "Error")
     /\ error_message (ProductApiService.handleError error) <> [])
  /\ (forall error s,
        error_name (fst (ProductService.handleError error s)) = Some (lit "Error")
        /\ error_message (fst (ProductService.handleError error s)) <> [])
  /\ (forall error, HttpRequestInterceptor.friendlyMessage error <> [])
  /\ (forall status statusText message sent,
        sent <> [] ->
        let error :=
          HttpErrorResponse.mk status statusText message (ServerBody (Some sent)) in
        (status = 400 \/ status = 422 ->
         error_message (ProductApiService.handleError (HttpFailure error)) = sent)
        /\ (status = 400 \/ status = 409 \/ status = 422 ->
            HttpRequestInterceptor.friendlyMessage error = sent))
  /\ (forall status statusText message body body',
        let error := HttpErrorResponse.mk status statusText message (ServerBody body) in
        let error' := HttpErrorResponse.mk status statusText message (ServerBody body') in
        (status <> 400 -> status <> 422 ->
         ProductApiService.handleError (HttpFailure error)
         = ProductApiService.handleError (HttpFailure error'))
        /\ (forall s, ProductService.handleError (HttpFailure error) s
                      = ProductService.handleError (HttpFailure error') s)
        /\ (status <> 400 -> status <> 409 -> status <> 422 ->
            HttpRequestInterceptor.friendlyMessage error
            = HttpRequestInterceptor.friendlyMessage error')).
Proof.
  split; [| split; [| split; [| split]]].
  - intros error. split; [reflexivity |].
    unfold ProductApiService.handleError. cbn [error_message].
    destruct error as [e | name message]; [| nonempty].
    destruct (HttpErrorResponse.error e) as [m | m]; [nonempty |].
    cbv zeta.
    repeat match goal with
           | |- context [if ?b then _ else _] => destruct b
           end; nonempty.
  - intros error s. split; [reflexivity |].
    unfold ProductService.handleError. cbn [fst error_message].
    destruct error as [e | name message]; [| nonempty].
    destruct (HttpErrorResponse.error e) as [m | m]; [nonempty |].
    cbv zeta.
    repeat match goal with
           | |- context [if ?b then _ else _] => destruct b
           end; nonempty.
  - intros error. unfold HttpRequestInterceptor.friendlyMessage.
    destruct (HttpErrorResponse.error error) as [m | m]; [nonempty |].
    cbv zeta.
    repeat match goal with
           | |- context [if ?b then _ else _] => destruct b
           end; nonempty.
  - intros status statusText message sent Hsent error. subst error. split.
    + intros [Hs | Hs]; subst status;
        unfold ProductApiService.handleError;
        cbn [error_message HttpErrorResponse.error HttpErrorResponse.status Z.eqb];
        apply or_text_given; exact Hsent.
    + intros [Hs | [Hs | Hs]]; subst status;
        unfold HttpRequestInterceptor.friendlyMessage;
        cbn [HttpErrorResponse.error HttpErrorResponse.status Z.eqb];
        apply or_text_given; exact Hsent.
  - intros status statusText message body body' error error'. subst error error'.
    split; [| split].
    + intros H400 H422. unfold ProductApiService.handleError.
      cbn [HttpErrorResponse.error HttpErrorResponse.status HttpErrorResponse.message].
      destruct (Z.eqb_spec status 400); [contradiction |].
      destruct (Z.eqb_spec status 422); [contradiction |].
      reflexivity.
    + intros s. reflexivity.
    + intros H400 H409 H422. unfold HttpRequestInterceptor.friendlyMessage.
      cbn [HttpErrorResponse.error HttpErrorResponse.status HttpErrorResponse.statusText].
      destruct (Z.eqb_spec status 400); [contradiction |].
      destruct (Z.eqb_spec status 409); [contradiction |].
      destruct (Z.eqb_spec status 422); [contradiction |].
      reflexivity.
Qed.

(** ** The caches of the two HTTP services *)

Lemma http_first_answer {A} (count : nat) (answers : nat -> Exchange A) (body : A) :
  answer (answers 0%nat) = inl body ->
  elapsed_ms (answers 0%nat) <= environment.apiTimeout ->
  ProductApiService.http count answers
  = (mkSignal (elapsed_ms (answers 0%nat)) (Emitted body), 1%nat).
Proof.
  intros Hanswer Hfast. unfold ProductApiService.http.
  assert (Hfirst : Rx.timeout environment.apiTimeout (request (answers 0%nat))
                   = mkSignal (elapsed_ms (answers 0%nat)) (Emitted body)).
  { unfold Rx.timeout, request. cbn [at_ms]. rewrite Hanswer.
    destruct (Z.ltb_spec environment.apiTimeout (elapsed_ms (answers 0%nat)));
      [lia | reflexivity]. }
  destruct count as [| count]; cbn [Rx.retry]; rewrite Hfirst; reflexivity.
Qed.

Lemma http_no_retry {A} (answers : nat -> Exchange A) :
  ProductApiService.http 0 answers
  = (Rx.timeout environment.apiTimeout (request (answers 0%nat)), 1%nat).
Proof.
  unfold ProductApiService.http. cbn [Rx.retry].
  destruct (what (Rx.timeout environment.apiTimeout (request (answers 0%nat))));
    reflexivity.
Qed.

Lemma http_failed_answer {A} (answers : nat -> Exchange A) (error : HttpErrorResponse.t) :
  answer (answers 0%nat) = inr error ->
  exists f, what (fst (ProductApiService.http 0 answers)) = Raised f.
Proof.
  intros Hanswer. rewrite http_no_retry. cbn [fst].
  unfold Rx.timeout, request. cbn [at_ms]. rewrite Hanswer.
  destruct (environment.apiTimeout <? elapsed_ms (answers 0%nat)); cbn [what];
    eexists; reflexivity.
Qed.

Lemma findIndex_split {A} (f : A -> bool) (arr : list A) :
  findIndex f arr <> -1 ->
  exists before old after,
    arr = before ++ old :: after
    /\ length before = Z.to_nat (findIndex f arr)
    /\ f old = true
    /\ Forall (fun x => f x = false) before.
Proof.
  induction arr as [| x rest IH]; cbn [findIndex]; [congruence |].
  pose proof (findIndex_range f rest) as Hrange.
  destruct (f x) eqn:Hx.
  - intros _. exists [], x, rest.
    split; [reflexivity |]. split; [reflexivity |]. split; [exact Hx | constructor].
  - destruct (Z.ltb_spec (findIndex f rest) 0); [congruence |]. intros _.
    destruct IH as [before [old [after [Harr [Hlen [Hold Hbefore]]]]]]; [lia |].
    exists (x :: before), old, after. subst rest.
    split; [reflexivity |]. split; [cbn [length]; lia |].
    split; [exact Hold |]. constructor; assumption.
Qed.

Lemma insert_at_split {A} (before after : list A) (old y : A) :
  <[length before := y]> (before ++ old :: after) = before ++ y :: after.
Proof.
  induction before as [| x before IH]; [reflexivity |].
  cbn. f_equal. exact IH.
Qed.

(** X20. ProductService and ProductApiService keep the same cache. From
    caches that agree, a request that the server answers in time leaves
    both services with the same notification and caches that agree
    again, ProductService reading the payload out of the [ApiResponse]
    envelope and ProductApiService taking the body as it is: a listing
    replaces the cache by its page, a creation appends the product, an
    update replaces the first cached product of that id and does nothing
    when there is none, a deletion removes every cached product of that
    id. A mutation that the server refuses leaves both caches as they
    were, is sent once by ProductApiService, and ProductService has
    lowered its loading flag in every case. *)
Theorem http_services_keep_same_cache
    (api : ProductApiService.t) (svc : ProductService.t) :
  ProductApiService.productsSubject api = ProductService.productsSubject svc ->
  let cache := ProductService.productsSubject svc in
  let inTime := fun (A : Type) (answers : nat -> Exchange A) (body : A) =>
    answer (answers 0%nat) = inl body
    /\ elapsed_ms (answers 0%nat) <= environment.apiTimeout in
  (forall answers response,
     inTime _ answers response ->
     ProductApiService.getProducts answers api
       = (Next response, ProductApiService.mk (PaginatedResponse.data response))
     /\ ProductService.getProducts (inl response) svc
        = (Next response, ProductService.mk (PaginatedResponse.data response) false))
  /\ (forall answers envelope,
        inTime _ answers (ApiResponse.data envelope) ->
        ProductApiService.createProduct answers api
          = (Next (ApiResponse.data envelope),
             ProductApiService.mk (cache ++ [ApiResponse.data envelope]))
        /\ ProductService.createProduct (inl envelope) svc
           = (Next (ApiResponse.data envelope),
              ProductService.mk (cache ++ [ApiResponse.data envelope]) false))
  /\ (forall id answers envelope,
        inTime _ answers (ApiResponse.data envelope) ->
        exists cache',
          ProductApiService.updateProduct id answers api
            = (Next (ApiResponse.data envelope), ProductApiService.mk cache')
          /\ ProductService.updateProduct id (inl envelope) svc
             = (Next (ApiResponse.data envelope), ProductService.mk cache' false)
          /\ length cache' = length cache
          /\ match List.find (fun p => Product.id p =? id) cache with
             | Some _ =>
                 exists before after old,
                   cache = before ++ old :: after
                   /\ cache' = before ++ ApiResponse.data envelope :: after
                   /\ Product.id old = id
                   /\ Forall (fun p => Product.id p <> id) before
             | None => cache' = cache
             end)
  /\ (forall id answers,
        inTime _ answers tt ->
        exists cache',
          ProductApiService.deleteProduct id answers api
            = (Next tt, ProductApiService.mk cache')
          /\ ProductService.deleteProduct id (inl tt) svc
             = (Next tt, ProductService.mk cache' false)
          /\ (forall p, In p cache' <-> In p cache /\ Product.id p <> id))
  /\ (forall id (answers : nat -> Exchange Product.t)
             (removals : nat -> Exchange unit) error,
        answer (answers 0%nat) = inr error ->
        answer (removals 0%nat) = inr error ->
        snd (ProductApiService.createProduct answers api) = api
        /\ snd (ProductApiService.updateProduct id answers api) = api
        /\ snd (ProductApiService.deleteProduct id removals api) = api
        /\ failed (fst (ProductApiService.createProduct answers api)) = true
        /\ failed (fst (ProductApiService.updateProduct id answers api)) = true
        /\ failed (fst (ProductApiService.deleteProduct id removals api)) = true
        /\ snd (ProductApiService.http 0 answers) = 1%nat
        /\ snd (ProductService.createProduct (inr error) svc)
           = ProductService.mk cache false
        /\ snd (ProductService.updateProduct id (inr error) svc)
           = ProductService.mk cache false
        /\ snd (ProductService.deleteProduct id (inr error) svc)
           = ProductService.mk cache false).
Proof.
  intros Hagree cache inTime. subst inTime. cbv beta.
  destruct api as [apiCache]. cbn [ProductApiService.productsSubject] in Hagree.
  subst apiCache. fold cache.
  split; [| split; [| split; [| split]]].
  - intros answers response [Hanswer Hfast]. split; [| reflexivity].
    unfold ProductApiService.getProducts.
    rewrite (http_first_answer 2 answers response Hanswer Hfast). reflexivity.
  - intros answers envelope [Hanswer Hfast]. split; [| reflexivity].
    unfold ProductApiService.createProduct.
    rewrite (http_first_answer 0 answers _ Hanswer Hfast). reflexivity.
  - intros id answers envelope [Hanswer Hfast].
    unfold ProductApiService.updateProduct, ProductService.updateProduct.
    rewrite (http_first_answer 0 answers _ Hanswer Hfast).
    cbn [fst what ProductApiService.productsSubject ProductService.productsSubject
         ProductService.setLoading].
    fold cache.
    pose proof (find_findIndex (fun p => Product.id p =? id) cache) as Hfind.
    pose proof (findIndex_range (fun p => Product.id p =? id) cache) as Hrange.
    destruct (Z.eqb_spec (findIndex (fun p => Product.id p =? id) cache) (-1))
      as [Habsent | Hpresent]; cbn [negb].
    + exists cache. rewrite Hfind. repeat split; reflexivity.
    + set (index := findIndex (fun p => Product.id p =? id) cache) in *.
      exists (<[Z.to_nat index := ApiResponse.data envelope]> cache).
      split; [reflexivity |]. split; [reflexivity |].
      split; [apply length_insert |].
      rewrite Hfind.
      destruct (findIndex_split (fun p => Product.id p =? id) cache Hpresent)
        as [before [old [after [Hcache [Hlen [Hold Hbefore]]]]]].
      fold index in Hlen.
      assert (Hlookup : cache !! Z.to_nat index = Some old).
      { rewrite Hcache, <- Hlen. apply list_lookup_middle. reflexivity. }
      rewrite Hlookup.
      exists before, after, old.
      split; [exact Hcache |].
      split; [rewrite <- Hlen; rewrite Hcache at 1; apply insert_at_split |].
      split; [apply Z.eqb_eq; exact Hold |].
      eapply List.Forall_impl; [| exact Hbefore].
      intros p Hp. cbv beta in Hp. apply Z.eqb_neq. exact Hp.
  - intros id answers [Hanswer Hfast].
    exists (List.filter (fun p => negb (Product.id p =? id)) cache).
    split; [| split; [reflexivity |]].
    + unfold ProductApiService.deleteProduct.
      rewrite (http_first_answer 0 answers _ Hanswer Hfast). reflexivity.
    + intros p. rewrite List.filter_In, negb_true_iff, Z.eqb_neq. reflexivity.
  - intros id answers removals error Hanswer Hremoval.
    destruct (http_failed_answer answers error Hanswer) as [f Hf].
    destruct (http_failed_answer removals error Hremoval) as [g Hg].
    unfold ProductApiService.createProduct, ProductApiService.updateProduct,
      ProductApiService.deleteProduct.
    rewrite Hf, Hg. rewrite http_no_retry.
    repeat split.
Qed.

Lemma http_services_keep_same_cache_witness :
  ProductApiService.getProducts promptServer ProductApiService.create
    = (Next emptyPage, ProductApiService.mk [])
  /\ ProductService.getProducts (inl emptyPage) ProductService.create
     = (Next emptyPage, ProductService.mk [] false).
Proof.
  destruct (http_services_keep_same_cache ProductApiService.create
              ProductService.create eq_refl) as [Hlist _].
  apply (Hlist promptServer emptyPage). split; [reflexivity |].
  unfold promptServer, environment.apiTimeout. cbn [elapsed_ms]. lia.
Defined.

(** X24. ProductService never leaves its loading flag raised: after
    each of its five requests, whatever the server answers, the flag is
    lowered; a request that fails leaves the cache as it was, reading a
    product leaves it as it was in every case, and [loadProducts]
    replaces the cache by the page it fetched and empties it when the
    fetch fails. *)
Theorem product_service_settles (s : ProductService.t) :
  (forall answer,
     ProductService.loadingSubject (snd (ProductService.getProducts answer s)) = false
     /\ ProductService.loadingSubject (ProductService.loadProducts answer s) = false
     /\ ProductService.productsSubject (ProductService.loadProducts answer s)
        = match answer with
          | inl response => PaginatedResponse.data response
          | inr _ => []
          end)
  /\ (forall answer,
        ProductService.loadingSubject (snd (ProductService.getProductById answer s))
          = false
        /\ ProductService.productsSubject (snd (ProductService.getProductById answer s))
           = ProductService.productsSubject s
        /\ ProductService.loadingSubject (snd (ProductService.createProduct answer s))
           = false)
  /\ (forall id answer,
        ProductService.loadingSubject (snd (ProductService.updateProduct id answer s))
          = false)
  /\ (forall id answer,
        ProductService.loadingSubject (snd (ProductService.deleteProduct id answer s))
          = false)
  /\ (forall id error,
        let unchanged := ProductService.mk (ProductService.productsSubject s) false in
        snd (ProductService.getProducts (inr error) s) = unchanged
        /\ snd (ProductService.getProductById (inr error) s) = unchanged
        /\ snd (ProductService.createProduct (inr error) s) = unchanged
        /\ snd (ProductService.updateProduct id (inr error) s) = unchanged
        /\ snd (ProductService.deleteProduct id (inr error) s) = unchanged
        /\ failed (fst (ProductService.getProducts (inr error) s)) = true
        /\ failed (fst (ProductService.getProductById (inr error) s)) = true
        /\ failed (fst (ProductService.createProduct (inr error) s)) = true
        /\ failed (fst (ProductService.updateProduct id (inr error) s)) = true
        /\ failed (fst (ProductService.deleteProduct id (inr error) s)) = true).
Proof.
  split; [| split; [| split; [| split]]].
  - intros [response | error]; repeat split.
  - intros [response | error]; repeat split.
  - intros id [response | error]; [| reflexivity].
    unfold ProductService.updateProduct.
    destruct (negb (findIndex _ _ =? -1)); reflexivity.
  - intros id [[] | error]; reflexivity.
  - intros id error unchanged. repeat split.
Qed.

(** ** The query parameters *)

Lemma lookup_set_param_eq (name : string) (value : option jsstring)
    (params : gmap.gmap string jsstring) :
  set_param name value params !! name
  = match value with Some v => Some v | None => params !! name end.
Proof.
  destruct value as [v|]; [apply fin_maps.lookup_insert_eq | reflexivity].
Qed.

Lemma lookup_set_param_ne (name key : string) (value : option jsstring)
    (params : gmap.gmap string jsstring) :
  name <> key -> set_param name value params !! key = params !! key.
Proof.
  intros Hne. destruct value as [v|]; [| reflexivity].
  apply fin_maps.lookup_insert_ne. exact Hne.
Qed.

Lemma lookup_no_param (key : string) :
  (∅ : gmap.gmap string jsstring) !! key = None.
Proof. apply fin_maps.lookup_empty. Qed.

Ltac lookup_key :=
  repeat first
    [ rewrite lookup_set_param_eq
    | rewrite lookup_set_param_ne by congruence ];
  rewrite ?lookup_no_param.

Lemma params_order (page pageSize search category minPrice maxPrice active
                    : option jsstring) :
  set_param "active" active
    (set_param "maxPrice" maxPrice
       (set_param "minPrice" minPrice
          (set_param "category" category
             (set_param "search" search
                (set_param "pageSize" pageSize
                   (set_param "page" page ∅))))))
  = set_param "pageSize" pageSize
      (set_param "page" page
         (set_param "search" search
            (set_param "active" active
               (set_param "maxPrice" maxPrice
                  (set_param "minPrice" minPrice
                     (set_param "category" category ∅)))))).
Proof.
  apply fin_maps.map_eq. intros k.
  destruct (decide (k = "page"%string)) as [-> | Hpage]; [lookup_key; reflexivity |].
  destruct (decide (k = "pageSize"%string)) as [-> | HpageSize];
    [lookup_key; reflexivity |].
  destruct (decide (k = "search"%string)) as [-> | Hsearch];
    [lookup_key; reflexivity |].
  destruct (decide (k = "category"%string)) as [-> | Hcategory];
    [lookup_key; reflexivity |].
  destruct (decide (k = "minPrice"%string)) as [-> | HminPrice];
    [lookup_key; reflexivity |].
  destruct (decide (k = "maxPrice"%string)) as [-> | HmaxPrice];
    [lookup_key; reflexivity |].
  destruct (decide (k = "active"%string)) as [-> | Hactive];
    [lookup_key; reflexivity |].
  lookup_key. reflexivity.
Qed.

Lemma truthy_given (v : jsstring) : v <> [] -> truthy (Some v) = Some v.
Proof.
  intros Hv. unfold truthy. destruct (strlen v =? 0) eqn:Hlen; [| reflexivity].
  apply strlen_zero in Hlen. contradiction.
Qed.

(** X21. The query of a listing, as the two HTTP services send it. Both
    send [page] and [pageSize], the category, the price bounds, the
    status and the search text under the same names, and the same
    parameters altogether whenever the page and the page size are not 0,
    no price bound is 0 and the search text has no white space around
    it (which holds for every filter that the list view builds). They
    differ otherwise: ProductService leaves out a page, a page size or a
    price bound of 0, which ProductApiService sends, and sends the search
    text as it is, which ProductApiService trims, leaving it out when
    nothing but white space remains. *)
Theorem query_parameters_of_both_services
    (price_toString : Q -> jsstring) (filters : ProductFilter.t)
    (page pageSize : Z) :
  let api :=
    ProductApiService.getProducts_params price_toString (Some filters)
      (Some (ProductApiService.PaginationParams.mk page pageSize)) in
  let svc :=
    ProductService.getProducts_params price_toString (Some filters)
      (Some (PaginationParams.mk (Some page) (Some pageSize))) in
  (page <> 0 -> pageSize <> 0 ->
   (forall m, ProductFilter.minPrice filters = Some m -> ~ (m == 0)%Q) ->
   (forall m, ProductFilter.maxPrice filters = Some m -> ~ (m == 0)%Q) ->
   (forall q, ProductFilter.search filters = Some q -> trim q = q) ->
   api = svc)
  /\ api !! "page"%string = Some (number_toString page)
  /\ api !! "pageSize"%string = Some (number_toString pageSize)
  /\ (page = 0 -> svc !! "page"%string = None)
  /\ (pageSize = 0 -> svc !! "pageSize"%string = None)
  /\ (forall m, ProductFilter.minPrice filters = Some m -> (m == 0)%Q ->
        api !! "minPrice"%string = Some (price_toString m)
        /\ svc !! "minPrice"%string = None)
  /\ (forall m, ProductFilter.maxPrice filters = Some m -> (m == 0)%Q ->
        api !! "maxPrice"%string = Some (price_toString m)
        /\ svc !! "maxPrice"%string = None)
  /\ (forall q, ProductFilter.search filters = Some q -> trim q <> [] ->
        api !! "search"%string = Some (trim q)
        /\ svc !! "search"%string = Some q)
  /\ (forall q, ProductFilter.search filters = Some q -> q <> [] -> trim q = [] ->
        api !! "search"%string = None
        /\ svc !! "search"%string = Some q).
Proof.
  intros api svc. subst api svc.
  unfold ProductApiService.getProducts_params, ProductService.getProducts_params.
  cbn [mbind option_bind PaginationParams.page PaginationParams.pageSize
       ProductApiService.PaginationParams.page
       ProductApiService.PaginationParams.pageSize].
  split; [| split; [| split; [| split; [| split; [| split; [| split; [| split]]]]]]].
  - intros Hpage HpageSize Hmin Hmax Hsearch.
    rewrite params_order. unfold ProductService.truthy_number.
    destruct (Z.eqb_spec page 0); [contradiction |].
    destruct (Z.eqb_spec pageSize 0); [contradiction |].
    cbn [negb option_map].
    assert (Hq : option_map trim (ProductFilter.search filters)
                 = ProductFilter.search filters).
    { destruct (ProductFilter.search filters) as [q|]; [| reflexivity].
      cbn [option_map]. rewrite (Hsearch q eq_refl). reflexivity. }
    rewrite Hq.
    assert (Hlo : match ProductFilter.minPrice filters with
                  | Some v => if negb (Qeq_bool v 0) then Some v else None
                  | None => None
                  end = ProductFilter.minPrice filters).
    { destruct (ProductFilter.minPrice filters) as [m|]; [| reflexivity].
      destruct (Qeq_bool m 0) eqn:Hm; [| reflexivity].
      apply Qeq_bool_iff in Hm. destruct (Hmin m eq_refl Hm). }
    assert (Hhi : match ProductFilter.maxPrice filters with
                  | Some v => if negb (Qeq_bool v 0) then Some v else None
                  | None => None
                  end = ProductFilter.maxPrice filters).
    { destruct (ProductFilter.maxPrice filters) as [m|]; [| reflexivity].
      destruct (Qeq_bool m 0) eqn:Hm; [| reflexivity].
      apply Qeq_bool_iff in Hm. destruct (Hmax m eq_refl Hm). }
    rewrite Hlo, Hhi. reflexivity.
  - lookup_key. reflexivity.
  - lookup_key. reflexivity.
  - intros ->. lookup_key. reflexivity.
  - intros ->. lookup_key. reflexivity.
  - intros m Hm Hzero. rewrite Hm. apply Qeq_bool_iff in Hzero.
    split; lookup_key; cbn [option_map ProductService.truthy_number];
      rewrite ?Hzero; reflexivity.
  - intros m Hm Hzero. rewrite Hm. apply Qeq_bool_iff in Hzero.
    split; lookup_key; cbn [option_map ProductService.truthy_number];
      rewrite ?Hzero; reflexivity.
  - intros q Hq Htrim. rewrite Hq.
    assert (Hne : q <> []) by (intros ->; apply Htrim; reflexivity).
    split; lookup_key; cbn [option_map]; rewrite truthy_given by assumption;
      reflexivity.
  - intros q Hq Hne Htrim. rewrite Hq.
    split; lookup_key; cbn [option_map].
    + rewrite Htrim. reflexivity.
    + rewrite truthy_given by assumption. reflexivity.
Qed.

(** ** The loading counter *)

Lemma howMany_cons (f : LoadingService.Call -> bool) (c : LoadingService.Call)
    (calls : list LoadingService.Call) :
  howMany f (c :: calls) = (if f c then 1 else 0) + howMany f calls.
Proof.
  unfold howMany. cbn [List.filter]. destruct (f c); cbn [length]; lia.
Qed.

Lemma afterCalls_invariant (calls : list LoadingService.Call) (l : LoadingService.t) :
  0 <= LoadingService.requestCount l ->
  LoadingService.isLoadingSubject l = (0 <? LoadingService.requestCount l) ->
  0 <= LoadingService.requestCount (afterCalls calls l)
  /\ LoadingService.isLoadingSubject (afterCalls calls l)
     = (0 <? LoadingService.requestCount (afterCalls calls l))
  /\ LoadingService.requestCount (afterCalls calls l)
     <= LoadingService.requestCount l + howMany isStart calls.
Proof.
  revert l. induction calls as [| c calls IH]; intros l Hcount Hflag.
  - unfold howMany. cbn. split; [exact Hcount |]. split; [exact Hflag | lia].
  - unfold afterCalls. cbn [fold_left]. fold (afterCalls calls (LoadingService.call l c)).
    rewrite howMany_cons.
    destruct c; cbn [LoadingService.call isStart].
    + destruct (IH (LoadingService.startLoading l)) as [H1 [H2 H3]];
        [cbn; lia | reflexivity |].
      split; [exact H1 |]. split; [exact H2 |].
      cbn [LoadingService.startLoading LoadingService.updateLoadingState
           LoadingService.requestCount] in H3. lia.
    + destruct (IH (LoadingService.stopLoading l)) as [H1 [H2 H3]];
        [cbn; lia | reflexivity |].
      split; [exact H1 |]. split; [exact H2 |].
      cbn [LoadingService.stopLoading LoadingService.updateLoadingState
           LoadingService.requestCount] in H3. lia.
    + destruct (IH (LoadingService.reset l)) as [H1 [H2 H3]];
        [cbn; lia | reflexivity |].
      split; [exact H1 |]. split; [exact H2 |].
      cbn [LoadingService.reset LoadingService.requestCount] in H3. lia.
Qed.

Lemma afterCalls_balanced (calls : list LoadingService.Call) (l : LoadingService.t) :
  0 <= LoadingService.requestCount l ->
  howMany isReset calls = 0 ->
  (forall n, howMany isStop (take n calls)
             <= LoadingService.requestCount l + howMany isStart (take n calls)) ->
  LoadingService.requestCount (afterCalls calls l)
  = LoadingService.requestCount l + howMany isStart calls - howMany isStop calls.
Proof.
  revert l. induction calls as [| c calls IH]; intros l Hcount Hreset Hprefix.
  - unfold howMany. cbn. lia.
  - unfold afterCalls. cbn [fold_left]. fold (afterCalls calls (LoadingService.call l c)).
    rewrite !howMany_cons. rewrite howMany_cons in Hreset.
    pose proof (Hprefix 1%nat) as Hfirst.
    cbn [take] in Hfirst. rewrite take_0, !howMany_cons in Hfirst.
    unfold howMany in Hfirst. cbn [List.filter length Z.of_nat] in Hfirst.
    assert (Hrest : forall l',
              (forall n, howMany isStop (take n calls)
                         <= LoadingService.requestCount l' + howMany isStart (take n calls))
              -> 0 <= LoadingService.requestCount l' ->
              (if isReset c then 1 else 0) = 0 ->
              LoadingService.requestCount (afterCalls calls l')
              = LoadingService.requestCount l' + howMany isStart calls
                - howMany isStop calls).
    { intros l' Hp Hc Hr. apply IH; [exact Hc | | exact Hp].
      unfold howMany in *. destruct (isReset c); lia. }
    assert (Hnonneg : 0 <= howMany isReset calls) by (unfold howMany; lia).
    destruct c; cbn [LoadingService.call isStart isStop isReset] in *.
    + rewrite Hrest; [| | cbn; lia | reflexivity].
      * cbn [LoadingService.startLoading LoadingService.updateLoadingState
             LoadingService.requestCount]. lia.
      * intros n. specialize (Hprefix (S n)). cbn [take] in Hprefix.
        rewrite !howMany_cons in Hprefix. cbn [isStart isStop] in Hprefix.
        cbn [LoadingService.startLoading LoadingService.updateLoadingState
             LoadingService.requestCount]. lia.
    + rewrite Hrest; [| | cbn; lia | reflexivity].
      * cbn [LoadingService.stopLoading LoadingService.updateLoadingState
             LoadingService.requestCount]. lia.
      * intros n. specialize (Hprefix (S n)). cbn [take] in Hprefix.
        rewrite !howMany_cons in Hprefix. cbn [isStart isStop] in Hprefix.
        cbn [LoadingService.stopLoading LoadingService.updateLoadingState
             LoadingService.requestCount]. lia.
    + lia.
Qed.

(** X22. The loading counter. Whatever calls of [startLoading],
    [stopLoading] and [reset] the service takes from its construction on,
    the counter is never negative and never above the number of starts,
    and the flag it publishes is raised exactly when the counter is above
    0. When no prefix of the calls holds more stops than starts and
    there is no reset, the counter is the number of starts minus the
    number of stops, so the flag falls exactly when every request that
    was started has ended; a stop that has no start is absorbed, and does
    not cancel a later start. *)
Theorem loading_counter_invariant (calls : list LoadingService.Call) :
  let l := afterCalls calls LoadingService.create in
  0 <= LoadingService.requestCount l <= howMany isStart calls
  /\ LoadingService.isLoadingSubject l = (0 <? LoadingService.requestCount l)
  /\ (howMany isReset calls = 0 ->
      (forall n, howMany isStop (take n calls) <= howMany isStart (take n calls)) ->
      LoadingService.requestCount l = howMany isStart calls - howMany isStop calls)
  /\ LoadingService.isLoadingSubject
       (afterCalls (LoadingService.Stop :: LoadingService.Start :: calls)
          LoadingService.create)
     = LoadingService.isLoadingSubject
         (afterCalls (LoadingService.Start :: calls) LoadingService.create).
Proof.
  intros l. subst l.
  destruct (afterCalls_invariant calls LoadingService.create) as [H1 [H2 H3]];
    [cbn; lia | reflexivity |].
  cbn [LoadingService.create LoadingService.requestCount] in H3.
  split; [lia |]. split; [exact H2 |]. split; [| reflexivity].
  intros Hreset Hprefix.
  rewrite afterCalls_balanced; [cbn; lia | cbn; lia | exact Hreset |].
  intros n. cbn [LoadingService.create LoadingService.requestCount].
  specialize (Hprefix n). lia.
Qed.

(** ** The retry policy of the interceptor *)

Lemma retryDelay_spec (error : HttpErrorResponse.t) (index : Z) :
  HttpRequestInterceptor.retryDelay error index
  = if (400 <=? HttpErrorResponse.status error)
       && (HttpErrorResponse.status error <? 500)
    then None
    else if 2 <=? index then None else Some (2 ^ index * 1000).
Proof.
  unfold HttpRequestInterceptor.retryDelay.
  destruct ((400 <=? HttpErrorResponse.status error)
            && (HttpErrorResponse.status error <? 500)); reflexivity.
Qed.

Lemma clientError_iff (status : Z) :
  (400 <=? status) && (status <? 500) = true <-> 400 <= status < 500.
Proof.
  rewrite andb_true_iff, Z.leb_le, Z.ltb_lt. reflexivity.
Qed.

(** X23. The retry policy of the interceptor. With fuel for three
    subscriptions the pipe of [intercept] always ends: it subscribes to
    the handler at least once and at most three times, waits 1000 ms
    before the second and 2000 ms before the third subscription, and
    never subscribes again after a success or after a failure with a
    status from 400 to 499. Every failure before the last subscription
    had a status outside that range; a failure is thrown on only when
    its status is in that range or it was the third, enriched with its
    friendly message; and the loading counter, raised at the start, is
    lowered again whatever the outcome. *)
Theorem interceptor_retry_policy {A : Type}
    (handle : nat -> A + HttpErrorResponse.t) (l : LoadingService.t) (fuel : nat) :
  (3 <= fuel)%nat ->
  exists r,
    HttpRequestInterceptor.intercept fuel handle l = Some r
    /\ (1 <= HttpRequestInterceptor.attempts r <= 3)%nat
    /\ HttpRequestInterceptor.waits r
       = take (HttpRequestInterceptor.attempts r - 1) [1000; 2000]
    /\ (forall k, (S k < HttpRequestInterceptor.attempts r)%nat ->
          exists error, handle k = inr error
            /\ ~ 400 <= HttpErrorResponse.status error < 500)
    /\ match handle (HttpRequestInterceptor.attempts r - 1)%nat with
       | inl event => HttpRequestInterceptor.event r = inl event
       | inr error =>
           HttpRequestInterceptor.event r
           = inr (HttpRequestInterceptor.mkEnriched error
                    (HttpRequestInterceptor.friendlyMessage error))
           /\ (400 <= HttpErrorResponse.status error < 500
               \/ HttpRequestInterceptor.attempts r = 3%nat)
       end
    /\ HttpRequestInterceptor.loadingService r
       = LoadingService.stopLoading (LoadingService.startLoading l)
    /\ (0 <= LoadingService.requestCount l ->
        LoadingService.requestCount (HttpRequestInterceptor.loadingService r)
        = LoadingService.requestCount l).
Proof.
  intros Hfuel.
  destruct fuel as [| [| [| fuel]]]; try lia. clear Hfuel.
  assert (Hcount : 0 <= LoadingService.requestCount l ->
            LoadingService.requestCount
              (LoadingService.stopLoading (LoadingService.startLoading l))
            = LoadingService.requestCount l).
  { intros Hl. cbn. lia. }
  unfold HttpRequestInterceptor.intercept.
  cbn [HttpRequestInterceptor.retryWhen].
  destruct (handle 0%nat) as [e0 | error0] eqn:H0.
  { eexists. split; [reflexivity |].
    cbn [HttpRequestInterceptor.attempts HttpRequestInterceptor.waits
         HttpRequestInterceptor.event HttpRequestInterceptor.loadingService
         Nat.sub take].
    rewrite H0.
    split; [lia |]. split; [reflexivity |]. split; [intros k Hk; lia |].
    split; [reflexivity |]. split; [reflexivity | exact Hcount]. }
  rewrite retryDelay_spec.
  destruct ((400 <=? HttpErrorResponse.status error0)
            && (HttpErrorResponse.status error0 <? 500)) eqn:Hc0.
  { apply clientError_iff in Hc0.
    eexists. split; [reflexivity |].
    cbn [HttpRequestInterceptor.attempts HttpRequestInterceptor.waits
         HttpRequestInterceptor.event HttpRequestInterceptor.loadingService
         Nat.sub take].
    rewrite H0.
    split; [lia |]. split; [reflexivity |]. split; [intros k Hk; lia |].
    split; [split; [reflexivity | left; exact Hc0] |].
    split; [reflexivity | exact Hcount]. }
  assert (Hn0 : ~ 400 <= HttpErrorResponse.status error0 < 500).
  { intros Hr. apply clientError_iff in Hr. congruence. }
  cbn [Z.of_nat Z.leb Z.compare Z.pow Z.pow_pos Pos.iter Z.mul Pos.mul app].
  destruct (handle 1%nat) as [e1 | error1] eqn:H1.
  { eexists. split; [reflexivity |].
    cbn [HttpRequestInterceptor.attempts HttpRequestInterceptor.waits
         HttpRequestInterceptor.event HttpRequestInterceptor.loadingService
         Nat.sub take].
    rewrite H1.
    split; [lia |]. split; [reflexivity |].
    split; [intros k Hk; assert (k = 0%nat) by lia; subst k; eauto |].
    split; [reflexivity |]. split; [reflexivity | exact Hcount]. }
  rewrite retryDelay_spec.
  destruct ((400 <=? HttpErrorResponse.status error1)
            && (HttpErrorResponse.status error1 <? 500)) eqn:Hc1.
  { apply clientError_iff in Hc1.
    eexists. split; [reflexivity |].
    cbn [HttpRequestInterceptor.attempts HttpRequestInterceptor.waits
         HttpRequestInterceptor.event HttpRequestInterceptor.loadingService
         Nat.sub take].
    rewrite H1.
    split; [lia |]. split; [reflexivity |].
    split; [intros k Hk; assert (k = 0%nat) by lia; subst k; eauto |].
    split; [split; [reflexivity | left; exact Hc1] |].
    split; [reflexivity | exact Hcount]. }
  assert (Hn1 : ~ 400 <= HttpErrorResponse.status error1 < 500).
  { intros Hr. apply clientError_iff in Hr. congruence. }
  cbn [Z.of_nat Pos.of_succ_nat Pos.succ Z.leb Z.compare Pos.compare Pos.compare_cont
       Z.pow Z.pow_pos Pos.iter Z.mul Pos.mul Pos.add app].
  assert (Hprev : forall k, (S k < 3)%nat ->
            exists error, handle k = inr error
              /\ ~ 400 <= HttpErrorResponse.status error < 500).
  { intros k Hk. destruct k as [| [| k]]; [eauto | eauto | lia]. }
  destruct (handle 2%nat) as [e2 | error2] eqn:H2.
  { eexists. split; [reflexivity |].
    cbn [HttpRequestInterceptor.attempts HttpRequestInterceptor.waits
         HttpRequestInterceptor.event HttpRequestInterceptor.loadingService
         Nat.sub take].
    rewrite H2.
    split; [lia |]. split; [reflexivity |]. split; [exact Hprev |].
    split; [reflexivity |]. split; [reflexivity | exact Hcount]. }
  rewrite retryDelay_spec.
  assert (Hstop : (if (400 <=? HttpErrorResponse.status error2)
                      && (HttpErrorResponse.status error2 <? 500)
                   then None
                   else if 2 <=? Z.of_nat 2 then None
                        else Some (2 ^ Z.of_nat 2 * 1000)) = None).
  { destruct ((400 <=? HttpErrorResponse.status error2)
              && (HttpErrorResponse.status error2 <? 500)); reflexivity. }
  rewrite Hstop.
  eexists. split; [reflexivity |].
  cbn [HttpRequestInterceptor.attempts HttpRequestInterceptor.waits
       HttpRequestInterceptor.event HttpRequestInterceptor.loadingService
       Nat.sub take].
  rewrite H2.
  split; [lia |]. split; [reflexivity |]. split; [exact Hprev |].
  split; [split; [reflexivity | right; reflexivity] |].
  split; [reflexivity | exact Hcount].
Qed.

Lemma interceptor_retry_policy_witness :
  exists r,
    HttpRequestInterceptor.intercept 3 unavailableOnce LoadingService.create = Some r
    /\ HttpRequestInterceptor.attempts r = 2%nat
    /\ HttpRequestInterceptor.waits r = [1000].
Proof.
  destruct (interceptor_retry_policy unavailableOnce LoadingService.create 3
              ltac:(lia)) as [r [Hr _]].
  exists r. split; [exact Hr |].
  vm_compute in Hr. injection Hr as Hr. subst r. split; reflexivity.
Defined.

(** ** The form against the engine *)

Lemma imageUrlPattern_samples :
  imageUrlPattern (lit "https://cdn.example.com/a/b.PNG") = true
  /\ imageUrlPattern (lit "HTTP://x/.jpeg") = true
  /\ imageUrlPattern (lit "http://.webp") = true
  /\ imageUrlPattern (lit "ftp://x/a.png") = false
  /\ imageUrlPattern (lit "https://x/a.png?w=1") = false
  /\ imageUrlPattern (lit "http://x/a.jpg" ++ [10%N]) = false
  /\ imageUrlPattern (lit "http://x/" ++ [10%N] ++ lit "a.jpg") = false
  /\ imageUrlPattern (lit "https:/x.gif") = false.
Proof. vm_compute. repeat split. Qed.

Lemma validateProductData_of_form (formValue : ProductForm.t) :
  productForm_valid formValue = true ->
  exists n c,
    ProductForm.name formValue = Some n
    /\ ProductForm.category formValue = Some c
    /\ 2 <= strlen n <= 100
    /\ c <> []
    /\ validateProductData (buildProductData formValue) false
       = (if strlen (trim n) =? 0 then [lit "Name is required"]
          else if strlen (trim n) <? 3
               then [lit "Name must be at least 3 characters"]
               else [])
         ++ (if array_includes validCategories c then []
             else [lit "Category must be one of: "
                     ++ join (lit ", ") validCategories]).
Proof.
  unfold productForm_valid. rewrite !andb_true_iff.
  intros [[[[[[[[Hreq Hmin] Hmax] Hdesc] Hpreq] Hpmin] Hpmax] Hcat] _].
  destruct formValue as [name description price category imageUrl active].
  cbn [ProductForm.name ProductForm.description ProductForm.price
       ProductForm.category ProductForm.imageUrl ProductForm.active] in *.
  destruct name as [n|]; [| discriminate].
  destruct category as [c|]; [| discriminate].
  destruct price as [p|]; [| discriminate].
  unfold Validators.required, Validators.isEmptyInputValue in Hreq, Hcat.
  cbn [Validators.minLength Validators.maxLength Validators.min Validators.max] in *.
  apply negb_true_iff in Hreq, Hcat.
  rewrite Hreq in Hmin. cbn [orb] in Hmin.
  apply Z.leb_le in Hmin, Hmax.
  apply Qle_bool_iff in Hpmin, Hpmax.
  exists n, c. split; [reflexivity |]. split; [reflexivity |].
  split; [lia |].
  split; [intros ->; discriminate |].
  unfold validateProductData, buildProductData.
  cbn [ProductData.name ProductData.description ProductData.price
       ProductData.category ProductData.imageUrl ProductData.active
       ProductForm.name ProductForm.description ProductForm.price
       ProductForm.category ProductForm.imageUrl ProductForm.active
       option_map negb orb default].
  unfold id.
  pose proof (strlen_trim_le n) as Htrim.
  rewrite trim_idem, orb_diag.
  assert (Hlong : (200 <? strlen (trim n)) = false) by (apply Z.ltb_ge; lia).
  assert (Hneg : Qltb p 0 = false).
  { unfold Qltb. apply negb_false_iff. apply Qle_bool_iff.
    eapply Qle_trans; [| exact Hpmin]. discriminate. }
  assert (Hhigh : Qltb 999999.99 p = false).
  { unfold Qltb. apply negb_false_iff. apply Qle_bool_iff. exact Hpmax. }
  rewrite Hneg, Hhigh, Hcat, Hlong.
  assert (Hd : match truthy (option_map trim description) with
               | Some d => negb (strlen d =? 0) && (1000 <? strlen d)
               | None => false
               end = false).
  { destruct description as [d|]; [| reflexivity].
    cbn [option_map]. unfold truthy.
    destruct (strlen (trim d) =? 0) eqn:Hlen; [reflexivity |].
    cbn [negb]. rewrite Hlen. cbn [negb andb].
    apply Z.ltb_ge. pose proof (strlen_trim_le d). apply Z.leb_le in Hdesc. lia. }
  destruct (strlen (trim n) =? 0); [| destruct (strlen (trim n) <? 3)];
    destruct (array_includes validCategories c); cbn [negb app];
    destruct (truthy (option_map trim description)) as [d|];
    try rewrite Hd; reflexivity.
Qed.

(** X25. A valid form is not yet a valid product. For every form that
    passes its own validators, the engine never complains about the
    price or the description, nor about a name that is too long; it
    reports [Name is required] when the name is blank,
    [Name must be at least 3 characters] when the trimmed name has one
    or two characters, and the category message when the category is
    none of the six. So [saveProduct] on a valid form creates the
    product, under the next id and with the trimmed name, and navigates
    to it exactly when the trimmed name has at least three characters
    and the category is one of the six; otherwise nothing is stored, and
    the only thing the user is told is
    [Erro ao criar produto: Validation Failed]. *)
Theorem valid_form_against_engine
    (formValue : ProductForm.t) (c : FormComponent) (s : ServiceState) :
  productForm_valid formValue = true ->
  exists n category,
    ProductForm.name formValue = Some n
    /\ ProductForm.category formValue = Some category
    /\ validateProductData (buildProductData formValue) false
       = (if strlen (trim n) =? 0 then [lit "Name is required"]
          else if strlen (trim n) <? 3
               then [lit "Name must be at least 3 characters"]
               else [])
         ++ (if array_includes validCategories category then []
             else [lit "Category must be one of: "
                     ++ join (lit ", ") validCategories])
    /\ let saved := saveProduct formValue c s in
       (3 <= strlen (trim n) -> array_includes validCategories category = true ->
        exists p,
          mockProducts (snd saved) = mockProducts s ++ [p]
          /\ Product.id p = nextId s
          /\ Product.name p = trim n
          /\ Some (Product.price p) = ProductForm.price formValue
          /\ Product.category p = category
          /\ Product.active p = ProductForm.active formValue
          /\ navigated (fst saved) = navigated c ++ [nextId s]
          /\ formToasts (fst saved)
             = formToasts c ++ [ToastSuccess (lit "Produto criado com sucesso!")])
       /\ (strlen (trim n) < 3 \/ array_includes validCategories category = false ->
           mockProducts (snd saved) = mockProducts s
           /\ nextId (snd saved) = nextId s
           /\ navigated (fst saved) = navigated c
           /\ formLoading (fst saved) = false
           /\ formToasts (fst saved)
              = formToasts c
                ++ [ToastError (lit "Erro ao criar produto: Validation Failed")]).
Proof.
  intros Hvalid.
  destruct (validateProductData_of_form formValue Hvalid)
    as [n [category [Hname [Hcategory [Hlen [Hne Herrors]]]]]].
  exists n, category.
  split; [exact Hname |]. split; [exact Hcategory |]. split; [exact Herrors |].
  intros saved. subst saved. unfold saveProduct. rewrite Hvalid. cbn [negb].
  split.
  - intros Hlong Hknown.
    assert (Hok : validateProductData (buildProductData formValue) false = []).
    { rewrite Herrors, Hknown.
      destruct (Z.eqb_spec (strlen (trim n)) 0); [lia |].
      destruct (Z.ltb_spec (strlen (trim n)) 3); [lia | reflexivity]. }
    destruct (createProduct_valid (buildProductData formValue) s Hok)
      as [p [Hcreate _]].
    rewrite Hcreate.
    pose proof (createProduct_Next _ _ _ _ Hcreate) as [_ [Hp [Hdata [_ _]]]].
    exists p. cbn [fst snd form_createProduct navigated formToasts].
    split; [exact Hdata |].
    rewrite Hp. unfold buildProductData.
    cbn [Product.id Product.name Product.price Product.category Product.active
         ProductData.name ProductData.price ProductData.category ProductData.active
         default].
    rewrite Hname, Hcategory. cbn [option_map default]. unfold id.
    assert (Hprice : exists q, ProductForm.price formValue = Some q).
    { unfold productForm_valid in Hvalid. rewrite !andb_true_iff in Hvalid.
      destruct Hvalid as [[[[[_ Hreq] _] _] _] _].
      destruct (ProductForm.price formValue) as [q|]; [eauto | discriminate]. }
    destruct Hprice as [q Hq]. rewrite Hq.
    repeat split.
  - intros Hbad.
    assert (Herr : validateProductData (buildProductData formValue) false <> []).
    { rewrite Herrors. destruct Hbad as [Hshort | Hunknown].
      - destruct (Z.eqb_spec (strlen (trim n)) 0); [discriminate |].
        destruct (Z.ltb_spec (strlen (trim n)) 3); [discriminate | lia].
      - rewrite Hunknown. intros Hnil. apply app_eq_nil in Hnil.
        destruct Hnil as [_ Hnil]. discriminate. }
    rewrite (createProduct_invalid _ s Herr).
    cbn [fst snd form_createProduct navigated formToasts formLoading
         error_message ApiError.message createApiError].
    repeat split.
Qed.

Lemma valid_form_against_engine_witness :
  productForm_valid twoLetterName = true
  /\ formToasts (fst (saveProduct twoLetterName newFormComponent bootState))
     = [ToastError (lit "Erro ao criar produto: Validation Failed")]
  /\ mockProducts (snd (saveProduct twoLetterName newFormComponent bootState))
     = mockProducts bootState.
Proof.
  assert (Hvalid : productForm_valid twoLetterName = true)
    by (vm_compute; reflexivity).
  split; [exact Hvalid |].
  destruct (valid_form_against_engine twoLetterName newFormComponent bootState Hvalid)
    as [n [category [Hname [_ [_ [_ Hrejected]]]]]].
  injection Hname as Hname. subst n.
  destruct (Hrejected ltac:(left; vm_compute; reflexivity))
    as [Hdata [_ [_ [_ Htoasts]]]].
  split; [exact Htoasts | exact Hdata].
Defined.
